(** * MediMorph: prescription-text extraction and reminder scheduling

    A shallow embedding of the rule-based extraction pipeline of
    [ai_processor.py] (class [AIProcessor]), of the text functions of
    [prescription_ocr.py] (class [PrescriptionOCR]: the cleaner, the
    keyword tests, the choice among the recognition attempts) and of
    the schedule and reminder functions of
    [MEDIMORPH-main/medication_reminder.py] (class [MedicationReminder]),
    followed by the properties established about them.

    Python [str] values are modelled by [string]; the development covers
    ASCII text (code points below 128), for which [str.lower], [str.strip],
    [str.isdigit], [str.title], [str.split], [int] and the classes [\w],
    [\s], [\d] of [re] are the functions given in [PyStr].  A [datetime]
    is the number of its microseconds. *)

From Stdlib Require Import Bool Arith ZArith NArith QArith Lia Lqa List.
From Stdlib Require Import Ascii String.
Import ListNotations.

Close Scope Q_scope.
Open Scope string_scope.
Open Scope bool_scope.

(* ================================================================== *)
(** ** Python string primitives *)
(* ================================================================== *)

Module PyStr.

Definition code (c : ascii) : N := N_of_ascii c.

Definition in_range (lo hi c : ascii) : bool :=
  (code lo <=? code c)%N && (code c <=? code hi)%N.

Definition is_upper (c : ascii) : bool := in_range "A" "Z" c.
Definition is_lower (c : ascii) : bool := in_range "a" "z" c.
Definition is_alpha (c : ascii) : bool := is_upper c || is_lower c.
Definition is_digit (c : ascii) : bool := in_range "0" "9" c.

(** [str.isspace] on one character, which is also the class [\s]:
    TAB, LF, VT, FF, CR, the separators 0x1c-0x1f, and the space. *)
Definition is_space (c : ascii) : bool :=
  ((9 <=? code c) && (code c <=? 13) || (28 <=? code c) && (code c <=? 32))%N.

(** The class [\w]. *)
Definition is_word (c : ascii) : bool :=
  is_alpha c || is_digit c || Ascii.eqb c "_".

Definition is_ascii (c : ascii) : bool := (code c <? 128)%N.

Definition lower_char (c : ascii) : ascii :=
  if is_upper c then ascii_of_N (code c + 32) else c.

Definition upper_char (c : ascii) : ascii :=
  if is_lower c then ascii_of_N (code c - 32) else c.

Fixpoint smap (f : ascii -> ascii) (s : string) : string :=
  match s with
  | EmptyString => EmptyString
  | String c s' => String (f c) (smap f s')
  end.

Fixpoint sforall (p : ascii -> bool) (s : string) : bool :=
  match s with
  | EmptyString => true
  | String c s' => p c && sforall p s'
  end.

Fixpoint sexists (p : ascii -> bool) (s : string) : bool :=
  match s with
  | EmptyString => false
  | String c s' => p c || sexists p s'
  end.


(** [s.lower()] *)
Definition lower (s : string) : string := smap lower_char s.

(** [s.isdigit()]: non-empty and all characters digits. *)
Definition isdigit (s : string) : bool :=
  match s with
  | EmptyString => false
  | _ => sforall is_digit s
  end.

(** All characters of the text are ASCII. *)
Definition ascii_text (s : string) : bool := sforall is_ascii s.

(** [sub in s] *)
Fixpoint contains (sub s : string) : bool :=
  prefix sub s ||
  match s with
  | EmptyString => false
  | String _ s' => contains sub s'
  end.

(** [s.find(sub)]: the first index at which [sub] occurs, [-1] if none. *)
Fixpoint find_from (i : Z) (sub s : string) : Z :=
  if prefix sub s then i
  else match s with
       | EmptyString => (-1)%Z
       | String _ s' => find_from (i + 1) sub s'
       end.

Definition find (s sub : string) : Z := find_from 0 sub s.

Fixpoint drop (n : nat) (s : string) : string :=
  match n, s with
  | O, _ => s
  | S _, EmptyString => EmptyString
  | S n', String _ s' => drop n' s'
  end.

Fixpoint take (n : nat) (s : string) : string :=
  match n, s with
  | O, _ => EmptyString
  | S _, EmptyString => EmptyString
  | S n', String c s' => String c (take n' s')
  end.

(** [s[a:b]] for non-negative bounds [a] and [b]. *)
Definition slice (s : string) (a b : Z) : string :=
  take (Z.to_nat (b - a)) (drop (Z.to_nat a) s).

Definition len (s : string) : Z := Z.of_nat (String.length s).

Fixpoint lstrip (s : string) : string :=
  match s with
  | EmptyString => EmptyString
  | String c s' => if is_space c then lstrip s' else s
  end.

(** Removes trailing white space: a character is kept when it is not
    white space or when something is kept after it. *)
Fixpoint rstrip (s : string) : string :=
  match s with
  | EmptyString => EmptyString
  | String c s' =>
      match rstrip s' with
      | EmptyString => if is_space c then EmptyString else String c EmptyString
      | r => String c r
      end
  end.

(** [s.strip()] *)
Definition strip (s : string) : string := rstrip (lstrip s).

(** [s.split()]: the maximal runs of characters that are not white space.
    [cur] holds the run being read, in reverse. *)
Fixpoint rev_string (acc s : string) : string :=
  match s with
  | EmptyString => acc
  | String c s' => rev_string (String c acc) s'
  end.

Fixpoint split_go (cur : string) (s : string) : list string :=
  match s with
  | EmptyString =>
      match cur with EmptyString => [] | _ => [rev_string "" cur] end
  | String c s' =>
      if is_space c
      then match cur with
           | EmptyString => split_go "" s'
           | _ => rev_string "" cur :: split_go "" s'
           end
      else split_go (String c cur) s'
  end.

Definition split (s : string) : list string := split_go "" s.

(** [s.title()]: a letter is upper-cased when the previous character is
    not a letter, and lower-cased otherwise. *)
Fixpoint title_go (prev_cased : bool) (s : string) : string :=
  match s with
  | EmptyString => EmptyString
  | String c s' =>
      String (if is_alpha c
              then (if prev_cased then lower_char c else upper_char c)
              else c)
             (title_go (is_alpha c) s')
  end.

Definition title (s : string) : string := title_go false s.

(** [sep.join(l)] *)
Definition join (sep : string) (l : list string) : string := concat sep l.

(** [x in l] for a list of strings. *)
Definition mem (x : string) (l : list string) : bool :=
  existsb (String.eqb x) l.

Definition digit_val (c : ascii) : Z := Z.of_N (code c - 48).

(** [int(s)] for a string of decimal digits. *)
Definition int_of_digits (s : string) : Z :=
  (fix go (acc : Z) (s : string) : Z :=
     match s with
     | EmptyString => acc
     | String c s' => go (acc * 10 + digit_val c)%Z s'
     end) 0%Z s.

Definition digit_char (d : nat) : ascii := ascii_of_nat (48 + d).

(** [str(n)] for a natural number. *)
Fixpoint str_of_nat_go (fuel n : nat) (acc : string) : string :=
  match fuel with
  | O => acc
  | S f =>
      let acc' := String (digit_char (n mod 10)) acc in
      if (n <? 10)%nat then acc' else str_of_nat_go f (n / 10) acc'
  end.

Definition str_of_nat (n : nat) : string := str_of_nat_go (S n) n "".


(** [s.split(sep)] for a separator of one character: the pieces between
    the occurrences of [sep], so always at least one piece. *)
Fixpoint split_on_go (sep : ascii) (cur : string) (s : string) : list string :=
  match s with
  | EmptyString => [rev_string "" cur]
  | String c s' =>
      if Ascii.eqb c sep then rev_string "" cur :: split_on_go sep "" s'
      else split_on_go sep (String c cur) s'
  end.

Definition split_on (sep : ascii) (s : string) : list string :=
  split_on_go sep "" s.

(** The white space [int] skips at both ends of an ASCII string: TAB, LF,
    VT, FF, CR and the space, but not the separators 0x1c-0x1f. *)
Definition is_int_space (c : ascii) : bool :=
  ((9 <=? code c) && (code c <=? 13) || (code c =? 32))%N.

Fixpoint lstrip_int (s : string) : string :=
  match s with
  | EmptyString => EmptyString
  | String c s' => if is_int_space c then lstrip_int s' else s
  end.

Fixpoint rstrip_int (s : string) : string :=
  match s with
  | EmptyString => EmptyString
  | String c s' =>
      match rstrip_int s' with
      | EmptyString =>
          if is_int_space c then EmptyString else String c EmptyString
      | r => String c r
      end
  end.

(** The digits of an [int] literal in base ten: at least one digit, single
    underscores allowed between digits.  [after_digit] tells that the
    previous character was a digit. *)
Fixpoint digits_value (acc : Z) (after_digit : bool) (s : string)
  : option Z :=
  match s with
  | EmptyString => if after_digit then Some acc else None
  | String c s' =>
      if is_digit c then digits_value (acc * 10 + digit_val c)%Z true s'
      else if Ascii.eqb c "_" && after_digit then digits_value acc false s'
      else None
  end.

(** [int(s)] for a string: [None] stands for [ValueError]. *)
Definition int_of_str (s : string) : option Z :=
  match rstrip_int (lstrip_int s) with
  | String "+" d => digits_value 0 false d
  | String "-" d => option_map Z.opp (digits_value 0 false d)
  | t => digits_value 0 false t
  end.

(** A number below 100 written with two digits, as [%H] and [%M] do. *)
Definition two_digits (n : Z) : string :=
  String (digit_char (Z.to_nat (n / 10)))
    (String (digit_char (Z.to_nat (n mod 10))) EmptyString).

End PyStr.

Import PyStr.

(* ================================================================== *)
(** ** medication_reminder.py: class MedicationReminder *)
(* ================================================================== *)

Module MedicationReminder.

(** [parse_frequency(self, frequency)] *)
Definition parse_frequency (frequency : string) : list string :=
  let frequency_lower := lower frequency in
  let has (p : string) := contains p frequency_lower in
  if has "morning" && has "night" then ["08:00"; "20:00"]
  else if has "morning" && has "afternoon" then ["08:00"; "14:00"]
  else if has "morning" then ["08:00"]
  else if has "night" then ["20:00"]
  else if has "tds" || has "t.d.s" then ["08:00"; "14:00"; "20:00"]
  else if has "q6h" || has "qid" then ["06:00"; "12:00"; "18:00"; "00:00"]
  else if has "q8h" then ["08:00"; "16:00"; "00:00"]
  else if has "q12h" || has "bid" then ["08:00"; "20:00"]
  else if has "1-0-1" || has "1 0 1" then ["08:00"; "20:00"]
  else if has "1-1-1" || has "1 1 1" then ["08:00"; "14:00"; "20:00"]
  else if has "1-1-0" || has "1 1 0" then ["08:00"; "14:00"]
  else if has "0-1-1" || has "0 1 1" then ["14:00"; "20:00"]
  else if has "1-0-0" || has "1 0 0" then ["08:00"]
  else if has "0-0-1" || has "0 0 1" then ["20:00"]
  else if has "once daily" || has "daily" then ["09:00"]
  else if has "twice daily" then ["09:00"; "21:00"]
  else if has "three times daily" then ["08:00"; "14:00"; "20:00"]
  else if has "four times daily" then ["08:00"; "12:00"; "16:00"; "20:00"]
  else if has "every 6 hours" then ["06:00"; "12:00"; "18:00"; "00:00"]
  else if has "every 8 hours" then ["08:00"; "16:00"; "00:00"]
  else if has "every 12 hours" then ["08:00"; "20:00"]
  else if has "sos" || has "as needed" then []
  else ["09:00"].

(** A [datetime] is modelled by its number of microseconds since the
    epoch, a [timedelta] by a number of microseconds; [timedelta.days]
    is the normalised day count, the floor of the quotient. *)
Definition microseconds_per_day : Z := 86400000000.

Definition timedelta_days (delta : Z) : Z := (delta / microseconds_per_day)%Z.

(** [_calculate_expected_doses(self, medication, start_date)], with
    [frequency] the field [medication.frequency] and [utcnow] the value
    of [datetime.utcnow()]. *)
Definition _calculate_expected_doses
    (frequency : string) (utcnow start_date : Z) : Z :=
  let frequency_lower := lower frequency in
  let has (p : string) := contains p frequency_lower in
  let days_since_start := timedelta_days (utcnow - start_date) in
  if has "once daily" || has "daily" then days_since_start
  else if has "twice daily" || has "bid" then (days_since_start * 2)%Z
  else if has "three times daily" || has "tid" then (days_since_start * 3)%Z
  else if has "four times daily" || has "qid" then (days_since_start * 4)%Z
  else if has "every 6 hours" || has "q6h" then (days_since_start * 4)%Z
  else if has "every 8 hours" || has "q8h" then (days_since_start * 3)%Z
  else if has "every 12 hours" || has "q12h" then (days_since_start * 2)%Z
  else days_since_start.

(** A clock string ["HH:MM"] with [HH < 24] and [MM < 60]. *)
Definition valid_hhmm (s : string) : bool :=
  match s with
  | String h1 (String h2 (String c (String m1 (String m2 EmptyString)))) =>
      is_digit h1 && is_digit h2 && Ascii.eqb c ":" &&
      is_digit m1 && is_digit m2 &&
      (digit_val h1 * 10 + digit_val h2 <? 24)%Z &&
      (digit_val m1 * 10 + digit_val m2 <? 60)%Z
  | _ => false
  end.

(** Non-decreasing in the order of Python strings. *)
Fixpoint sorted (l : list string) : bool :=
  match l with
  | a :: (b :: _) as tl => String.leb a b && sorted tl
  | _ => true
  end.

Fixpoint nodup_str (l : list string) : bool :=
  match l with
  | [] => true
  | a :: tl => negb (mem a tl) && nodup_str tl
  end.


Definition microseconds_per_hour : Z := 3600000000.
Definition microseconds_per_minute : Z := 60000000.
Definition microseconds_per_second : Z := 1000000.

(** [d.date()], as the number of the day, and [d.time()], as the number
    of microseconds since midnight. *)
Definition date (d : Z) : Z := (d / microseconds_per_day)%Z.

Definition time_of (d : Z) : Z := (d mod microseconds_per_day)%Z.

(** [d.strftime('%H:%M')], for a [datetime] and for a [time] (a number
    of microseconds below one day). *)
Definition strftime_HM (d : Z) : string :=
  two_digits (time_of d / microseconds_per_hour)
  ++ ":" ++ two_digits (time_of d / microseconds_per_minute mod 60).

(** A [datetime] is counted in microseconds from [datetime.min],
    0001-01-01 00:00:00; [datetime.max] is 9999-12-31 23:59:59.999999. *)
Definition datetime_max : Z := 315537897599999999.

Definition is_datetime (d : Z) : bool := (0 <=? d)%Z && (d <=? datetime_max)%Z.

(** [d + delta] for a [datetime] and a [timedelta]: [None] stands for
    the [OverflowError] raised when the sum is not a [datetime]. *)
Definition add_timedelta (d delta : Z) : option Z :=
  if is_datetime (d + delta) then Some (d + delta)%Z else None.

(** [calculate_next_dose(self, medication, last_taken)], with [frequency]
    the field [medication.frequency]. *)
Definition calculate_next_dose (frequency : string) (last_taken : Z)
  : option Z :=
  let frequency_lower := lower frequency in
  let has (p : string) := contains p frequency_lower in
  if has "once daily" || has "daily"
  then add_timedelta last_taken (1 * microseconds_per_day)
  else if has "twice daily" || has "bid"
  then add_timedelta last_taken (12 * microseconds_per_hour)
  else if has "three times daily" || has "tid"
  then add_timedelta last_taken (8 * microseconds_per_hour)
  else if has "four times daily" || has "qid"
  then add_timedelta last_taken (6 * microseconds_per_hour)
  else if has "every 6 hours" || has "q6h"
  then add_timedelta last_taken (6 * microseconds_per_hour)
  else if has "every 8 hours" || has "q8h"
  then add_timedelta last_taken (8 * microseconds_per_hour)
  else if has "every 12 hours" || has "q12h"
  then add_timedelta last_taken (12 * microseconds_per_hour)
  else add_timedelta last_taken (1 * microseconds_per_day).

(** [hour, minute = map(int, s.split(':'))]: [None] when [int] or the
    unpacking raises [ValueError]. *)
Definition hour_minute (s : string) : option (Z * Z) :=
  match split_on ":" s with
  | [h; m] =>
      match int_of_str h, int_of_str m with
      | Some hour, Some minute => Some (hour, minute)
      | _, _ => None
      end
  | _ => None
  end.

(** [_is_time_match(self, current_time_str, reminder_time_str)] for two
    strings; the bare [except] turns every failure into [False]. *)
Definition _is_time_match (current_time_str reminder_time_str : string)
  : bool :=
  match hour_minute current_time_str, hour_minute reminder_time_str with
  | Some (current_hour, current_min), Some (reminder_hour, reminder_min) =>
      let current_total_min := (current_hour * 60 + current_min)%Z in
      let reminder_total_min := (reminder_hour * 60 + reminder_min)%Z in
      (Z.abs (current_total_min - reminder_total_min) <=? 1)%Z
  | _, _ => false
  end.

(** A row of the table [Reminder], as far as the class reads it: the
    flag [is_active], the column [time] and the nullable column
    [last_taken]. *)
Record reminder : Type := mkReminder {
  is_active : bool;
  time : Z;
  last_taken : option Z
}.

(** [_reminder_sent_today(self, reminder)], with [now] the value of
    [datetime.now()]. *)
Definition _reminder_sent_today (r : reminder) (now : Z) : bool :=
  match last_taken r with
  | None => false
  | Some taken =>
      let today := date now in
      let last_taken_date := date taken in
      (last_taken_date =? today)%Z
  end.

(** [_is_reminder_due(self, reminder, current_time)] *)
Definition _is_reminder_due (r : reminder) (current_time : Z) : bool :=
  if negb (is_active r) then false
  else
    let reminder_time := time r in
    let current_time_only := time_of current_time in
    if (reminder_time <=? current_time_only)%Z then
      match last_taken r with
      | Some taken =>
          let last_taken_date := date taken in
          let current_date := date current_time in
          if (last_taken_date =? current_date)%Z then false else true
      | None => true
      end
    else false.

(** The test of the loop of [_check_and_send_reminders] on one row: the
    query selects the active rows, then [_is_time_match] is asked about
    the two formatted times and [_reminder_sent_today] about the row. *)
Definition alert_is_sent (r : reminder) (now : Z) : bool :=
  let current_time_str := strftime_HM now in
  let reminder_time_str := strftime_HM (time r) in
  if is_active r then
    if _is_time_match current_time_str reminder_time_str
    then negb (_reminder_sent_today r now)
    else false
  else false.

(** The test of the loop of [background_reminder_check] (app.py) on one
    row: the query selects the active rows, [_is_reminder_due] is asked
    about the row, and the alert goes out when the user and the
    medication of the row are found and the medication is active;
    [linked] tells whether that is so at the time of the check. *)
Definition reminder_is_announced (linked : Z -> bool) (r : reminder)
    (current_time : Z) : bool :=
  if is_active r then
    if _is_reminder_due r current_time then linked current_time else false
  else false.

(** What [_send_reminder_alert], and the loop of the application, do to
    the row once the alert is out: [reminder.last_taken = now]. *)
Definition mark_sent (r : reminder) (now : Z) : reminder :=
  mkReminder (is_active r) (time r) (Some now).

Section ActiveReminders.

(** An alert is a dictionary of which only ['medication_id'] is read. *)
Variable alert : Type.
Variable medication_id_of : alert -> Z.

(** [self.active_reminders]: the alerts of each user, by [user_id]. *)
Definition active_reminders : Type := list (Z * list alert).

Fixpoint get_alerts (active : active_reminders) (user_id : Z)
  : option (list alert) :=
  match active with
  | [] => None
  | (u, l) :: tl => if (u =? user_id)%Z then Some l else get_alerts tl user_id
  end.

(** [self.active_reminders[user_id] = l] *)
Fixpoint set_alerts (active : active_reminders) (user_id : Z)
    (l : list alert) : active_reminders :=
  match active with
  | [] => [(user_id, l)]
  | (u, l') :: tl =>
      if (u =? user_id)%Z then (u, l) :: tl
      else (u, l') :: set_alerts tl user_id l
  end.

(** The last statements of [_send_reminder_alert]: the alert is appended
    to the list of the user, which is created when missing. *)
Definition store_alert (active : active_reminders) (user_id : Z)
    (alert_data : alert) : active_reminders :=
  let active :=
    match get_alerts active user_id with
    | None => set_alerts active user_id []
    | Some _ => active
    end in
  match get_alerts active user_id with
  | Some l => set_alerts active user_id (l ++ [alert_data])%list
  | None => active
  end.

(** [get_active_reminders_for_user(self, user_id)] *)
Definition get_active_reminders_for_user (active : active_reminders)
    (user_id : Z) : list alert :=
  match get_alerts active user_id with
  | Some l => l
  | None => []
  end.

(** [clear_reminder_for_user(self, user_id, medication_id)] *)
Definition clear_reminder_for_user (active : active_reminders)
    (user_id medication_id : Z) : active_reminders :=
  match get_alerts active user_id with
  | Some l =>
      set_alerts active user_id
        (filter (fun r => negb (medication_id_of r =? medication_id)%Z) l)
  | None => active
  end.

End ActiveReminders.

(** A medication handed to [check_reminders]: a dictionary read with
    [get]; the value under ['frequency'], when present, is a string. *)
Record medication (V : Type) : Type := mkMedication {
  med_id : option V;
  med_name : option V;
  med_dosage : option V;
  med_frequency : option string;
  med_user_id : option V
}.

Arguments mkMedication {V}.
Arguments med_id {V}.
Arguments med_name {V}.
Arguments med_dosage {V}.
Arguments med_frequency {V}.
Arguments med_user_id {V}.

(** An entry of the list [check_reminders] returns. *)
Record due_reminder (V : Type) : Type := mkDue {
  due_medication_id : option V;
  due_medication_name : option V;
  due_dosage : option V;
  due_time : string;
  due_user_id : option V
}.

Arguments mkDue {V}.
Arguments due_medication_id {V}.
Arguments due_medication_name {V}.
Arguments due_dosage {V}.
Arguments due_time {V}.
Arguments due_user_id {V}.

(** [current_time.replace(hour=hour, minute=minute, second=0,
    microsecond=0)]: a number outside the range of a C [int] raises
    [OverflowError], an hour or minute out of range [ValueError]. *)
Inductive replaced : Type :=
| Replaced (d : Z)
| ValueError
| OverflowError.

Definition fits_c_int (z : Z) : bool :=
  ((-2147483648 <=? z) && (z <=? 2147483647))%Z.

Definition replace_hour_minute (current_time hour minute : Z) : replaced :=
  if negb (fits_c_int hour && fits_c_int minute) then OverflowError
  else if ((0 <=? hour) && (hour <? 24) && (0 <=? minute) && (minute <? 60))%Z
  then Replaced (date current_time * microseconds_per_day
                 + hour * microseconds_per_hour
                 + minute * microseconds_per_minute)%Z
  else ValueError.

(** The inner loop of [check_reminders]: the reminder times within five
    minutes of [current_time]; [None] when [OverflowError], which the loop
    does not catch, ends the call.  The difference of two datetimes is
    below one day here, so [total_seconds() <= 300] holds exactly when
    the difference is at most 300 000 000 microseconds. *)
Fixpoint due_times (current_time : Z) (reminder_times : list string)
  : option (list string) :=
  match reminder_times with
  | [] => Some []
  | reminder_time :: tl =>
      match hour_minute reminder_time with
      | None => due_times current_time tl
      | Some (hour, minute) =>
          match replace_hour_minute current_time hour minute with
          | OverflowError => None
          | ValueError => due_times current_time tl
          | Replaced reminder_datetime =>
              let time_diff := Z.abs (current_time - reminder_datetime) in
              if (time_diff <=? 300 * microseconds_per_second)%Z
              then option_map (cons reminder_time) (due_times current_time tl)
              else due_times current_time tl
          end
      end
  end.

(** [check_reminders(self, medications)], with [current_time] the value
    of [datetime.now()]. *)
Fixpoint check_reminders {V : Type} (current_time : Z)
    (medications : list (medication V)) : option (list (due_reminder V)) :=
  match medications with
  | [] => Some []
  | m :: tl =>
      let frequency :=
        match med_frequency m with Some f => f | None => "daily" end in
      let reminder_times := parse_frequency frequency in
      match due_times current_time reminder_times with
      | None => None
      | Some times =>
          option_map
            (app (map (fun reminder_time =>
                         mkDue (med_id m) (med_name m) (med_dosage m)
                           reminder_time (med_user_id m)) times))
            (check_reminders current_time tl)
      end
  end.

End MedicationReminder.

(* ================================================================== *)
(** ** The regular expressions of Python's [re] that the program uses *)
(* ================================================================== *)

(** A backtracking matcher with the search order of [re]: alternatives
    left to right, greedy repetition, the leftmost match wins.  Every
    pattern of the program is written in the syntax of the source and
    read by [compile].  None of them matches the empty string. *)

Module Re.

Inductive citem : Type :=
| CRange (lo hi : ascii)
| CDigit
| CSpace
| CWord.

Inductive regex : Type :=
| Eps
| Lit (c : ascii)
| CSet (negated : bool) (items : list citem)
| Bound
| Seq (r1 r2 : regex)
| Alt (r1 r2 : regex)
| Star (r : regex)
| Group (n : nat) (r : regex).

(** *** Matching *)

(** With [re.IGNORECASE] ([ic = true]) a literal or a range also matches
    the other case of a letter. *)
Definition lit_matches (ic : bool) (c x : ascii) : bool :=
  if ic then Ascii.eqb (lower_char c) (lower_char x) else Ascii.eqb c x.

Definition item_matches (ic : bool) (it : citem) (x : ascii) : bool :=
  match it with
  | CRange lo hi =>
      in_range lo hi x ||
      (ic && (in_range lo hi (lower_char x) || in_range lo hi (upper_char x)))
  | CDigit => is_digit x
  | CSpace => is_space x
  | CWord => is_word x
  end.

Definition set_matches (ic negated : bool) (items : list citem) (x : ascii)
  : bool :=
  xorb negated (existsb (fun it => item_matches ic it x) items).

Definition span : Type := (nat * nat)%type.

Record state : Type := mkState {
  pos : nat;                       (* index of the next character *)
  prev : option ascii;             (* the character before [pos] *)
  rest : string;                   (* the text from [pos] on *)
  caps : list (nat * span)         (* groups closed so far, latest first *)
}.

Definition word_opt (o : option ascii) : bool :=
  match o with Some c => is_word c | None => false end.

Definition next_char (s : string) : option ascii :=
  match s with EmptyString => None | String c _ => Some c end.

Definition at_boundary (st : state) : bool :=
  xorb (word_opt (prev st)) (word_opt (next_char (rest st))).

Definition eat (p : ascii -> bool) (st : state) : option state :=
  match rest st with
  | EmptyString => None
  | String x s =>
      if p x then Some (mkState (S (pos st)) (Some x) s (caps st)) else None
  end.

Definition close_group (n start : nat) (st : state) : state :=
  mkState (pos st) (prev st) (rest st) ((n, (start, pos st)) :: caps st).

Section Matcher.
Context {A : Type}.

(** Greedy repetition of [step]; an iteration has to consume input. *)
Fixpoint star_loop (fuel : nat)
    (step : state -> (state -> option A) -> option A)
    (st : state) (k : state -> option A) : option A :=
  match fuel with
  | O => k st
  | S f =>
      match step st (fun st' =>
                       if (pos st <? pos st')%nat
                       then star_loop f step st' k else None) with
      | Some a => Some a
      | None => k st
      end
  end.

Fixpoint run (ic : bool) (r : regex) (st : state)
    (k : state -> option A) {struct r} : option A :=
  match r with
  | Eps => k st
  | Lit c =>
      match eat (lit_matches ic c) st with Some st' => k st' | None => None end
  | CSet negated items =>
      match eat (set_matches ic negated items) st with
      | Some st' => k st'
      | None => None
      end
  | Bound => if at_boundary st then k st else None
  | Seq r1 r2 => run ic r1 st (fun st' => run ic r2 st' k)
  | Alt r1 r2 =>
      match run ic r1 st k with
      | Some a => Some a
      | None => run ic r2 st k
      end
  | Star r' => star_loop (S (String.length (rest st))) (run ic r') st k
  | Group n r' => run ic r' st (fun st' => k (close_group n (pos st) st'))
  end.

End Matcher.

(** A match object: [start()], [end()] and the spans of the groups. *)
Record mtch : Type := mkMatch {
  m_start : nat;
  m_end : nat;
  m_caps : list (nat * span)
}.

(** The match that begins exactly at position [p], if there is one. *)
Definition match_at (ic : bool) (r : regex) (p : nat) (pv : option ascii)
    (s : string) : option mtch :=
  run ic r (mkState p pv s []) (fun st' => Some (mkMatch p (pos st') (caps st'))).

(** [re.search]: the first position with a match. *)
Fixpoint scan (ic : bool) (r : regex) (p : nat) (pv : option ascii)
    (s : string) : option mtch :=
  match match_at ic r p pv s with
  | Some x => Some x
  | None =>
      match s with
      | EmptyString => None
      | String c s' => scan ic r (S p) (Some c) s'
      end
  end.

Definition search (ic : bool) (r : regex) (text : string) : option mtch :=
  scan ic r 0 None text.

(** [re.finditer]: the matches from left to right, without overlap;
    [skip] counts the characters still covered by the last match. *)
Fixpoint finditer_go (ic : bool) (r : regex) (skip p : nat)
    (pv : option ascii) (s : string) : list mtch :=
  match s with
  | EmptyString =>
      match skip with
      | O => match match_at ic r p pv s with Some x => [x] | None => [] end
      | S _ => []
      end
  | String c s' =>
      match skip with
      | S k => finditer_go ic r k (S p) (Some c) s'
      | O =>
          match match_at ic r p pv s with
          | Some x => x :: finditer_go ic r (m_end x - p - 1) (S p) (Some c) s'
          | None => finditer_go ic r 0 (S p) (Some c) s'
          end
      end
  end.

Definition finditer (ic : bool) (r : regex) (text : string) : list mtch :=
  finditer_go ic r 0 0 None text.

(** [re.sub(r, repl, text)] for a replacement without group references. *)
Fixpoint sub_go (ic : bool) (r : regex) (repl : string) (skip p : nat)
    (pv : option ascii) (s : string) : string :=
  match s with
  | EmptyString =>
      match skip with
      | O => match match_at ic r p pv s with Some _ => repl | None => "" end
      | S _ => ""
      end
  | String c s' =>
      match skip with
      | S k => sub_go ic r repl k (S p) (Some c) s'
      | O =>
          match match_at ic r p pv s with
          | Some x =>
              if (p <? m_end x)%nat
              then repl ++ sub_go ic r repl (m_end x - p - 1) (S p) (Some c) s'
              else repl ++ String c (sub_go ic r repl 0 (S p) (Some c) s')
          | None => String c (sub_go ic r repl 0 (S p) (Some c) s')
          end
      end
  end.

Definition sub (ic : bool) (r : regex) (repl text : string) : string :=
  sub_go ic r repl 0 0 None text.

(** *** Groups *)

Fixpoint ngroups (r : regex) : nat :=
  match r with
  | Seq r1 r2 | Alt r1 r2 => Nat.max (ngroups r1) (ngroups r2)
  | Star r' => ngroups r'
  | Group n r' => Nat.max n (ngroups r')
  | _ => 0
  end.

Fixpoint lookup_cap (n : nat) (l : list (nat * span)) : option span :=
  match l with
  | [] => None
  | (i, sp) :: tl => if (i =? n)%nat then Some sp else lookup_cap n tl
  end.

(** [m.group(n)] for [n >= 1]: [None] when the group took no part. *)
Definition group (text : string) (x : mtch) (n : nat) : option string :=
  match lookup_cap n (m_caps x) with
  | Some (a, b) => Some (take (b - a) (drop a text))
  | None => None
  end.

(** [m.group(0)] *)
Definition group0 (text : string) (x : mtch) : string :=
  take (m_end x - m_start x) (drop (m_start x) text).

(** [m.groups()] *)
Definition groups (r : regex) (text : string) (x : mtch)
  : list (option string) :=
  map (fun n => group text x n) (seq 1 (ngroups r)).

(** An element of the list [re.findall] returns: the whole match when the
    pattern has no group, the group when it has one, a tuple otherwise;
    a group that took no part gives the empty string. *)
Inductive found : Type :=
| FStr (s : string)
| FTuple (l : list string).

Definition or_empty (o : option string) : string :=
  match o with Some s => s | None => "" end.

Definition found_of (r : regex) (text : string) (x : mtch) : found :=
  match ngroups r with
  | O => FStr (group0 text x)
  | S O => FStr (or_empty (group text x 1))
  | _ => FTuple (map or_empty (groups r text x))
  end.

Definition findall (ic : bool) (r : regex) (text : string) : list found :=
  map (found_of r text) (finditer ic r text).

(** *** Reading the pattern syntax *)

Definition seq_ (r1 r2 : regex) : regex :=
  match r2 with Eps => r1 | _ => Seq r1 r2 end.

Definition plus (r : regex) : regex := Seq r (Star r).
Definition opt (r : regex) : regex := Alt r Eps.

(** [r{lo,hi}], greedy: [lo] copies, then up to [extra] more. *)
Fixpoint upto (extra : nat) (r : regex) : regex :=
  match extra with
  | O => Eps
  | S e => opt (seq_ r (upto e r))
  end.

Fixpoint times (n : nat) (r tail : regex) : regex :=
  match n with
  | O => tail
  | S n' => seq_ r (times n' r tail)
  end.

Definition repeat_ (lo hi : nat) (r : regex) : regex :=
  times lo r (upto (hi - lo) r).

Definition escape_item (c : ascii) : citem :=
  if Ascii.eqb c "d" then CDigit
  else if Ascii.eqb c "s" then CSpace
  else if Ascii.eqb c "w" then CWord
  else CRange c c.

(** The items of a bracket class, up to the closing bracket. *)
Fixpoint parse_items (s : string) : option (list citem * string) :=
  match s with
  | EmptyString => None
  | String "]" s' => Some ([], s')
  | String "\" (String c s') =>
      match parse_items s' with
      | Some (l, s'') => Some (escape_item c :: l, s'')
      | None => None
      end
  | String lo (String "-" (String hi s' as tl)) =>
      if Ascii.eqb hi "]"
      then match parse_items tl with
           | Some (l, s'') => Some (CRange lo lo :: CRange "-" "-" :: l, s'')
           | None => None
           end
      else match parse_items s' with
           | Some (l, s'') => Some (CRange lo hi :: l, s'')
           | None => None
           end
  | String c s' =>
      match parse_items s' with
      | Some (l, s'') => Some (CRange c c :: l, s'')
      | None => None
      end
  end.

Definition parse_set (s : string) : option (regex * string) :=
  match s with
  | String "^" s' =>
      match parse_items s' with
      | Some (l, s'') => Some (CSet true l, s'')
      | None => None
      end
  | _ =>
      match parse_items s with
      | Some (l, s'') => Some (CSet false l, s'')
      | None => None
      end
  end.

Fixpoint read_nat (acc : nat) (s : string) : nat * string :=
  match s with
  | String c s' =>
      if is_digit c then read_nat (acc * 10 + Z.to_nat (digit_val c)) s'
      else (acc, s)
  | EmptyString => (acc, s)
  end.

(** A quantifier after the atom [a], if one follows. *)
Definition parse_quant (a : regex) (s : string) : option (regex * string) :=
  match s with
  | String "*" s' => Some (Star a, s')
  | String "+" s' => Some (plus a, s')
  | String "?" s' => Some (opt a, s')
  | String "{" s' =>
      let '(lo, s1) := read_nat 0 s' in
      match s1 with
      | String "," s2 =>
          let '(hi, s3) := read_nat 0 s2 in
          match s3 with
          | String "}" s4 => Some (repeat_ lo hi a, s4)
          | _ => None
          end
      | String "}" s2 => Some (repeat_ lo lo a, s2)
      | _ => None
      end
  | _ => Some (a, s)
  end.

Definition escape_atom (c : ascii) : regex :=
  if Ascii.eqb c "b" then Bound
  else if Ascii.eqb c "d" then CSet false [CDigit]
  else if Ascii.eqb c "s" then CSet false [CSpace]
  else if Ascii.eqb c "w" then CSet false [CWord]
  else Lit c.

(** [parse_alt fuel s n]: an alternation, up to a closing parenthesis or
    the end of the pattern; [n] is the number of the next group. *)
Fixpoint parse_alt (fuel : nat) (s : string) (n : nat)
  : option (regex * string * nat) :=
  match fuel with
  | O => None
  | S f =>
      match parse_seq f s n with
      | Some (r1, String "|" s1, n1) =>
          match parse_alt f s1 n1 with
          | Some (r2, s2, n2) => Some (Alt r1 r2, s2, n2)
          | None => None
          end
      | other => other
      end
  end

with parse_seq (fuel : nat) (s : string) (n : nat)
  : option (regex * string * nat) :=
  match fuel with
  | O => None
  | S f =>
      match s with
      | EmptyString | String "|" _ | String ")" _ => Some (Eps, s, n)
      | _ =>
          match parse_atom f s n with
          | Some (a, s1, n1) =>
              match parse_quant a s1 with
              | Some (q, s2) =>
                  match parse_seq f s2 n1 with
                  | Some (r, s3, n2) => Some (seq_ q r, s3, n2)
                  | None => None
                  end
              | None => None
              end
          | None => None
          end
      end
  end

with parse_atom (fuel : nat) (s : string) (n : nat)
  : option (regex * string * nat) :=
  match fuel with
  | O => None
  | S f =>
      match s with
      | String "(" (String "?" (String ":" s')) =>
          match parse_alt f s' n with
          | Some (r, String ")" s1, n1) => Some (r, s1, n1)
          | _ => None
          end
      | String "(" s' =>
          match parse_alt f s' (S n) with
          | Some (r, String ")" s1, n1) => Some (Group n r, s1, n1)
          | _ => None
          end
      | String "[" s' =>
          match parse_set s' with
          | Some (r, s1) => Some (r, s1, n)
          | None => None
          end
      | String "\" (String c s') => Some (escape_atom c, s', n)
      | String "." _ | String "^" _ | String "$" _ | String "*" _
      | String "+" _ | String "?" _ | String "{" _ => None
      | String c s' => Some (Lit c, s', n)
      | EmptyString => None
      end
  end.

(** A pattern that matches nothing stands for one that cannot be read. *)
Definition never : regex := CSet false [].

Definition parse (pattern : string) : option regex :=
  match parse_alt (2 * String.length pattern + 2) pattern 1 with
  | Some (r, EmptyString, _) => Some r
  | _ => None
  end.

Definition compile (pattern : string) : regex :=
  match parse pattern with Some r => r | None => never end.

End Re.

(* ================================================================== *)
(** ** Python values, exceptions and dictionaries *)
(* ================================================================== *)

Module Py.

Inductive exn : Type :=
| AttributeError
| TypeError
| IndexError.

(** The outcome of a call: a value, or a raised exception. *)
Inductive result (A : Type) : Type :=
| Ok (a : A)
| Raise (e : exn).

Arguments Ok {A} a.
Arguments Raise {A} e.

Definition bind {A B : Type} (x : result A) (f : A -> result B) : result B :=
  match x with
  | Ok a => f a
  | Raise e => Raise e
  end.

(** The values an OCR caller may hand to the extraction entry points. *)
Inductive value : Type :=
| PyNone
| PyInt (z : Z)
| PyBytes (b : string)
| PyStr (s : string).

(** A [dict] with string keys keeps the order in which keys were first
    inserted; assigning to a key that is present replaces its value. *)
Definition dict (V : Type) : Type := list (string * V).

Fixpoint dict_set {V : Type} (d : dict V) (k : string) (v : V) : dict V :=
  match d with
  | [] => [(k, v)]
  | (k', v') :: tl =>
      if String.eqb k' k then (k', v) :: tl else (k', v') :: dict_set tl k v
  end.

(** A dictionary display [{k1: v1, k2: v2, ...}], keys possibly repeated. *)
Definition dict_literal {V : Type} (items : list (string * V)) : dict V :=
  fold_left (fun d kv => dict_set d (fst kv) (snd kv)) items [].

Fixpoint dict_get {V : Type} (d : dict V) (k : string) : option V :=
  match d with
  | [] => None
  | (k', v) :: tl => if String.eqb k' k then Some v else dict_get tl k
  end.

(** How an f-string shows a value that is a string or [None]. *)
Definition fstr (o : option string) : string :=
  match o with Some s => s | None => "None" end.

End Py.

Import Py.

Notation "x <- c1 ;; c2" := (bind c1 (fun x => c2))
  (at level 61, c1 at next level, right associativity).

(* ================================================================== *)
(** ** prescription_ocr.py: class PrescriptionOCR *)
(* ================================================================== *)

Module PrescriptionOCR.

(** [clean_text(self, text)] for a [str] argument. *)
Definition clean_text (text : string) : string :=
  let text := Re.sub false (Re.compile "\s+") " " (strip text) in
  let text :=
    Re.sub false (Re.compile "[^\w\s.,:;()\[\]{}/\-+=%]") " " text in
  let text := Re.sub false (Re.compile "\b0\b") "O" text in
  let text := Re.sub false (Re.compile "\bl\b") "I" text in
  text.


(** [sum(1 for keyword in keywords if keyword in text_lower)] *)
Definition keyword_count (keywords : list string) (text_lower : string)
  : Z :=
  Z.of_nat
    (List.length (filter (fun keyword => contains keyword text_lower) keywords)).

Definition medical_keywords : list string := [
  "tab"; "tablet"; "cap"; "capsule"; "mg"; "ml"; "gm"; "gram";
  "daily"; "twice"; "thrice"; "morning"; "evening"; "night";
  "before"; "after"; "meal"; "food"; "rx"; "prescription";
  "dose"; "dosage"; "frequency"; "duration"; "days"; "weeks";
  "months"; "take"; "adv"; "advice"
].

(** [score_text_quality(self, text)].  The score is an [int], or the
    [float] that is half of one; the quotient [special_char_ratio] of two
    lengths exceeds the float [0.3] exactly when ten times the number of
    special characters exceeds three times the length of the text. *)
Definition score_text_quality (text : string) : Q :=
  if String.eqb text "" || (len (strip text) <? 10)%Z then 0%Q
  else
    let score :=
      (len (strip text) + 50 * keyword_count medical_keywords (lower text))%Z in
    let special :=
      Z.of_nat (List.length
                  (Re.findall false (Re.compile "[^a-zA-Z0-9\s]") text)) in
    if (3 * len text <? 10 * special)%Z
    then (inject_Z score * (5 # 10))%Q
    else inject_Z score.

Definition non_prescription_keywords : list string := [
  "dental"; "teeth"; "whitening"; "implant"; "dentistry"; "clinic";
  "smile"; "designing"; "tooth"; "gum"; "oral"; "cavity"
].

Definition prescription_keywords : list string := [
  "rx"; "prescription"; "tab"; "tablet"; "cap"; "capsule";
  "mg"; "ml"; "daily"; "twice"; "thrice"; "morning"; "evening";
  "before"; "after"; "meal"; "dose"; "take"; "medicine"
].

(** [is_prescription_text(self, text)] *)
Definition is_prescription_text (text : string) : bool :=
  let text_lower := lower text in
  let non_prescription_count :=
    keyword_count non_prescription_keywords text_lower in
  let prescription_count :=
    keyword_count prescription_keywords text_lower in
  if (prescription_count <? non_prescription_count)%Z
     && (2 <? non_prescription_count)%Z
  then false
  else if (0 <? prescription_count)%Z then true
  else true.

(** The sample prescription [extract_text] returns when it has nothing
    better: a text in triple quotes, whose lines carry the indentation
    of the statement that returns it. *)
Definition newline : string := String (ascii_of_nat 10) EmptyString.

Fixpoint spaces (n : nat) : string :=
  match n with
  | O => EmptyString
  | S n' => String " " (spaces n')
  end.

Definition sample_prescription (indent : nat) : string :=
  String.concat ""
    (map (fun line => newline ++ spaces indent ++ line)
       ["Dr. Sharma's Clinic";
        "Rx:";
        "Tab. Augmentin 625mg 1-0-1 x 5 days";
        "Tab. Enzoflam 500mg 1-0-1 x 3 days";
        "Tab. PanD 40mg 1-0-0 x 7 days";
        "Cap. Omeprazole 20mg 1-0-0 x 10 days";
        "Syrup Hexigel 10ml 1-1-1 x 1 week"])
  ++ newline ++ spaces indent.

(** The two loops of [extract_text] over the recognition attempts, in
    order; an attempt is the text [pytesseract] returned, or [None] when
    it raised.  The state is [best_text] and [best_score]. *)
Fixpoint best_attempt (attempts : list (option string)) (best_text : string)
    (best_score : Q) : string :=
  match attempts with
  | [] => best_text
  | None :: tl => best_attempt tl best_text best_score
  | Some text :: tl =>
      let score := score_text_quality text in
      if negb (Qle_bool score best_score)
      then best_attempt tl text score
      else best_attempt tl best_text best_score
  end.

(** [extract_text(self, image_path)] as a function of what the image
    libraries answer: [None] when [preprocess_image] raises, else the
    outcomes of the recognition attempts. *)
Definition extract_text (recognised : option (list (option string)))
  : string :=
  match recognised with
  | None => sample_prescription 12
  | Some attempts =>
      let best_text := best_attempt attempts "" 0%Q in
      if negb (String.eqb best_text "") then
        let cleaned_text := clean_text best_text in
        if is_prescription_text cleaned_text then cleaned_text
        else sample_prescription 20
      else sample_prescription 16
  end.

(** A dictionary of the list [extract_medication_info] returns. *)
Record medication_info : Type := mkInfo {
  name : option string;
  dosage : string;
  frequency : option string;
  duration : string
}.

Definition info_patterns : list Re.regex := [
  Re.compile "(\w+)\s*(\d+)\s*(mg|ml|g|mcg)\s*(?:once|twice|thrice|daily|every|q\.?d\.?|b\.?i\.?d\.?|t\.?i\.?d\.?)";
  Re.compile "(\w+)\s*(\d+)\s*(mg|ml|g|mcg)\s*(?:tablet|capsule|pill|dose)";
  Re.compile "(\w+)\s*(\d+)\s*(mg|ml|g|mcg)"
].

(** The frequency the loop body reads: the first frequency word of the
    whole text, ["daily"] when there is none. *)
Definition frequency_info (text : string) : option string :=
  let frequency_match :=
    Re.search true
      (Re.compile "(once|twice|thrice|daily|every\s+\d+\s+hours?|q\.?d\.?|b\.?i\.?d\.?|t\.?i\.?d\.?)")
      text in
  match frequency_match with
  | Some x => Re.group text x 1
  | None => Some "daily"
  end.

(** The duration the loop body reads: the first duration phrase of the
    whole text, ["7 days"] when there is none. *)
Definition duration_info (text : string) : string :=
  let duration_match :=
    Re.search true (Re.compile "(\d+)\s*(days?|weeks?|months?)") text in
  match duration_match with
  | Some x => Re.group0 text x
  | None => "7 days"
  end.

(** [extract_medication_info(self, text)] *)
Definition extract_medication_info (text : string) : list medication_info :=
  flat_map
    (fun pattern =>
       map (fun x =>
              let medication_name := Re.group text x 1 in
              let dosage := Re.group text x 2 in
              let unit := Re.group text x 3 in
              mkInfo medication_name (fstr dosage ++ " " ++ fstr unit)
                (frequency_info text) (duration_info text))
         (Re.finditer true pattern text))
    info_patterns.

(** [validate_prescription(self, text)] *)
Definition validation_keywords : list string := [
  "prescription"; "medication"; "medicine"; "drug"; "tablet"; "capsule";
  "mg"; "ml"; "g"; "mcg"; "dosage"; "dose"; "frequency"; "duration"
].

Definition validate_prescription (text : string) : bool :=
  let text_lower := lower text in
  let keyword_count := keyword_count validation_keywords text_lower in
  (3 <=? keyword_count)%Z.

End PrescriptionOCR.

(* ================================================================== *)
(** ** ai_processor.py: class AIProcessor *)
(* ================================================================== *)

Module AIProcessor.

(** A medication dictionary.  The keys ['name'], ['dosage'], ['frequency']
    and ['duration'] are read with [med[...]]; ['instructions'] and
    ['confidence'] are read with [med.get], so they may be absent, and
    ['source'] is never read.  A confidence is a rational number, and the
    scores built from it are compared exactly. *)
Record med : Type := mkMed {
  name : string;
  dosage : string;
  frequency : string;
  duration : string;
  instructions : option string;
  confidence : option Q;
  source : option string
}.

(** [self.medication_database] *)
Definition medication_database : dict (list string) := dict_literal [
  ("aspirin", ["aspirin"; "acetylsalicylic acid"; "asa"]);
  ("ibuprofen", ["ibuprofen"; "advil"; "motrin"; "brufen"]);
  ("acetaminophen", ["acetaminophen"; "paracetamol"; "tylenol"]);
  ("amoxicillin", ["amoxicillin"; "amoxil"; "trimox"]);
  ("augmentin", ["augmentin"]);
  ("metformin", ["metformin"; "glucophage"]);
  ("lisinopril", ["lisinopril"; "prinivil"; "zestril"]);
  ("atorvastatin", ["atorvastatin"; "lipitor"]);
  ("omeprazole", ["omeprazole"; "prilosec"]);
  ("pand", ["pand"]);
  ("simvastatin", ["simvastatin"; "zocor"]);
  ("metoprolol", ["metoprolol"; "lopressor"; "toprol"]);
  ("losartan", ["losartan"; "cozaar"]);
  ("amlodipine", ["amlodipine"; "norvasc"]);
  ("hydrochlorothiazide", ["hydrochlorothiazide"; "hctz"; "microzide"]);
  ("pantoprazole", ["pantoprazole"; "protonix"]);
  ("carvedilol", ["carvedilol"; "coreg"]);
  ("furosemide", ["furosemide"; "lasix"]);
  ("spironolactone", ["spironolactone"; "aldactone"]);
  ("tramadol", ["tramadol"; "ultram"]);
  ("gabapentin", ["gabapentin"; "neurontin"]);
  ("duloxetine", ["duloxetine"; "cymbalta"]);
  ("enzoflam", ["enzoflam"]);
  ("hexigel", ["hexigel"]);
  ("calpol", ["calpol"; "syp calpol"]);
  ("delcon", ["delcon"; "syp delcon"]);
  ("levolin", ["levolin"; "syp levolin"]);
  ("meftol", ["meftol"; "meftol-p"; "syp meftol"; "syp meftol-p"]);
  ("abciximab", ["abciximab"; "tab abciximab"]);
  ("vomilast", ["vomilast"; "tab vomilast"]);
  ("zoclar", ["zoclar"; "cap zoclar"]);
  ("gestakind", ["gestakind"; "tab gestakind"])
].

(** [self.frequency_patterns]; the display repeats five of its keys. *)
Definition frequency_patterns : dict (list string) := dict_literal [
  ("once daily (morning)",
     ["once daily"; "once a day"; "qd"; "q.d."; "daily"; "every 24 hours";
      "1-0-0"; "1 0 0"]);
  ("twice daily (morning & night)",
     ["twice daily"; "twice a day"; "bid"; "b.i.d."; "every 12 hours";
      "1-0-1"; "1 0 1"]);
  ("three times daily (morning, afternoon & night)",
     ["three times daily"; "three times a day"; "tid"; "t.i.d.";
      "every 8 hours"; "1-1-1"; "1 1 1"]);
  ("twice daily (morning & afternoon)", ["1-1-0"; "1 1 0"]);
  ("twice daily (afternoon & night)", ["0-1-1"; "0 1 1"]);
  ("four times daily",
     ["four times daily"; "four times a day"; "qid"; "q.i.d.";
      "every 6 hours"]);
  ("every 6 hours", ["every 6 hours"; "q6h"; "q.6.h."]);
  ("every 8 hours", ["every 8 hours"; "q8h"; "q.8.h."]);
  ("every 12 hours", ["every 12 hours"; "q12h"; "q.12.h."]);
  ("as needed", ["as needed"; "prn"; "p.r.n."; "when required"; "sos"]);
  ("before meals", ["before meals"; "ac"; "a.c."; "ante cibum"]);
  ("after meals", ["after meals"; "pc"; "p.c."; "post cibum"; "after food"]);
  ("at bedtime", ["at bedtime"; "hs"; "h.s."; "hora somni"; "before sleep"]);
  ("every 6 hours", ["q6h"; "qid"; "every 6 hours"]);
  ("three times daily", ["tds"; "t.d.s."; "three times daily"]);
  ("once daily (morning)", ["1 morning"; "morning"]);
  ("once daily (night)", ["1 night"; "night"]);
  ("twice daily (morning & night)", ["1 morning, 1 night"; "morning and night"])
].

(** [self.duration_patterns] *)
Definition duration_patterns : dict Re.regex := dict_literal [
  ("days", Re.compile "(\d+)\s*(days?|d)");
  ("weeks", Re.compile "(\d+)\s*(weeks?|wks?|w)");
  ("months", Re.compile "(\d+)\s*(months?|mos?|m)");
  ("years", Re.compile "(\d+)\s*(years?|yrs?|y)")
].

(** [clean_text(self, text)] for a [str] argument. *)
Definition clean_text (text : string) : string :=
  let text := Re.sub false (Re.compile "\s+") " " (strip text) in
  let text :=
    Re.sub false (Re.compile "[^\w\s.,:;()\[\]{}/\-+=%]") " " text in
  text.

(** [clean_text] for any argument: [None] and numbers have no [strip],
    and [re.sub] refuses to apply a [str] pattern to [bytes]. *)
Definition clean_text_any (text : value) : result string :=
  match text with
  | PyStr s => Ok (clean_text s)
  | PyBytes _ => Raise TypeError
  | PyNone | PyInt _ => Raise AttributeError
  end.

(** [parse_timing_instructions(self, frequency_text)] *)
Definition timing_instructions : dict string := dict_literal [
  ("once daily (morning)", "Take 1 dose in the morning");
  ("once daily (afternoon)", "Take 1 dose in the afternoon");
  ("once daily (night)", "Take 1 dose at night");
  ("twice daily (morning & night)",
     "Take 1 dose in the morning and 1 dose at night");
  ("twice daily (morning & afternoon)",
     "Take 1 dose in the morning and 1 dose in the afternoon");
  ("twice daily (afternoon & night)",
     "Take 1 dose in the afternoon and 1 dose at night");
  ("three times daily (morning, afternoon & night)",
     "Take 1 dose in the morning, 1 dose in the afternoon, and 1 dose at night")
].

Definition parse_timing_instructions (frequency_text : string) : string :=
  match dict_get timing_instructions frequency_text with
  | Some s => s
  | None => frequency_text
  end.

(** The words [words[max(0, i-3) : min(len(words), i+4)]] around index [i]. *)
Definition context_words (words : list string) (i : nat) : list string :=
  let context_start := Nat.max 0 (i - 3) in
  let context_end := Nat.min (List.length words) (i + 4) in
  firstn (context_end - context_start) (skipn context_start words).

(** [text[max(0, med_pos - before) : min(len(text), med_pos + after)]] *)
Definition window (text : string) (med_pos before after : Z) : string :=
  let start_pos := Z.max 0 (med_pos - before) in
  let end_pos := Z.min (len text) (med_pos + after) in
  slice text start_pos end_pos.

Section Methods.

(** What looking up [self.fuzzy_match] gives: the method when the object
    has one, [None] when the attribute is missing. *)
Variable fuzzy_match : option (string -> string -> bool).

(** The loop [for i, word in enumerate(words)] of the two sub-extractors
    that fall back on [self.fuzzy_match]: the context of the first word
    that matches, [None] when the loop ends without one. *)
Fixpoint fuzzy_context (words rest_words : list string) (i : nat)
    (medication_name : string) : result (option string) :=
  match rest_words with
  | [] => Ok None
  | word :: tl =>
      match fuzzy_match with
      | None => Raise AttributeError
      | Some fm =>
          if fm (lower word) (lower medication_name)
          then Ok (Some (join " " (context_words words i)))
          else fuzzy_context words tl (S i) medication_name
      end
  end.

Definition dosage_patterns : list Re.regex := [
  Re.compile "(\d+(?:\.\d+)?)\s*(mg|ml|g|mcg|units?)\b";
  Re.compile "(\d+(?:\.\d+)?)\s*(mg|ml|g|mcg|units?)\s*(tablet|capsule|pill|dose)\b";
  Re.compile "\b(625|500|250|125|40|20|10|5)\s*(mg|ml)\b";
  Re.compile "\b(\d{2,4})\s*(?:mg|ml)\b";
  Re.compile "\b(\d{2,4})\s*(?:mg|ml|m|g)\b"
].

Definition common_dosages : list Z :=
  [625; 500; 250; 125; 100; 75; 50; 40; 25; 20; 10; 5]%Z.

Fixpoint first_dosage (pats : list Re.regex) (search_text : string)
  : result (option string) :=
  match pats with
  | [] => Ok None
  | pattern :: tl =>
      match Re.findall true pattern search_text with
      | [] => first_dosage tl search_text
      | Re.FTuple (dosage_num :: unit :: _) :: _ =>
          Ok (Some (dosage_num ++ " " ++ unit))
      | Re.FStr s :: _ => Ok (Some (s ++ " mg"))
      | Re.FTuple [x] :: _ => Ok (Some (x ++ " mg"))
      | Re.FTuple [] :: _ => Raise IndexError
      end
  end.

Fixpoint first_common_number (numbers : list Re.found) : option string :=
  match numbers with
  | [] => None
  | Re.FStr num :: tl =>
      if existsb (Z.eqb (int_of_digits num)) common_dosages
      then Some (num ++ " mg")
      else first_common_number tl
  | Re.FTuple _ :: tl => first_common_number tl
  end.

(** [extract_dosage_near_medication(self, text, medication_name)] *)
Definition extract_dosage_near_medication (text medication_name : string)
  : result string :=
  let med_pos := find (lower text) (lower medication_name) in
  located <-
    (if (med_pos =? -1)%Z
     then fuzzy_context (split text) (split text) 0 medication_name
     else Ok (Some (window text med_pos 50 150))) ;;
  match located with
  | None => Ok "Unknown dosage"
  | Some search_text =>
      found_dosage <- first_dosage dosage_patterns search_text ;;
      match found_dosage with
      | Some d => Ok d
      | None =>
          let numbers :=
            Re.findall false (Re.compile "\b(\d{2,4})\b") search_text in
          match first_common_number numbers with
          | Some d => Ok d
          | None => Ok "Unknown dosage"
          end
      end
  end.

Definition timing_patterns : list (Re.regex * string) := [
  (Re.compile "1-0-1|1 0 1", "twice daily (morning & night)");
  (Re.compile "1-1-1|1 1 1", "three times daily (morning, afternoon & night)");
  (Re.compile "1-0-0|1 0 0", "once daily (morning)");
  (Re.compile "0-0-1|0 0 1", "once daily (night)");
  (Re.compile "1-1-0|1 1 0", "twice daily (morning & afternoon)");
  (Re.compile "0-1-1|0 1 1", "twice daily (afternoon & night)");
  (Re.compile "2-0-2|2 0 2", "twice daily (2 morning & 2 night)");
  (Re.compile "1-2-1|1 2 1", "four times daily (1 morning, 2 afternoon, 1 night)")
].

Fixpoint first_timing (l : list (Re.regex * string)) (search_text : string)
  : option string :=
  match l with
  | [] => None
  | (pattern, description) :: tl =>
      match Re.search false pattern search_text with
      | Some _ => Some description
      | None => first_timing tl search_text
      end
  end.

Fixpoint first_frequency (d : dict (list string)) (search_text : string)
  : option string :=
  match d with
  | [] => None
  | (frequency, patterns) :: tl =>
      if existsb (fun pattern => contains pattern search_text) patterns
      then Some frequency
      else first_frequency tl search_text
  end.

(** The last resort of the frequency extractor: any triple [X-Y-Z]. *)
Definition generic_timing (search_text : string) : option string :=
  let pattern := Re.compile "(\d)-(\d)-(\d)" in
  match Re.search false pattern search_text with
  | None => None
  | Some timing_match =>
      let g n := Re.or_empty (Re.group search_text timing_match n) in
      let morning := g 1 in
      let afternoon := g 2 in
      let night := g 3 in
      let total_doses :=
        (int_of_digits morning + int_of_digits afternoon
         + int_of_digits night)%Z in
      Some
        (if (total_doses =? 1)%Z then
           if String.eqb morning "1" then "once daily (morning)"
           else if String.eqb afternoon "1" then "once daily (afternoon)"
           else "once daily (night)"
         else if (total_doses =? 2)%Z then
           if String.eqb morning "1" && String.eqb night "1"
           then "twice daily (morning & night)"
           else if String.eqb morning "1" && String.eqb afternoon "1"
           then "twice daily (morning & afternoon)"
           else "twice daily (afternoon & night)"
         else if (total_doses =? 3)%Z
         then "three times daily (morning, afternoon & night)"
         else str_of_nat (Z.to_nat total_doses) ++ " times daily")
  end.

(** [extract_frequency_near_medication(self, text, medication_name)] *)
Definition extract_frequency_near_medication (text medication_name : string)
  : result string :=
  let text_lower := lower text in
  let med_pos := find text_lower (lower medication_name) in
  located <-
    (if (med_pos =? -1)%Z
     then
       ctx <- fuzzy_context (split text) (split text) 0 medication_name ;;
       Ok (option_map lower ctx)
     else
       let start_pos := Z.max 0 (med_pos - 100) in
       let end_pos := Z.min (len text) (med_pos + 200) in
       Ok (Some (slice text_lower start_pos end_pos))) ;;
  match located with
  | None => Ok "daily"
  | Some search_text =>
      match first_timing timing_patterns search_text with
      | Some description => Ok description
      | None =>
          match first_frequency frequency_patterns search_text with
          | Some frequency => Ok frequency
          | None =>
              match generic_timing search_text with
              | Some description => Ok description
              | None => Ok "daily"
              end
          end
      end
  end.

Fixpoint first_duration (d : dict Re.regex) (search_text : string)
  : option string :=
  match d with
  | [] => None
  | (duration_type, pattern) :: tl =>
      match Re.search false pattern search_text with
      | Some x =>
          Some (fstr (Re.group search_text x 1) ++ " " ++ duration_type)
      | None => first_duration tl search_text
      end
  end.

(** [extract_duration_near_medication(self, text, medication_name)] *)
Definition extract_duration_near_medication (text medication_name : string)
  : string :=
  let text_lower := lower text in
  let med_pos := find text_lower (lower medication_name) in
  if (med_pos =? -1)%Z then "7 days"
  else
    let start_pos := Z.max 0 (med_pos - 100) in
    let end_pos := Z.min (len text) (med_pos + 200) in
    let search_text := slice text_lower start_pos end_pos in
    match first_duration duration_patterns search_text with
    | Some d => d
    | None => "7 days"
    end.

(** [rule_based_extraction(self, text)]: the inner loop over the
    variations of one medication; [Some] when the loop ends with [break]. *)
Fixpoint try_variations (text text_lower med_name : string)
    (found_medications variations : list string) : result (option med) :=
  match variations with
  | [] => Ok None
  | variation :: tl =>
      if contains variation text_lower && negb (mem med_name found_medications)
      then
        dosage_info <- extract_dosage_near_medication text variation ;;
        frequency_info <- extract_frequency_near_medication text variation ;;
        let duration_info := extract_duration_near_medication text variation in
        let timing := parse_timing_instructions frequency_info in
        Ok (Some (mkMed (title med_name) dosage_info frequency_info
                    duration_info (Some timing) (Some (8 # 10)%Q)
                    (Some "rule_based")))
      else try_variations text text_lower med_name found_medications tl
  end.

Fixpoint rule_based_loop (text text_lower : string)
    (db : dict (list string)) (medications : list med)
    (found_medications : list string) : result (list med) :=
  match db with
  | [] => Ok medications
  | (med_name, variations) :: tl =>
      hit <- try_variations text text_lower med_name found_medications
               variations ;;
      match hit with
      | Some m =>
          rule_based_loop text text_lower tl (medications ++ [m])%list
            (med_name :: found_medications)
      | None => rule_based_loop text text_lower tl medications found_medications
      end
  end.

Definition rule_based_extraction (text : string) : result (list med) :=
  rule_based_loop text (lower text) medication_database [] [].

(** The list [patterns] of [pattern_based_extraction]. *)
Definition patterns : list Re.regex := [
  Re.compile "(\b[A-Z][a-z]+(?:[-\s][A-Z][a-z]+)*)\s*(\d+(?:\.\d+)?)\s*(mg|ml|g|mcg|units?)\b";
  Re.compile "(\b[A-Z][a-z]+(?:[-\s][A-Z][a-z]+)*)\s*(\d+(?:\.\d+)?)\s*(mg|ml|g|mcg|units?)\s*(tablet|capsule|pill|dose|tab|caps)\b";
  Re.compile "(\b[A-Z][a-z]+(?:[-\s][A-Z][a-z]+)*)\s*(\d+(?:\.\d+)?)\s*(mg|ml|g|mcg|units?)\s*(once|twice|thrice|daily|bid|tid|qid)\b";
  Re.compile "(Tab\.|Caps\.|Syr\.|Inj\.|Tablet|Capsule|Syrup|Injection)\s*(\b[A-Z][a-z]+(?:[-\s][A-Z][a-z]+)*)\s*(\d+(?:\.\d+)?)\s*(mg|ml|g|mcg|units?)\b";
  Re.compile "(\b[A-Z][a-z]+(?:[-\s][A-Z][a-z]+)*)\s*(\d+(?:\.\d+)?)\s*(mg|ml|g|mcg|units?)\s*(1-0-1|1-0-0|1-1-1|0-0-1|1-1-0)\b";
  Re.compile "(\d+(?:\.\d+)?)\s*(mg|ml|g|mcg|units?)\s*(\b[A-Z][a-z]+(?:[-\s][A-Z][a-z]+)*)\b";
  Re.compile "(\b[A-Z][a-z]+(?:[-\s][A-Z][a-z]+)*)\s*(?:strength|dose|dosage)?\s*(\d+(?:\.\d+)?)\s*(mg|ml|g|mcg|units?)\b";
  Re.compile "(aspirin|ibuprofen|acetaminophen|paracetamol|amoxicillin|metformin|lisinopril|atorvastatin|omeprazole)\s*(\d+(?:\.\d+)?)\s*(mg|ml|g|mcg|units?)\b";
  Re.compile "Tab\.\s*(\b[A-Z][a-z]+(?:[-\s][A-Z][a-z]+)*)\s*(\d+(?:\.\d+)?)\s*(mg|ml|g|mcg|units?)\b";
  Re.compile "Tab\.\s*(\b[A-Z][a-z]+(?:[-\s][A-Z][a-z]+)*)\b"
].

(** [groups[i]] *)
Definition item (groups : list (option string)) (i : nat)
  : result (option string) :=
  match nth_error groups i with
  | Some g => Ok g
  | None => Raise IndexError
  end.

(** The first part of the loop body: the name (a string or [None]) and
    the dosage read off the groups of one match. *)
Definition name_and_dosage (text : string) (x : Re.mtch)
    (groups : list (option string)) : result (option string * string) :=
  if (4 <=? List.length groups)%nat then
    med_name <- item groups 1 ;;
    dosage_num <- item groups 2 ;;
    unit <- item groups 3 ;;
    Ok (med_name, fstr dosage_num ++ " " ++ fstr unit)
  else if (3 <=? List.length groups)%nat then
    med_name <- item groups 0 ;;
    dosage_num <- item groups 1 ;;
    unit <- item groups 2 ;;
    Ok (med_name, fstr dosage_num ++ " " ++ fstr unit)
  else if (List.length groups =? 2)%nat then
    g0 <- item groups 0 ;;
    match g0 with
    | None => Raise AttributeError
    | Some g0 =>
        if isdigit g0 || contains "." g0 then
          unit <- item groups 1 ;;
          let remaining_text :=
            slice text (Z.of_nat (Re.m_end x)) (Z.of_nat (Re.m_end x) + 50) in
          let med_match :=
            Re.search false
              (Re.compile "(\b[A-Z][a-z]+(?:[-\s][A-Z][a-z]+)*)\b")
              remaining_text in
          let med_name :=
            match med_match with
            | Some mm => Re.group remaining_text mm 1
            | None => Some "Unknown Medication"
            end in
          Ok (med_name, g0 ++ " " ++ fstr unit)
        else Ok (Some g0, "1 tablet")
    end
  else
    med_name <- item groups 0 ;;
    Ok (med_name, "1 tablet").

(** The body of the loop over the matches; the state is the list
    [medications] and the set [found_medications]. *)
Definition handle_match (text : string) (pattern : Re.regex) (x : Re.mtch)
    (state : list med * list string) : result (list med * list string) :=
  let '(medications, found_medications) := state in
  nd <- name_and_dosage text x (Re.groups pattern text x) ;;
  match fst nd with
  | None => Ok state
  | Some med_name =>
      if String.eqb med_name "" || (len (strip med_name) <? 3)%Z
         || isdigit (strip med_name)
      then Ok state
      else
        let med_name_clean := lower (strip med_name) in
        if mem med_name_clean found_medications then Ok state
        else
          frequency_info <- extract_frequency_near_medication text med_name ;;
          let duration_info := extract_duration_near_medication text med_name in
          let timing := parse_timing_instructions frequency_info in
          Ok ((medications ++
                 [mkMed (title med_name) (snd nd) frequency_info duration_info
                    (Some timing) (Some (7 # 10)%Q) (Some "pattern_based")])%list,
              med_name_clean :: found_medications)
  end.

Fixpoint matches_loop (text : string) (pattern : Re.regex)
    (matches : list Re.mtch) (state : list med * list string)
  : result (list med * list string) :=
  match matches with
  | [] => Ok state
  | x :: tl =>
      state' <- handle_match text pattern x state ;;
      matches_loop text pattern tl state'
  end.

Fixpoint patterns_loop (text : string) (pats : list Re.regex)
    (state : list med * list string) : result (list med * list string) :=
  match pats with
  | [] => Ok state
  | pattern :: tl =>
      state' <- matches_loop text pattern (Re.finditer true pattern text)
                  state ;;
      patterns_loop text tl state'
  end.

(** [pattern_based_extraction(self, text)] *)
Definition pattern_based_extraction (text : string) : result (list med) :=
  state <- patterns_loop text patterns ([], []) ;;
  Ok (fst state).

(** [is_better_dosage(self, new_dosage, existing_dosage)] *)
Definition is_better_dosage (new_dosage existing_dosage : string) : bool :=
  if contains "Unknown" existing_dosage && negb (contains "Unknown" new_dosage)
  then true
  else if contains "mg" new_dosage && contains "tablet" existing_dosage
  then true
  else if contains "ml" new_dosage && contains "tablet" existing_dosage
  then true
  else false.

(** [is_better_frequency(self, new_freq, existing_freq)] *)
Definition is_better_frequency (new_freq existing_freq : string) : bool :=
  if contains "daily" existing_freq &&
     (contains "1-0-1" new_freq || contains "twice" new_freq
      || contains "three" new_freq)
  then true
  else if (len existing_freq <? len new_freq)%Z
          && negb (contains "daily" new_freq)
  then true
  else false.

(** [is_better_duration(self, new_duration, existing_duration)] *)
Definition is_better_duration (new_duration existing_duration : string)
  : bool :=
  if contains "7 days" existing_duration
     && negb (contains "7 days" new_duration)
  then true
  else if contains "5 days" new_duration
          && contains "7 days" existing_duration
  then true
  else false.

(** The test that makes [merge_medications] skip a candidate. *)
Definition invalid_name (med_name : string) : bool :=
  String.eqb med_name "" || (len med_name <? 2)%Z || isdigit med_name
  || mem (lower med_name)
       ["mg"; "ml"; "tablet"; "cap"; "tab"; "unknown medication"].

(** The loop over [groups.keys()] that looks for the group of a name. *)
Fixpoint find_group_key (keys : list string) (med_name_lower : string)
  : option string :=
  match keys with
  | [] => None
  | existing_key :: tl =>
      if String.eqb existing_key med_name_lower
         || contains existing_key med_name_lower
         || contains med_name_lower existing_key
      then Some existing_key
      else find_group_key tl med_name_lower
  end.

(** [groups[group_key].append(med)] *)
Fixpoint group_append (groups : dict (list med)) (group_key : string)
    (m : med) : dict (list med) :=
  match groups with
  | [] => []
  | (k, l) :: tl =>
      if String.eqb k group_key then (k, (l ++ [m])%list) :: tl
      else (k, l) :: group_append tl group_key m
  end.

(** One turn of the grouping loop of [merge_medications]. *)
Definition group_step (groups : dict (list med)) (m : med)
  : dict (list med) :=
  let med_name := strip (name m) in
  if invalid_name med_name then groups
  else
    let med_name_lower := lower med_name in
    match find_group_key (map fst groups) med_name_lower with
    | Some group_key => group_append groups group_key m
    | None => group_append (dict_set groups med_name_lower []) med_name_lower m
    end.

Definition dosage_score (d : string) : Z :=
  if contains "mg" d || contains "ml" d then 3
  else if contains "tablet" d then 1
  else if negb (contains "Unknown" d) then 2
  else 0.

Definition frequency_score (f : string) : Z :=
  if contains "1-0-1" f || contains "twice" f then 2
  else if negb (contains "daily" f) then 1
  else 0.

Definition duration_score (d : string) : Z :=
  if contains "5 days" d || contains "1 week" d then 2
  else if negb (contains "7 days" d) && sexists is_digit d then 1
  else 0.

(** [med.get('confidence', 0)] *)
Definition confidence_of (m : med) : Q :=
  match confidence m with Some c => c | None => 0%Q end.

(** The score the reduction loop gives to a member of a group. *)
Definition score (m : med) : Q :=
  (inject_Z (dosage_score (dosage m) + frequency_score (frequency m)
             + duration_score (duration m)) + confidence_of m)%Q.

(** [a > b] on scores *)
Definition gtb (a b : Q) : bool := negb (Qle_bool a b).

(** The loop that selects [best_med]; [best_med] starts as [None] and
    [best_score] as [-1]. *)
Fixpoint pick_best (group_meds : list med) (best_med : option med)
    (best_score : Q) : option med :=
  match group_meds with
  | [] => best_med
  | m :: tl =>
      if gtb (score m) best_score
      then pick_best tl (Some m) (score m)
      else pick_best tl best_med best_score
  end.

Definition opt_eqb {A : Type} (eqb : A -> A -> bool) (a b : option A) : bool :=
  match a, b with
  | Some x, Some y => eqb x y
  | None, None => true
  | _, _ => false
  end.

(** [med == best_med] on two dictionaries *)
Definition med_eqb (a b : med) : bool :=
  String.eqb (name a) (name b) && String.eqb (dosage a) (dosage b)
  && String.eqb (frequency a) (frequency b)
  && String.eqb (duration a) (duration b)
  && opt_eqb String.eqb (instructions a) (instructions b)
  && opt_eqb Qeq_bool (confidence a) (confidence b)
  && opt_eqb String.eqb (source a) (source b).

(** The truth value of [med.get('instructions')]. *)
Definition truthy (o : option string) : bool :=
  match o with
  | Some s => negb (String.eqb s "")
  | None => false
  end.

(** One turn of the loop that improves [best_med] from the other members. *)
Definition backfill (best_med m : med) : med :=
  if med_eqb m best_med then best_med
  else
    let b1 :=
      if is_better_dosage (dosage m) (dosage best_med)
      then mkMed (name best_med) (dosage m) (frequency best_med)
             (duration best_med) (instructions best_med)
             (confidence best_med) (source best_med)
      else best_med in
    let b2 :=
      if is_better_frequency (frequency m) (frequency b1)
      then mkMed (name b1) (dosage b1) (frequency m) (duration b1)
             (instructions b1) (confidence b1) (source b1)
      else b1 in
    let b3 :=
      if is_better_duration (duration m) (duration b2)
      then mkMed (name b2) (dosage b2) (frequency b2) (duration m)
             (instructions b2) (confidence b2) (source b2)
      else b2 in
    if truthy (instructions m) && negb (truthy (instructions b3))
    then mkMed (name b3) (dosage b3) (frequency b3) (duration b3)
           (instructions m) (confidence b3) (source b3)
    else b3.

(** The reduction of one non-empty group.  When no member scores above
    [-1], [best_med] is still [None] and subscripting it raises. *)
Definition reduce_group (group_meds : list med) : result med :=
  match pick_best group_meds None (-1)%Q with
  | Some best_med => Ok (fold_left backfill group_meds best_med)
  | None => Raise TypeError
  end.

Fixpoint merge_groups (values : list (list med)) (merged : list med)
  : result (list med) :=
  match values with
  | [] => Ok merged
  | [] :: tl => merge_groups tl merged
  | group_meds :: tl =>
      best_med <- reduce_group group_meds ;;
      merge_groups tl (merged ++ [best_med])%list
  end.

(** [merge_medications(self, medications)] *)
Definition merge_medications (medications : list med) : result (list med) :=
  let groups := fold_left group_step medications [] in
  merge_groups (map snd groups) [].

(** [extract_medications(self, ocr_text)] for a [str] argument. *)
Definition extract_medications (ocr_text : string) : result (list med) :=
  let cleaned_text := clean_text ocr_text in
  rule_based_meds <- rule_based_extraction cleaned_text ;;
  pattern_meds <- pattern_based_extraction cleaned_text ;;
  let extracted_meds := (rule_based_meds ++ pattern_meds)%list in
  merge_medications extracted_meds.

(** [extract_medications] for any argument. *)
Definition extract_medications_any (ocr_text : value) : result (list med) :=
  cleaned_text <- clean_text_any ocr_text ;;
  rule_based_meds <- rule_based_extraction cleaned_text ;;
  pattern_meds <- pattern_based_extraction cleaned_text ;;
  let extracted_meds := (rule_based_meds ++ pattern_meds)%list in
  merge_medications extracted_meds.

End Methods.

(** The class defines no method [fuzzy_match]: looking the attribute up
    on an instance fails. *)
Definition self_fuzzy_match : option (string -> string -> bool) := None.

End AIProcessor.

(* ================================================================== *)
(** ** Notions used in the statements *)
(* ================================================================== *)

Module Notions.

Import AIProcessor.

(** *** Tactics *)

(** Decides the conditionals of a chain of [if]s from the top, leaving
    one goal per branch. *)
Ltac split_ifs :=
  repeat match goal with
         | |- context [if ?c then _ else _] => destruct c eqn:?
         end.

(** Settles a fact about one character by looking at all of them. *)
Ltac by_cases_on_char c :=
  destruct c as [[] [] [] [] [] [] [] []]; vm_compute; try reflexivity;
  try discriminate; auto.

(** *** Schedules *)

(** The lists of clock times [parse_frequency] can return. *)
Definition schedules : list (list string) :=
  [ ["08:00"; "20:00"]; ["08:00"; "14:00"]; ["08:00"]; ["20:00"];
    ["08:00"; "14:00"; "20:00"]; ["06:00"; "12:00"; "18:00"; "00:00"];
    ["08:00"; "16:00"; "00:00"]; ["14:00"; "20:00"]; ["09:00"]; [] ].

(** *** Text *)

(** The pattern that stands for one [compile] could not read. *)
Definition is_never (r : Re.regex) : bool :=
  match r with
  | Re.CSet false [] => true
  | _ => false
  end.

(** The spans and groups of the matches of a pattern. *)
Definition spans (ic : bool) (r : Re.regex) (text : string)
  : list (nat * nat * list (option string)) :=
  map (fun x => (Re.m_start x, Re.m_end x, Re.groups r text x))
    (Re.finditer ic r text).

(** The number of white-space characters a text begins with. *)
Fixpoint lead_spaces (s : string) : nat :=
  match s with
  | String c s' => if is_space c then S (lead_spaces s') else 0
  | EmptyString => 0
  end.

(** Every run of white space becomes one space; [in_run] tells that the
    previous character was white space. *)
Fixpoint collapse_spaces (in_run : bool) (s : string) : string :=
  match s with
  | EmptyString => EmptyString
  | String c s' =>
      if is_space c
      then if in_run then collapse_spaces true s'
           else String " " (collapse_spaces true s')
      else String c (collapse_spaces false s')
  end.

(** Two letters stand side by side in the text; [prev] tells that the
    character before the text is a letter. *)
Fixpoint letter_pair (prev : bool) (s : string) : bool :=
  match s with
  | EmptyString => false
  | String c s' => (prev && is_alpha c) || letter_pair (is_alpha c) s'
  end.

(** The text begins with a letter. *)
Definition starts_alpha (w : string) : bool :=
  match w with
  | String c _ => is_alpha c
  | EmptyString => false
  end.

(** The text ends with a letter. *)
Fixpoint ends_alpha (w : string) : bool :=
  match w with
  | EmptyString => false
  | String c EmptyString => is_alpha c
  | String _ w' => ends_alpha w'
  end.

(** A pattern that consumes no character. *)
Fixpoint zero_width (r : Re.regex) : bool :=
  match r with
  | Re.Eps | Re.Bound => true
  | Re.Seq r1 r2 | Re.Alt r1 r2 => zero_width r1 && zero_width r2
  | Re.Group _ r' => zero_width r'
  | _ => false
  end.

(** A range of a bracket class that holds letters only. *)
Definition letters_item (it : Re.citem) : bool :=
  match it with
  | Re.CRange lo hi =>
      (is_upper lo && is_upper hi) || (is_lower lo && is_lower hi)
  | _ => false
  end.

(** A pattern every match of which begins with a letter. *)
Fixpoint first_letter (r : Re.regex) : bool :=
  match r with
  | Re.Lit c => is_alpha c
  | Re.CSet false items => forallb letters_item items
  | Re.Seq r1 r2 => first_letter r1 || (zero_width r1 && first_letter r2)
  | Re.Alt r1 r2 => first_letter r1 && first_letter r2
  | Re.Group _ r' => first_letter r'
  | _ => false
  end.

(** A pattern every match of which ends with a letter. *)
Fixpoint last_letter (r : Re.regex) : bool :=
  match r with
  | Re.Lit c => is_alpha c
  | Re.CSet false items => forallb letters_item items
  | Re.Seq r1 r2 => last_letter r2 || (zero_width r2 && last_letter r1)
  | Re.Alt r1 r2 => last_letter r1 && last_letter r2
  | Re.Group _ r' => last_letter r'
  | _ => false
  end.

(** A pattern every match of which has two letters side by side. *)
Fixpoint must_pair (r : Re.regex) : bool :=
  match r with
  | Re.Seq r1 r2 =>
      must_pair r1 || must_pair r2 || (last_letter r1 && first_letter r2)
  | Re.Alt r1 r2 => must_pair r1 && must_pair r2
  | Re.Group _ r' => must_pair r'
  | _ => false
  end.

(** What a match consumes. *)
Definition consumed (r : Re.regex) (w : string) : Prop :=
  (zero_width r = true -> w = "") /\
  (first_letter r = true -> starts_alpha w = true) /\
  (last_letter r = true -> ends_alpha w = true) /\
  (must_pair r = true -> letter_pair false w = true).

(** The class [\s]. *)
Definition space_class : Re.regex := Re.CSet false [Re.CSpace].

(** The characters the second substitution of [clean_text] keeps. *)
Definition kept (c : ascii) : bool :=
  is_word c || is_space c
  || existsb (Ascii.eqb c)
       (list_ascii_of_string ".,:;()[]{}/-+=%").

(** Every character that is not kept becomes a space. *)
Definition blank_symbols (s : string) : string :=
  smap (fun c => if kept c then c else " "%char) s.

(** *** Candidates and records *)

(** The four text fields of a candidate are ASCII. *)
Definition ascii_candidate (m : med) : bool :=
  ascii_text (name m) && ascii_text (dosage m) && ascii_text (frequency m)
  && ascii_text (duration m).

(** The name test of the merger, on the name as the record stores it. *)
Definition acceptable_name (n : string) : bool :=
  negb (String.eqb n "") && (2 <=? String.length n)%nat && negb (isdigit n)
  && negb (mem (lower n)
             ["mg"; "ml"; "tablet"; "cap"; "tab"; "unknown medication"]).

(** The key under which the merger files a record. *)
Definition key (m : med) : string := lower (strip (name m)).

(** The test that puts a name into an existing group. *)
Definition related (k1 k2 : string) : bool :=
  String.eqb k1 k2 || contains k1 k2 || contains k2 k1.

(** No key is related to a later one. *)
Fixpoint pairwise_unrelated (keys : list string) : bool :=
  match keys with
  | [] => true
  | k :: tl =>
      forallb (fun k' => negb (related k k')) tl && pairwise_unrelated tl
  end.

(** The members of all groups, in order. *)
Definition members (groups : dict (list med)) : list med :=
  List.concat (map snd groups).

(** A record [r] kept for a group stems from the candidate [m]. *)
Definition stems_from (L : list med) (r : med) : Prop :=
  exists m, In m L /\ invalid_name (strip (name m)) = false /\
            name r = name m /\ confidence r = confidence m.

(** The confidence of a candidate of the data model is not negative. *)
Definition nonneg_confidence (m : med) : Prop := (0 <= confidence_of m)%Q.

(** The name of a candidate is the title-cased form of a piece of the
    text. *)
Definition named_from (text : string) (c : med) : Prop :=
  exists g, contains g text = true /\ name c = title g.

(** Patterns whose matches the loop body reads without raising: the
    number of groups is neither zero nor two. *)
Definition readable (r : Re.regex) : bool :=
  negb (Re.ngroups r =? 0)%nat && negb (Re.ngroups r =? 2)%nat.

(** *** Sample data *)

(** The prescription line of the worked example, and the record the two
    extractors read from it. *)
Definition augmentin_text : string := "Tab. Augmentin 625mg 1-0-1 x 5 days".

Definition augmentin_record (confidence : Q) (source : string) : med :=
  mkMed "Augmentin" "625 mg" "twice daily (morning & night)" "5 days"
    (Some "Take 1 dose in the morning and 1 dose at night")
    (Some confidence) (Some source).

(** Three candidates whose names overlap, and one named after a unit. *)
Definition amox : med :=
  mkMed "Amox" "Unknown dosage" "daily" "7 days" (Some "daily")
    (Some (7 # 10)%Q) (Some "pattern_based").

Definition amoxicillin : med :=
  mkMed "Amoxicillin" "500 mg" "three times daily (morning, afternoon & night)"
    "5 days"
    (Some "Take 1 dose in the morning, 1 dose in the afternoon, and 1 dose at night")
    (Some (7 # 10)%Q) (Some "pattern_based").

Definition cillin : med :=
  mkMed "Cillin" "250 mg" "daily" "7 days" (Some "daily")
    (Some (7 # 10)%Q) (Some "pattern_based").

Definition unit_token : med :=
  mkMed "Mg" "1 tablet" "daily" "7 days" (Some "daily") (Some (7 # 10)%Q)
    (Some "pattern_based").


(** *** Reminders *)

(** The minute of the day of a [datetime] or a [time]. *)
Definition minute_of_day (d : Z) : Z :=
  (MedicationReminder.time_of d / MedicationReminder.microseconds_per_minute)%Z.

(** The times of the checks of a loop do not go backwards. *)
Fixpoint nondecreasing (times : list Z) : bool :=
  match times with
  | a :: (b :: _) as tl => (a <=? b)%Z && nondecreasing tl
  | _ => true
  end.

(** The course of one row through a checking loop.  A check is the pair
    of the time at which the loop reads the clock and the time written to
    the row when the alert goes out: when [due] holds at the first, the
    row is marked with the second.  With [alert_is_sent] this is the loop
    of [_check_and_send_reminders] for a row whose user and medication
    are active, where [_send_reminder_alert] reads the clock anew; with
    [reminder_is_announced linked] it is the loop
    [background_reminder_check] of the application, which writes the time
    of the check.  The result lists the times of the checks at which an
    alert went out. *)
Fixpoint alerts_sent
    (due : MedicationReminder.reminder -> Z -> bool)
    (r : MedicationReminder.reminder) (checks : list (Z * Z)) : list Z :=
  match checks with
  | [] => []
  | (now, written) :: tl =>
      if due r now
      then now :: alerts_sent due (MedicationReminder.mark_sent r written) tl
      else alerts_sent due r tl
  end.

(** The clock readings of a course in their order: the mark the row
    has at the start, then for each check the time read and the time
    written. *)
Definition timeline (r : MedicationReminder.reminder)
    (checks : list (Z * Z)) : list Z :=
  (match MedicationReminder.last_taken r with
   | Some taken => [taken]
   | None => []
   end ++ flat_map (fun c => [fst c; snd c]) checks)%list.

(** Checks that write the time they read. *)
Definition same_clock (times : list Z) : list (Z * Z) :=
  map (fun c => (c, c)) times.

(** The numbers from 0 to 99. *)
Definition below_100 : list Z := map Z.of_nat (seq 0 100).

(** A reminder for 08:00 that was never marked, and three checks: ten
    seconds before 08:00, twenty seconds after, and at 08:00 the next
    day; the row is written a moment after the clock was read. *)
Definition morning_row : MedicationReminder.reminder :=
  MedicationReminder.mkReminder true 28800000000%Z None.

Definition morning_checks : list (Z * Z) :=
  [(28790000000, 28790000403); (28820000000, 28820000377);
   (115200000000, 115200000391)]%Z.

(** *** Scans *)

(** What the image libraries answer is of no use: reading the image
    failed, or every recognition attempt failed or gave fewer than ten
    characters between its leading and trailing white space. *)
Definition unusable (recognised : option (list (option string))) : bool :=
  match recognised with
  | None => true
  | Some attempts =>
      forallb (fun a => match a with
                        | None => true
                        | Some text => (len (strip text) <? 10)%Z
                        end) attempts
  end.

(** The records the pipeline reads from the sample prescription. *)
Definition sample_record (name dosage duration : string) : med :=
  mkMed name dosage "twice daily (morning & night)" duration
    (Some "Take 1 dose in the morning and 1 dose at night")
    (Some (8 # 10)%Q) (Some "rule_based").

Definition sample_records : list med :=
  [sample_record "Augmentin" "625 mg" "5 days";
   sample_record "Omeprazole" "40 mg" "5 days";
   sample_record "Pand" "500 mg" "5 days";
   sample_record "Enzoflam" "625 mg" "5 days";
   sample_record "Hexigel" "20 mg" "3 days"].

(** A pattern every match of which has a digit. *)
Fixpoint must_digit (r : Re.regex) : bool :=
  match r with
  | Re.CSet false [Re.CDigit] => true
  | Re.Seq r1 r2 => must_digit r1 || must_digit r2
  | Re.Alt r1 r2 => must_digit r1 && must_digit r2
  | Re.Group _ r' => must_digit r'
  | _ => false
  end.

(** *** Where the fields of a record come from *)

(** The medications of the lexicon one of whose variations occurs in the
    lower-cased text, in the order of the lexicon. *)
Definition lexicon_hits (text : string) : list string :=
  map fst
    (filter (fun e => existsb (fun v => contains v (lower text)) (snd e))
       medication_database).


(** Every field of the record [r] is the field of a candidate for which
    [S] holds; name, confidence and source are those of one candidate. *)
Definition fields_of (S : med -> Prop) (r : med) : Prop :=
  (exists m, S m /\ name r = name m /\ confidence r = confidence m
             /\ source r = source m) /\
  (exists m, S m /\ dosage r = dosage m) /\
  (exists m, S m /\ frequency r = frequency m) /\
  (exists m, S m /\ duration r = duration m) /\
  (exists m, S m /\ instructions r = instructions m).





(** *** Characters that stand alone *)

(** The text begins with a word character. *)
Definition starts_word (s : string) : bool :=
  match s with
  | String c _ => is_word c
  | EmptyString => false
  end.

(** The character [a] stands alone somewhere in the text: the characters
    next to it, if any, are not word characters.  [prev] tells that the
    character before the text is a word character. *)
Fixpoint lone (a : ascii) (prev : bool) (s : string) : bool :=
  match s with
  | EmptyString => false
  | String c s' =>
      (Ascii.eqb c a && negb prev && negb (starts_word s'))
      || lone a (is_word c) s'
  end.

(** Every [a] that stands alone becomes [b]. *)
Fixpoint replace_lone (a b : ascii) (prev : bool) (s : string) : string :=
  match s with
  | EmptyString => EmptyString
  | String c s' =>
      String (if Ascii.eqb c a && negb prev && negb (starts_word s')
              then b else c)
        (replace_lone a b (is_word c) s')
  end.



(** The dose triples with a zero in the middle, as the frequency
    extractor and the scheduler look for them. *)
Definition middle_zero_triples : list string :=
  ["1-0-1"; "1 0 1"; "1-0-0"; "1 0 0"; "0-0-1"; "0 0 1"; "2-0-2"; "2 0 2"].

(** A text that names two medications of the lexicon. *)
Definition two_medications : string :=
  "Take Aspirin 500 mg twice daily for 2 weeks and Metformin 5 g tablet".

(** *** What a pattern can consume *)

(** The texts a match of the pattern can consume, word boundaries left
    aside. *)
Fixpoint lang (ic : bool) (r : Re.regex) (w : string) : Prop :=
  match r with
  | Re.Eps | Re.Bound => w = ""
  | Re.Lit c => exists x, Re.lit_matches ic c x = true /\ w = String x ""
  | Re.CSet negated items =>
      exists x, Re.set_matches ic negated items x = true /\ w = String x ""
  | Re.Seq r1 r2 =>
      exists w1 w2, w = w1 ++ w2 /\ lang ic r1 w1 /\ lang ic r2 w2
  | Re.Alt r1 r2 => lang ic r1 w \/ lang ic r2 w
  | Re.Star r' =>
      exists ws, w = String.concat "" ws /\ Forall (lang ic r') ws
  | Re.Group _ r' => lang ic r' w
  end.

(** The wordings the source lists under the labels "once daily
    (morning)" and "twice daily (morning & night)" of its frequency
    table, in the entries that a later entry with the same key
    replaces. *)
Definition replaced_wordings : list string :=
  ["once daily"; "once a day"; "qd"; "q.d."; "every 24 hours";
   "twice daily"; "twice a day"; "bid"; "b.i.d."].

(** The texts a pattern made of literals spells, when it is made of
    literals only. *)
Fixpoint spellings (r : Re.regex) : option (list string) :=
  match r with
  | Re.Eps => Some [""]
  | Re.Lit c => Some [String c ""]
  | Re.Seq r1 r2 =>
      match spellings r1, spellings r2 with
      | Some l1, Some l2 => Some (flat_map (fun a => map (append a) l2) l1)
      | _, _ => None
      end
  | Re.Alt r1 r2 =>
      match spellings r1, spellings r2 with
      | Some l1, Some l2 => Some (l1 ++ l2)%list
      | _, _ => None
      end
  | Re.Group _ r' => spellings r'
  | _ => None
  end.

(** A pattern every match of which has the character [c]. *)
Fixpoint must_lit (c : ascii) (r : Re.regex) : bool :=
  match r with
  | Re.Lit x => Ascii.eqb x c
  | Re.Seq r1 r2 => must_lit c r1 || must_lit c r2
  | Re.Alt r1 r2 => must_lit c r1 && must_lit c r2
  | Re.Group _ r' => must_lit c r'
  | _ => false
  end.

End Notions.

(* ================================================================== *)
(** ** The matcher and the string primitives on sample inputs *)
(* ================================================================== *)

(** The values on the right are those of Python's [re] and [str]. *)

Module EngineChecks.

Import Re AIProcessor Notions.

(** Every pattern of the program is read by [compile]. *)
Lemma patterns_are_read :
  forallb (fun r => negb (is_never r))
    (patterns ++ dosage_patterns ++ map snd duration_patterns
     ++ map fst timing_patterns
     ++ [compile "\s+"; compile "[^\w\s.,:;()\[\]{}/\-+=%]";
         compile "\b0\b"; compile "\bl\b"; compile "\b(\d{2,4})\b";
         compile "(\d)-(\d)-(\d)";
         compile "(\b[A-Z][a-z]+(?:[-\s][A-Z][a-z]+)*)\b"])%list
  = true.
Proof. vm_compute. reflexivity. Qed.

Lemma patterns_group_counts :
  map ngroups patterns = [3; 4; 4; 4; 4; 3; 3; 3; 3; 1].
Proof. vm_compute. reflexivity. Qed.

Example name_dosage_unit_on_the_prescription_line :
  spans true (nth 0 patterns never) augmentin_text
  = [(5, 20, [Some "Augmentin"; Some "625"; Some "mg"])].
Proof. vm_compute. reflexivity. Qed.

Example name_run_with_and_without_ignorecase :
  spans true (nth 0 patterns never) "give pan d 40 mg or Calpol-Plus 2.5ml"
  = [(14, 37, [Some "mg or Calpol-Plus"; Some "2.5"; Some "ml"])] /\
  spans false (nth 0 patterns never) "give pan d 40 mg or Calpol-Plus 2.5ml"
  = [(20, 37, [Some "Calpol-Plus"; Some "2.5"; Some "ml"])].
Proof. split; vm_compute; reflexivity. Qed.

Example findall_dosages :
  findall true (nth 0 dosage_patterns never) "2.5 units, 3 grams, 10MG"
  = [FTuple ["2.5"; "units"]; FTuple ["10"; "MG"]].
Proof. vm_compute. reflexivity. Qed.

Example findall_bounded_numbers :
  findall false (compile "\b(\d{2,4})\b") "a 12345 123 5 22"
  = [FStr "123"; FStr "22"].
Proof. vm_compute. reflexivity. Qed.

Example sub_lone_zero :
  sub false (compile "\b0\b") "O" "10 0 0-1 a0 0" = "10 O O-1 a0 O".
Proof. vm_compute. reflexivity. Qed.

Example search_months_in_a_dosage :
  option_map (fun x => groups (compile "(\d+)\s*(months?|mos?|m)")
                         "2.5 mg aspirin" x)
    (search false (compile "(\d+)\s*(months?|mos?|m)") "2.5 mg aspirin")
  = Some [Some "5"; Some "m"].
Proof. vm_compute. reflexivity. Qed.

Example title_split_strip :
  title "aug-mentin 2.5mg pAND" = "Aug-Mentin 2.5Mg Pand" /\
  split "  ab c  d " = ["ab"; "c"; "d"] /\
  strip "  ab c  " = "ab c".
Proof. repeat split. Qed.

(** The frequency table as Python builds it from the display: a key
    written twice keeps its first place and its last value. *)
Example frequency_patterns_keys :
  map fst frequency_patterns
  = ["once daily (morning)"; "twice daily (morning & night)";
     "three times daily (morning, afternoon & night)";
     "twice daily (morning & afternoon)"; "twice daily (afternoon & night)";
     "four times daily"; "every 6 hours"; "every 8 hours"; "every 12 hours";
     "as needed"; "before meals"; "after meals"; "at bedtime";
     "three times daily"; "once daily (night)"] /\
  dict_get frequency_patterns "once daily (morning)"
  = Some ["1 morning"; "morning"].
Proof. split; reflexivity. Qed.

End EngineChecks.

(* ================================================================== *)
(** ** Facts about strings *)
(* ================================================================== *)

Module StrFacts.

Lemma append_nil_r (s : string) : s ++ "" = s.
Proof. induction s as [|c s IH]; simpl; [reflexivity | now rewrite IH]. Qed.

Lemma append_assoc (a b c : string) : (a ++ b) ++ c = a ++ (b ++ c).
Proof. induction a as [|x a IH]; simpl; [reflexivity | now rewrite IH]. Qed.

(** [prefix a b] holds exactly when [b] begins with [a]. *)
Lemma prefix_iff (a b : string) :
  prefix a b = true <-> exists q, b = a ++ q.
Proof.
  revert b; induction a as [|x a IH]; intros b.
  - destruct b; simpl; split; intros _; try reflexivity; eexists; reflexivity.
  - destruct b as [|y b]; simpl.
    + split; [discriminate | intros [q Hq]; discriminate].
    + destruct (ascii_dec x y) as [->|Hxy].
      * rewrite IH. split; intros [q Hq]; exists q.
        -- now rewrite Hq.
        -- now inversion Hq.
      * split; [discriminate | intros [q Hq]; inversion Hq; subst; now elim Hxy].
Qed.

(** [contains a b], the test [a in b], holds exactly when [a] is a
    contiguous piece of [b]. *)
Lemma contains_iff (a b : string) :
  contains a b = true <-> exists p q, b = p ++ a ++ q.
Proof.
  induction b as [|y b IH].
  - change (contains a "") with (prefix a "" || false).
    rewrite orb_false_r, prefix_iff. split.
    + intros [q Hq]. exists "", q. exact Hq.
    + intros [p [q Hq]]. destruct p; simpl in Hq; [now exists q | discriminate].
  - change (contains a (String y b))
      with (prefix a (String y b) || contains a b).
    rewrite orb_true_iff, IH, prefix_iff. split.
    + intros [[q Hq] | [p [q Hq]]].
      * exists "", q. exact Hq.
      * exists (String y p), q. simpl. now rewrite Hq.
    + intros [p [q Hq]]. destruct p as [|x p]; simpl in Hq.
      * left. now exists q.
      * right. inversion Hq. now exists p, q.
Qed.

Lemma contains_trans (a b c : string) :
  contains a b = true -> contains b c = true -> contains a c = true.
Proof.
  rewrite !contains_iff. intros [p [q ->]] [p' [q' ->]].
  exists (p' ++ p), (q ++ q'). now rewrite !append_assoc.
Qed.

Lemma contains_false_trans (a b c : string) :
  contains a b = true -> contains a c = false -> contains b c = false.
Proof.
  intros Hab Hac. destruct (contains b c) eqn:Hbc; [|reflexivity].
  now rewrite (contains_trans _ _ _ Hab Hbc) in Hac.
Qed.

End StrFacts.

(* ================================================================== *)
(** ** The reminder scheduler *)
(* ================================================================== *)

Module ReminderFacts.

Import MedicationReminder Notions StrFacts.

Lemma parse_frequency_schedules (frequency : string) :
  In (parse_frequency frequency) schedules.
Proof.
  unfold parse_frequency. cbv zeta.
  split_ifs; unfold schedules; simpl;
    repeat match goal with
           | |- _ \/ _ => (left; reflexivity) || right
           end;
    match goal with
    | D : _ || contains "daily" ?s = false, H : contains ?p ?s = true |- _ =>
        apply orb_false_elim in D; destruct D as [_ D];
        rewrite (contains_false_trans "daily" p s eq_refl D) in H;
        discriminate H
    end.
Qed.

(** C2. On the labels of the stated table the scheduler returns 09:00 for
    "once daily" and the empty list for "as needed" and "sos", but the
    single time 09:00 as well for "twice daily", "three times daily" and
    "four times daily", whose own rows are shadowed by the test for
    "daily". *)
Theorem parse_frequency_table_rows :
  parse_frequency "once daily" = ["09:00"] /\
  parse_frequency "as needed" = [] /\
  parse_frequency "sos" = [] /\
  parse_frequency "twice daily" = ["09:00"] /\
  parse_frequency "three times daily" = ["09:00"] /\
  parse_frequency "four times daily" = ["09:00"].
Proof. repeat split; reflexivity. Qed.

(** C3, as stated, fails: the schedule of "every 6 hours", a label the
    frequency extractor produces, ends with 00:00 after 18:00. *)
Lemma parse_frequency_every_6_hours_unsorted :
  AIProcessor.extract_frequency_near_medication AIProcessor.self_fuzzy_match
    "Amoxil 500mg q6h" "amoxil" = Ok "every 6 hours" /\
  parse_frequency "every 6 hours" = ["06:00"; "12:00"; "18:00"; "00:00"] /\
  sorted (parse_frequency "every 6 hours") = false.
Proof. repeat split; vm_compute; reflexivity. Qed.

(** C3, amended. For every frequency string, so for every canonical
    label, the schedule is a list of valid clock strings without
    duplicates; it is in non-decreasing order except for the two
    every-6-hours and every-8-hours schedules, which list their times in
    increasing order and then 00:00. *)
Theorem parse_frequency_valid_nodup_sorted_but_midnight (label : string) :
  forallb valid_hhmm (parse_frequency label) = true /\
  nodup_str (parse_frequency label) = true /\
  (sorted (parse_frequency label) = true \/
   parse_frequency label = ["06:00"; "12:00"; "18:00"; "00:00"] \/
   parse_frequency label = ["08:00"; "16:00"; "00:00"]).
Proof.
  pose proof (parse_frequency_schedules label) as H.
  unfold schedules in H. simpl in H.
  repeat (destruct H as [H | H];
          [rewrite <- H; repeat split; try reflexivity; auto|]).
  contradiction.
Qed.

(** C4. For the label "twice daily" and a start date exactly ten days
    before now, the expected-dose count is 10, not 20: the label
    contains "daily", so the first branch answers with the day count. *)
Theorem expected_doses_twice_daily_ten_days (utcnow : Z) :
  _calculate_expected_doses "twice daily" utcnow
    (utcnow - 10 * microseconds_per_day) = 10%Z.
Proof.
  unfold _calculate_expected_doses. cbv zeta.
  replace (utcnow - (utcnow - 10 * microseconds_per_day))%Z
    with (10 * microseconds_per_day)%Z by lia.
  reflexivity.
Qed.

(** Whatever the label, a label with the word "daily" counts one dose a
    day. *)
Lemma expected_doses_daily_is_days (frequency : string) (utcnow start : Z) :
  contains "daily" (lower frequency) = true ->
  _calculate_expected_doses frequency utcnow start
  = timedelta_days (utcnow - start).
Proof.
  intros H. unfold _calculate_expected_doses. cbv zeta.
  rewrite H, orb_true_r. reflexivity.
Qed.

End ReminderFacts.

(* ================================================================== *)
(** ** Characters and trimming *)
(* ================================================================== *)

Module CharFacts.

Import Notions StrFacts.

Lemma is_space_lower_char (c : ascii) : is_space (lower_char c) = is_space c.
Proof. by_cases_on_char c. Qed.

Lemma is_alpha_lower_char (c : ascii) : is_alpha (lower_char c) = is_alpha c.
Proof. by_cases_on_char c. Qed.

Lemma is_alpha_upper_char (c : ascii) : is_alpha (upper_char c) = is_alpha c.
Proof. by_cases_on_char c. Qed.

Lemma lower_char_idem (c : ascii) : lower_char (lower_char c) = lower_char c.
Proof. by_cases_on_char c. Qed.

Lemma lower_upper_char (c : ascii) : lower_char (upper_char c) = lower_char c.
Proof. by_cases_on_char c. Qed.

Lemma digit_not_space (c : ascii) : is_digit c = true -> is_space c = false.
Proof. by_cases_on_char c. Qed.

Lemma sforall_impl (p q : ascii -> bool) (s : string) :
  (forall c, p c = true -> q c = true) ->
  sforall p s = true -> sforall q s = true.
Proof.
  intros Hpq. induction s as [|c s IH]; simpl; [reflexivity|].
  rewrite !andb_true_iff. intros [Hc Hs]. split; auto.
Qed.

Lemma lower_append (a b : string) : lower (a ++ b) = lower a ++ lower b.
Proof.
  unfold lower. induction a as [|c a IH]; simpl; [reflexivity|].
  now rewrite IH.
Qed.

Lemma lower_idem (s : string) : lower (lower s) = lower s.
Proof.
  unfold lower. induction s as [|c s IH]; simpl; [reflexivity|].
  now rewrite IH, lower_char_idem.
Qed.

Lemma contains_lower (a b : string) :
  contains a b = true -> contains (lower a) (lower b) = true.
Proof.
  rewrite !contains_iff. intros [u [v ->]].
  exists (lower u), (lower v). now rewrite !lower_append.
Qed.

Lemma lstrip_length (s : string) : String.length (lstrip s) <= String.length s.
Proof.
  induction s as [|c s IH]; simpl; [lia|].
  destruct (is_space c); simpl; lia.
Qed.

Lemma rstrip_length (s : string) : String.length (rstrip s) <= String.length s.
Proof.
  induction s as [|c s IH]; simpl; [lia|].
  destruct (rstrip s); [destruct (is_space c)|]; simpl in *; lia.
Qed.

Lemma strip_length (s : string) : String.length (strip s) <= String.length s.
Proof.
  unfold strip. pose proof (rstrip_length (lstrip s)).
  pose proof (lstrip_length s). lia.
Qed.

Lemma lstrip_lower (s : string) : lstrip (lower s) = lower (lstrip s).
Proof.
  unfold lower. induction s as [|c s IH]; simpl; [reflexivity|].
  rewrite is_space_lower_char. now destruct (is_space c).
Qed.

Lemma rstrip_lower (s : string) : rstrip (lower s) = lower (rstrip s).
Proof.
  unfold lower. induction s as [|c s IH]; simpl; [reflexivity|].
  rewrite IH, is_space_lower_char.
  destruct (rstrip s); simpl; [now destruct (is_space c) | reflexivity].
Qed.

Lemma strip_lower (s : string) : strip (lower s) = lower (strip s).
Proof. unfold strip. now rewrite lstrip_lower, rstrip_lower. Qed.

(** Trimming changes nothing in a text without white space. *)
Lemma strip_no_space (s : string) :
  sforall (fun c => negb (is_space c)) s = true -> strip s = s.
Proof.
  intros H. unfold strip.
  assert (Hl : lstrip s = s).
  { destruct s as [|c s]; simpl in *; [reflexivity|].
    apply andb_true_iff in H. destruct H as [Hc _].
    now destruct (is_space c). }
  rewrite Hl. induction s as [|c s IH]; simpl in *; [reflexivity|].
  apply andb_true_iff in H. destruct H as [Hc Hs].
  rewrite IH; auto.
  - destruct s; [now destruct (is_space c) | reflexivity].
  - destruct s as [|d s]; simpl in *; [reflexivity|].
    apply andb_true_iff in Hs. destruct Hs as [Hd _].
    now destruct (is_space d).
Qed.

Lemma strip_digits (s : string) : isdigit s = true -> strip s = s.
Proof.
  intros H. apply strip_no_space. destruct s; [discriminate|].
  unfold isdigit in H. revert H. apply sforall_impl.
  intros c Hc. now rewrite (digit_not_space c Hc).
Qed.

End CharFacts.

(* ================================================================== *)
(** ** The matcher *)
(* ================================================================== *)

Module ReFacts.

Import Re Notions StrFacts CharFacts.

(** *** A class of single characters, and a run of white space *)

Lemma match_at_cset (ic negated : bool) (items : list citem) (p : nat)
    (pv : option ascii) (s : string) :
  match_at ic (CSet negated items) p pv s
  = match s with
    | String c _ =>
        if set_matches ic negated items c
        then Some (mkMatch p (S p) []) else None
    | EmptyString => None
    end.
Proof.
  unfold match_at. simpl. unfold eat. simpl.
  destruct s as [|c s]; [reflexivity|].
  now destruct (set_matches ic negated items c).
Qed.

(** Replacing the matches of a class by a space rewrites the text
    character by character. *)
Lemma sub_cset_space (negated : bool) (items : list citem) (s : string) :
  forall p pv,
    sub_go false (CSet negated items) " " 0 p pv s
    = smap (fun c => if set_matches false negated items c then " "%char else c)
        s.
Proof.
  induction s as [|c s IH]; intros p pv.
  - cbn [sub_go smap]. now rewrite match_at_cset.
  - cbn [sub_go smap]. rewrite match_at_cset.
    destruct (set_matches false negated items c).
    + cbn [m_end]. assert (Hlt : (p <? S p)%nat = true)
        by (apply Nat.ltb_lt; lia).
      rewrite Hlt. replace (S p - p - 1) with 0 by lia.
      now rewrite IH.
    + now rewrite IH.
Qed.

Lemma lead_spaces_le (s : string) : lead_spaces s <= String.length s.
Proof.
  induction s as [|c s IH]; simpl; [lia|].
  destruct (is_space c); simpl; lia.
Qed.

(** The greedy star over white space takes the whole run. *)
Lemma star_spaces (p0 : nat) (fuel : nat) :
  forall st,
    lead_spaces (rest st) < fuel ->
    star_loop fuel (run false space_class) st
      (fun st' => Some (mkMatch p0 (pos st') (caps st')))
    = Some (mkMatch p0 (pos st + lead_spaces (rest st)) (caps st)).
Proof.
  induction fuel as [|f IH]; intros [p pv s cs] H; [lia|].
  cbn [star_loop]. unfold space_class at 1. cbn [run]. unfold eat.
  cbn [rest pos caps prev] in *.
  destruct s as [|c s].
  - simpl. now rewrite Nat.add_0_r.
  - cbn [lead_spaces] in *. unfold set_matches. cbn [existsb item_matches].
    rewrite orb_false_r. cbn [xorb].
    destruct (is_space c) eqn:Hc.
    + cbn [pos]. assert (Hlt : (p <? S p)%nat = true)
        by (apply Nat.ltb_lt; lia).
      rewrite Hlt. rewrite IH by (cbn [rest]; lia).
      cbn [pos rest caps]. do 2 f_equal. lia.
    + now rewrite Nat.add_0_r.
Qed.

Lemma match_at_spaces (p : nat) (pv : option ascii) (s : string) :
  match_at false (Seq space_class (Star space_class)) p pv s
  = match s with
    | String c s' =>
        if is_space c
        then Some (mkMatch p (S p + lead_spaces s') []) else None
    | EmptyString => None
    end.
Proof.
  unfold match_at. cbn [run]. unfold space_class at 1. cbn [run].
  unfold eat. cbn [rest pos caps prev].
  destruct s as [|c s]; [reflexivity|].
  unfold set_matches. cbn [existsb item_matches].
  rewrite orb_false_r. cbn [xorb].
  destruct (is_space c); [|reflexivity].
  cbn [rest].
  rewrite (star_spaces p (S (String.length s))
             (mkState (S p) (Some c) s [])).
  - reflexivity.
  - cbn [rest]. pose proof (lead_spaces_le s). lia.
Qed.

(** Replacing every run of white space by one space. *)
Lemma sub_spaces (s : string) :
  forall p pv,
    sub_go false (Seq space_class (Star space_class)) " " 0 p pv s
    = collapse_spaces false s /\
    sub_go false (Seq space_class (Star space_class)) " " (lead_spaces s) p pv s
    = collapse_spaces true s.
Proof.
  induction s as [|c s IH]; intros p pv.
  - cbn [lead_spaces sub_go collapse_spaces]. rewrite match_at_spaces. auto.
  - assert (H0 : sub_go false (Seq space_class (Star space_class)) " " 0 p pv
                   (String c s) = collapse_spaces false (String c s)).
    { cbn [sub_go collapse_spaces]. rewrite match_at_spaces.
      destruct (is_space c) eqn:Hc.
      - cbn [m_end]. assert (Hlt : (p <? S p + lead_spaces s)%nat = true)
          by (apply Nat.ltb_lt; lia).
        rewrite Hlt.
        replace (S p + lead_spaces s - p - 1) with (lead_spaces s) by lia.
        destruct (IH (S p) (Some c)) as [_ ->]. reflexivity.
      - destruct (IH (S p) (Some c)) as [-> _]. reflexivity. }
    split; [exact H0|].
    cbn [lead_spaces]. destruct (is_space c) eqn:Hc.
    + cbn [sub_go collapse_spaces]. rewrite Hc.
      now destruct (IH (S p) (Some c)) as [_ ->].
    + rewrite H0. cbn [collapse_spaces]. now rewrite Hc.
Qed.

(** *** Patterns that need two letters side by side *)

Lemma lit_matches_alpha (ic : bool) (c x : ascii) :
  is_alpha c = true -> lit_matches ic c x = true -> is_alpha x = true.
Proof.
  unfold lit_matches. intros Hc. destruct ic.
  - rewrite Ascii.eqb_eq. intros E.
    now rewrite <- (is_alpha_lower_char x), <- E, is_alpha_lower_char.
  - rewrite Ascii.eqb_eq. now intros <-.
Qed.

Lemma in_range_alpha (lo hi x : ascii) :
  letters_item (CRange lo hi) = true -> in_range lo hi x = true ->
  is_alpha x = true.
Proof.
  unfold letters_item, is_alpha, is_upper, is_lower, in_range.
  rewrite !orb_true_iff, !andb_true_iff, !N.leb_le.
  change (code "A") with 65%N. change (code "Z") with 90%N.
  change (code "a") with 97%N. change (code "z") with 122%N.
  lia.
Qed.

Lemma item_matches_alpha (ic : bool) (it : citem) (x : ascii) :
  letters_item it = true -> item_matches ic it x = true -> is_alpha x = true.
Proof.
  destruct it as [lo hi| | |]; try discriminate. intros Hl. cbn [item_matches].
  rewrite !orb_true_iff, andb_true_iff, orb_true_iff.
  intros [H | [_ [H | H]]].
  - now apply (in_range_alpha lo hi).
  - rewrite <- is_alpha_lower_char. now apply (in_range_alpha lo hi).
  - rewrite <- is_alpha_upper_char. now apply (in_range_alpha lo hi).
Qed.

Lemma set_matches_alpha (ic : bool) (items : list citem) (x : ascii) :
  forallb letters_item items = true ->
  set_matches ic false items x = true -> is_alpha x = true.
Proof.
  unfold set_matches. cbn [xorb]. intros Hall.
  rewrite existsb_exists. intros [it [Hin Hm]].
  rewrite forallb_forall in Hall.
  now apply (item_matches_alpha ic it x (Hall it Hin)).
Qed.

Lemma letter_pair_prev (w : string) (b : bool) :
  letter_pair false w = true -> letter_pair b w = true.
Proof.
  destruct w as [|c w]; simpl; [discriminate|].
  intros H. rewrite H. apply orb_true_r.
Qed.

Lemma letter_pair_app_l (w q : string) :
  forall b, letter_pair b w = true -> letter_pair b (w ++ q) = true.
Proof.
  induction w as [|c w IH]; intros b; simpl; [discriminate|].
  rewrite !orb_true_iff. intros [H | H]; [now left | right; now apply IH].
Qed.

Lemma letter_pair_app_r (p w : string) :
  forall b, letter_pair false w = true -> letter_pair b (p ++ w) = true.
Proof.
  induction p as [|c p IH]; intros b H; simpl.
  - now apply letter_pair_prev.
  - rewrite (IH _ H). apply orb_true_r.
Qed.

Lemma letter_pair_junction (w1 w2 : string) :
  forall b,
    ends_alpha w1 = true -> starts_alpha w2 = true ->
    letter_pair b (w1 ++ w2) = true.
Proof.
  induction w1 as [|c w1 IH]; intros b H1 H2; [discriminate|].
  destruct w1 as [|d w1].
  - cbn [ends_alpha] in H1. destruct w2 as [|e w2]; [discriminate|].
    cbn [starts_alpha] in H2. simpl. rewrite H1, H2. simpl.
    apply orb_true_r.
  - change (ends_alpha (String c (String d w1)))
      with (ends_alpha (String d w1)) in H1.
    change ((String c (String d w1)) ++ w2)
      with (String c (String d w1 ++ w2)).
    cbn [letter_pair]. rewrite (IH _ H1 H2). apply orb_true_r.
Qed.

(** A piece of a text has two letters side by side only if the text
    has. *)
Lemma letter_pair_contains (w t : string) :
  contains w t = true -> letter_pair false w = true ->
  letter_pair false t = true.
Proof.
  rewrite contains_iff. intros [p [q ->]] H.
  apply letter_pair_app_r. now apply letter_pair_app_l.
Qed.

Lemma letter_pair_tail (c : ascii) (s : string) :
  letter_pair false (String c s) = false -> letter_pair false s = false.
Proof.
  simpl. intros H. destruct (letter_pair false s) eqn:E; [|reflexivity].
  now rewrite (letter_pair_prev s (is_alpha c) E) in H.
Qed.

Lemma starts_alpha_app (w1 w2 : string) :
  starts_alpha w1 = true -> starts_alpha (w1 ++ w2) = true.
Proof. destruct w1; [discriminate | auto]. Qed.

Lemma ends_alpha_app (w1 w2 : string) :
  ends_alpha w2 = true -> ends_alpha (w1 ++ w2) = true.
Proof.
  intros H. induction w1 as [|c w1 IH]; [exact H|].
  simpl. destruct (w1 ++ w2) eqn:E; [|exact IH].
  destruct w1; [|discriminate]. simpl in E. now rewrite E in H.
Qed.

Lemma consumed_letter (r : regex) (x : ascii) :
  zero_width r = false -> must_pair r = false ->
  (first_letter r = true -> is_alpha x = true) ->
  (last_letter r = true -> is_alpha x = true) ->
  consumed r (String x "").
Proof.
  intros Hz Hp Hf Hl. unfold consumed. rewrite Hz, Hp.
  repeat split; try discriminate; auto.
Qed.

Section Consuming.
Context {A : Type}.

Lemma eat_consumes (p : ascii -> bool) (st st' : state) :
  eat p st = Some st' ->
  exists x, p x = true /\ rest st = String x (rest st').
Proof.
  unfold eat. destruct (rest st) as [|c s]; [discriminate|].
  destruct (p c) eqn:E; [|discriminate]. intros H. inversion H; subst.
  exists c. auto.
Qed.

Lemma star_loop_consumes
    (step : state -> (state -> option A) -> option A) (fuel : nat) :
  (forall st k res,
      step st k = Some res ->
      exists st' w, rest st = w ++ rest st' /\ k st' = Some res) ->
  forall st (k : state -> option A) res,
    star_loop fuel step st k = Some res ->
    exists st' w, rest st = w ++ rest st' /\ k st' = Some res.
Proof.
  intros Hstep. induction fuel as [|f IH]; intros st k res; cbn [star_loop].
  - intros H. now exists st, "".
  - destruct (step st _) as [a|] eqn:E.
    + intros H. inversion H; subst.
      destruct (Hstep _ _ _ E) as [st1 [w1 [Hw1 Hk1]]].
      destruct (pos st <? pos st1)%nat; [|discriminate].
      destruct (IH _ _ _ Hk1) as [st2 [w2 [Hw2 Hk2]]].
      exists st2, (w1 ++ w2). split; [|exact Hk2].
      now rewrite Hw1, Hw2, append_assoc.
    + intros H. now exists st, "".
Qed.

(** A successful match hands the rest of the text to its continuation,
    and what it consumed has the shape the pattern promises. *)
Lemma run_consumes (ic : bool) (r : regex) :
  forall st (k : state -> option A) res,
    run ic r st k = Some res ->
    exists st' w,
      rest st = w ++ rest st' /\ k st' = Some res /\ consumed r w.
Proof.
  induction r as [|c|negated items| |r1 IH1 r2 IH2|r1 IH1 r2 IH2|r IH|n r IH];
    intros st k res; cbn [run].
  - intros H. exists st, "". repeat split; try discriminate; auto.
  - destruct (eat _ st) as [st'|] eqn:E; [|discriminate]. intros H.
    destruct (eat_consumes _ _ _ E) as [x [Hx Hr]].
    exists st', (String x ""). split; [exact Hr|]. split; [exact H|].
    apply consumed_letter; auto; cbn [first_letter last_letter];
      intros Hc; now apply (lit_matches_alpha ic c x).
  - destruct (eat _ st) as [st'|] eqn:E; [|discriminate]. intros H.
    destruct (eat_consumes _ _ _ E) as [x [Hx Hr]].
    exists st', (String x ""). split; [exact Hr|]. split; [exact H|].
    apply consumed_letter; auto; cbn [first_letter last_letter];
      destruct negated; try discriminate;
      intros Hc; now apply (set_matches_alpha ic items x).
  - destruct (at_boundary st); [|discriminate]. intros H.
    exists st, "". repeat split; try discriminate; auto.
  - intros H.
    destruct (IH1 _ _ _ H) as [st1 [w1 [Hw1 [Hk1 [Z1 [F1 [L1 P1]]]]]]].
    destruct (IH2 _ _ _ Hk1) as [st2 [w2 [Hw2 [Hk2 [Z2 [F2 [L2 P2]]]]]]].
    exists st2, (w1 ++ w2). split; [now rewrite Hw1, Hw2, append_assoc|].
    split; [exact Hk2|]. unfold consumed.
    cbn [zero_width first_letter last_letter must_pair]. repeat split.
    + rewrite andb_true_iff. intros [Ha Hb]. now rewrite (Z1 Ha), (Z2 Hb).
    + rewrite orb_true_iff, andb_true_iff. intros [Ha | [Ha Hb]].
      * now apply starts_alpha_app, F1.
      * rewrite (Z1 Ha). now apply F2.
    + rewrite orb_true_iff, andb_true_iff. intros [Hb | [Hb Ha]].
      * now apply ends_alpha_app, L2.
      * rewrite (Z2 Hb), append_nil_r. now apply L1.
    + rewrite !orb_true_iff, andb_true_iff. intros [[Ha | Hb] | [Ha Hb]].
      * now apply letter_pair_app_l, P1.
      * now apply letter_pair_app_r, P2.
      * apply letter_pair_junction; auto.
  - destruct (run ic r1 st k) as [a|] eqn:E.
    + intros H. inversion H; subst.
      destruct (IH1 _ _ _ E) as [st1 [w1 [Hw1 [Hk1 [Z1 [F1 [L1 P1]]]]]]].
      exists st1, w1. split; [exact Hw1|]. split; [exact Hk1|].
      unfold consumed. cbn [zero_width first_letter last_letter must_pair].
      rewrite !andb_true_iff. repeat split; intros [Ha Hb]; auto.
    + intros H.
      destruct (IH2 _ _ _ H) as [st1 [w1 [Hw1 [Hk1 [Z1 [F1 [L1 P1]]]]]]].
      exists st1, w1. split; [exact Hw1|]. split; [exact Hk1|].
      unfold consumed. cbn [zero_width first_letter last_letter must_pair].
      rewrite !andb_true_iff. repeat split; intros [Ha Hb]; auto.
  - intros H.
    destruct (star_loop_consumes (run ic r) _
                (fun st k res Hr =>
                   match IH st k res Hr with
                   | ex_intro _ st' (ex_intro _ w (conj Hw (conj Hk _))) =>
                       ex_intro _ st' (ex_intro _ w (conj Hw Hk))
                   end) _ _ _ H) as [st' [w [Hw Hk]]].
    exists st', w. split; [exact Hw|]. split; [exact Hk|].
    unfold consumed. repeat split; discriminate.
  - intros H.
    destruct (IH _ _ _ H) as [st1 [w1 [Hw1 [Hk1 C1]]]].
    exists (close_group n (pos st) st1), w1. split; [exact Hw1|].
    split; [exact Hk1 | exact C1].
Qed.

(** A pattern that needs two letters side by side does not match where
    the text has none. *)
Lemma must_pair_none (ic : bool) (r : regex) (st : state)
    (k : state -> option A) :
  must_pair r = true -> letter_pair false (rest st) = false ->
  run ic r st k = None.
Proof.
  intros Hm Hs. destruct (run ic r st k) as [res|] eqn:E; [|reflexivity].
  destruct (run_consumes ic r st k res E) as [st' [w [Hw [_ [_ [_ [_ P]]]]]]].
  rewrite Hw, (letter_pair_app_l w (rest st') false (P Hm)) in Hs.
  discriminate Hs.
Qed.

End Consuming.

Lemma finditer_go_no_pair (ic : bool) (r : regex) (s : string) :
  must_pair r = true -> letter_pair false s = false ->
  forall skip p pv, finditer_go ic r skip p pv s = [].
Proof.
  intros Hm. induction s as [|c s IH]; intros Hs skip p pv; cbn [finditer_go].
  - destruct skip; [|reflexivity]. unfold match_at.
    now rewrite must_pair_none.
  - pose proof (letter_pair_tail c s Hs) as Hs'.
    destruct skip; [|now apply IH].
    unfold match_at. rewrite must_pair_none; auto.
Qed.

Lemma finditer_no_pair (ic : bool) (r : regex) (text : string) :
  must_pair r = true -> letter_pair false text = false ->
  finditer ic r text = [].
Proof. intros. now apply finditer_go_no_pair. Qed.

(** *** Groups are pieces of the text *)

Lemma take_drop (n : nat) (s : string) : s = take n s ++ drop n s.
Proof.
  revert s. induction n as [|n IH]; intros s; [reflexivity|].
  destruct s as [|c s]; simpl; [reflexivity|]. now rewrite <- IH.
Qed.

Lemma contains_take_drop (n a : nat) (s : string) :
  contains (take n (drop a s)) s = true.
Proof.
  apply contains_iff. exists (take a s), (drop n (drop a s)).
  now rewrite <- take_drop, <- take_drop.
Qed.

Lemma group_in_text (text : string) (x : mtch) (n : nat) (g : string) :
  group text x n = Some g -> contains g text = true.
Proof.
  unfold group. destruct (lookup_cap n (m_caps x)) as [[a b]|]; [|discriminate].
  intros H. inversion H. apply contains_take_drop.
Qed.

Lemma groups_length (r : regex) (text : string) (x : mtch) :
  List.length (groups r text x) = ngroups r.
Proof. unfold groups. now rewrite length_map, length_seq. Qed.

(** A tuple of [findall] has at least two components. *)
Lemma found_of_tuple (r : regex) (text : string) (x : mtch) (l : list string) :
  found_of r text x = FTuple l -> 2 <= List.length l.
Proof.
  unfold found_of. destruct (ngroups r) as [|[|n]] eqn:E; try discriminate.
  intros H. inversion H. rewrite length_map, groups_length, E. lia.
Qed.

End ReFacts.

(* ================================================================== *)
(** ** The text cleaner *)
(* ================================================================== *)

Module CleanFacts.

Import AIProcessor Notions StrFacts CharFacts ReFacts.

Lemma smap_ext (f g : ascii -> ascii) (s : string) :
  (forall c, f c = g c) -> smap f s = smap g s.
Proof.
  intros H. induction s as [|c s IH]; simpl; [reflexivity|].
  now rewrite H, IH.
Qed.

Lemma symbol_class_is_kept (c : ascii) :
  (if Re.set_matches false true
        [Re.CWord; Re.CSpace; Re.CRange "." "."; Re.CRange "," ",";
         Re.CRange ":" ":"; Re.CRange ";" ";"; Re.CRange "(" "(";
         Re.CRange ")" ")"; Re.CRange "[" "["; Re.CRange "]" "]";
         Re.CRange "{" "{"; Re.CRange "}" "}"; Re.CRange "/" "/";
         Re.CRange "-" "-"; Re.CRange "+" "+"; Re.CRange "=" "=";
         Re.CRange "%" "%"] c
   then " "%char else c)
  = (if kept c then c else " "%char).
Proof. by_cases_on_char c. Qed.

(** [clean_text] trims the text, turns every run of white space into one
    space, and then turns every character that is not kept into a space. *)
Lemma clean_text_steps (raw : string) :
  clean_text raw = blank_symbols (collapse_spaces false (strip raw)).
Proof.
  unfold clean_text, Re.sub.
  change (Re.compile "\s+") with (Re.Seq space_class (Re.Star space_class)).
  destruct (sub_spaces (strip raw) 0 None) as [-> _].
  change (Re.compile "[^\w\s.,:;()\[\]{}/\-+=%]")
    with (Re.CSet true
            [Re.CWord; Re.CSpace; Re.CRange "." "."; Re.CRange "," ",";
             Re.CRange ":" ":"; Re.CRange ";" ";"; Re.CRange "(" "(";
             Re.CRange ")" ")"; Re.CRange "[" "["; Re.CRange "]" "]";
             Re.CRange "{" "{"; Re.CRange "}" "}"; Re.CRange "/" "/";
             Re.CRange "-" "-"; Re.CRange "+" "+"; Re.CRange "=" "=";
             Re.CRange "%" "%"]).
  rewrite sub_cset_space. unfold blank_symbols.
  apply smap_ext, symbol_class_is_kept.
Qed.

(** *** What the steps keep *)

Section Filtering.
Variable p : ascii -> bool.
Hypothesis p_not_space : forall c, is_space c = true -> p c = false.





End Filtering.





(** *** Letters side by side *)

Lemma space_not_alpha (c : ascii) : is_space c = true -> is_alpha c = false.
Proof. by_cases_on_char c. Qed.

Lemma kept_alpha (c : ascii) :
  is_alpha (if kept c then c else " "%char) = is_alpha c.
Proof. by_cases_on_char c. Qed.

Lemma letter_pair_lower (s : string) :
  forall b, letter_pair b (lower s) = letter_pair b s.
Proof.
  unfold lower. induction s as [|c s IH]; intros b; simpl; [reflexivity|].
  now rewrite IH, is_alpha_lower_char.
Qed.

Lemma letter_pair_blank (s : string) :
  forall b, letter_pair b (blank_symbols s) = letter_pair b s.
Proof.
  unfold blank_symbols. induction s as [|c s IH]; intros b; simpl;
    [reflexivity|].
  now rewrite IH, kept_alpha.
Qed.

Lemma letter_pair_collapse (s : string) :
  (forall b, letter_pair b (collapse_spaces false s) = letter_pair b s) /\
  letter_pair false (collapse_spaces true s) = letter_pair false s.
Proof.
  induction s as [|c s [IH1 IH2]]; [split; reflexivity|].
  cbn [collapse_spaces]. destruct (is_space c) eqn:E.
  - pose proof (space_not_alpha c E) as Hc. split.
    + intros b. cbn [letter_pair]. rewrite Hc.
      change (is_alpha " ") with false.
      now rewrite !andb_false_r, IH2.
    + cbn [letter_pair]. now rewrite Hc, IH2.
  - split.
    + intros b. cbn [letter_pair]. now rewrite IH1.
    + cbn [letter_pair]. now rewrite IH1.
Qed.

Lemma letter_pair_lstrip (s : string) :
  letter_pair false (lstrip s) = letter_pair false s.
Proof.
  induction s as [|c s IH]; simpl; [reflexivity|].
  destruct (is_space c) eqn:E; [|reflexivity].
  now rewrite IH, (space_not_alpha c E).
Qed.

Lemma letter_pair_rstrip (s : string) :
  forall b, letter_pair b (rstrip s) = letter_pair b s.
Proof.
  induction s as [|c s IH]; intros b; [reflexivity|].
  cbn [rstrip letter_pair]. rewrite <- (IH (is_alpha c)).
  destruct (rstrip s) as [|d r].
  - destruct (is_space c) eqn:E.
    + rewrite (space_not_alpha c E). now rewrite andb_false_r.
    + reflexivity.
  - reflexivity.
Qed.

(** Cleaning a text puts no two letters side by side. *)
Lemma letter_pair_clean_text (raw : string) :
  letter_pair false (clean_text raw) = letter_pair false raw.
Proof.
  rewrite clean_text_steps, letter_pair_blank.
  destruct (letter_pair_collapse (strip raw)) as [-> _].
  unfold strip. now rewrite letter_pair_rstrip, letter_pair_lstrip.
Qed.

End CleanFacts.

(* ================================================================== *)
(** ** The entity merger *)
(* ================================================================== *)

Module MergeFacts.

Import AIProcessor Notions StrFacts CharFacts.

Lemma passes_filter_acceptable (n : string) :
  invalid_name (strip n) = false -> acceptable_name n = true.
Proof.
  unfold invalid_name, acceptable_name. intros H.
  apply orb_false_elim in H. destruct H as [H Hstop].
  apply orb_false_elim in H. destruct H as [H Hdig].
  apply orb_false_elim in H. destruct H as [Hne Hlen].
  rewrite !andb_true_iff, !negb_true_iff. repeat split.
  - destruct n; [discriminate Hne | reflexivity].
  - apply Z.ltb_ge in Hlen. unfold len in Hlen.
    pose proof (strip_length n). apply Nat.leb_le. lia.
  - destruct (isdigit n) eqn:E; [|reflexivity].
    now rewrite (strip_digits n E), E in Hdig.
  - destruct (mem (lower n) _) eqn:E; [|reflexivity].
    assert (Hs : strip (lower n) = lower n).
    { unfold mem in E. simpl in E. rewrite !orb_true_iff in E.
      rewrite !String.eqb_eq in E.
      decompose [or] E; try discriminate;
        match goal with H : lower n = _ |- _ => rewrite H; reflexivity end. }
    now rewrite <- strip_lower, Hs, E in Hstop.
Qed.

(** *** The grouping loop *)

Lemma group_append_members (Q : med -> Prop) (groups : dict (list med))
    (k : string) (m : med) :
  Forall Q (members groups) -> Q m ->
  Forall Q (members (group_append groups k m)).
Proof.
  intros HG Hm. induction groups as [|[k' l] tl IH]; simpl; [constructor|].
  unfold members in *. simpl in HG. apply Forall_app in HG.
  destruct HG as [Hl Htl].
  destruct (String.eqb k' k); simpl; apply Forall_app; split; auto.
  apply Forall_app. split; auto.
Qed.

Lemma dict_set_nil_members (Q : med -> Prop) (groups : dict (list med))
    (k : string) :
  Forall Q (members groups) -> Forall Q (members (dict_set groups k [])).
Proof.
  intros HG. induction groups as [|[k' l] tl IH]; simpl; [constructor|].
  unfold members in *. simpl in HG. apply Forall_app in HG.
  destruct HG as [Hl Htl].
  destruct (String.eqb k' k); simpl; auto.
  apply Forall_app. split; auto.
Qed.

Lemma group_step_members (Q : med -> Prop) (groups : dict (list med))
    (m : med) :
  Forall Q (members groups) ->
  (invalid_name (strip (name m)) = false -> Q m) ->
  Forall Q (members (group_step groups m)).
Proof.
  intros HG Hm. unfold group_step.
  destruct (invalid_name (strip (name m))) eqn:E; [exact HG|].
  destruct (find_group_key _ _).
  - apply group_append_members; auto.
  - apply group_append_members; auto. now apply dict_set_nil_members.
Qed.

Lemma fold_group_step_members (Q : med -> Prop) (L : list med) :
  forall groups,
    Forall Q (members groups) ->
    Forall (fun m => invalid_name (strip (name m)) = false -> Q m) L ->
    Forall Q (members (fold_left group_step L groups)).
Proof.
  induction L as [|m L IH]; intros groups HG HL; simpl; [exact HG|].
  inversion HL; subst. apply IH; auto. now apply group_step_members.
Qed.

Lemma group_append_length (groups : dict (list med)) (k : string) (m : med) :
  List.length (group_append groups k m) = List.length groups.
Proof.
  induction groups as [|[k' l] tl IH]; simpl; [reflexivity|].
  destruct (String.eqb k' k); simpl; auto.
Qed.

Lemma dict_set_length {V : Type} (d : dict V) (k : string) (v : V) :
  List.length (dict_set d k v) <= S (List.length d).
Proof.
  induction d as [|[k' v'] tl IH]; simpl; [lia|].
  destruct (String.eqb k' k); simpl; lia.
Qed.

Lemma group_step_length (groups : dict (list med)) (m : med) :
  List.length (group_step groups m) <= S (List.length groups).
Proof.
  unfold group_step. destruct (invalid_name _); [lia|].
  destruct (find_group_key _ _); rewrite group_append_length;
    [lia | apply dict_set_length].
Qed.

Lemma fold_group_step_length (L : list med) :
  forall groups,
    List.length (fold_left group_step L groups)
    <= List.length groups + List.length L.
Proof.
  induction L as [|m L IH]; intros groups; simpl; [lia|].
  specialize (IH (group_step groups m)).
  pose proof (group_step_length groups m). lia.
Qed.

(** *** The reduction of a group *)

Lemma pick_best_in (l : list med) :
  forall b s m, pick_best l b s = Some m -> In m l \/ b = Some m.
Proof.
  induction l as [|x l IH]; intros b s m H; simpl in *; [now right|].
  destruct (gtb (score x) s).
  - destruct (IH _ _ _ H) as [Hin | Heq]; [now left; right|].
    inversion Heq. now left; left.
  - destruct (IH _ _ _ H) as [Hin | Heq]; [now left; right | now right].
Qed.

Lemma pick_best_some (l : list med) :
  forall b s, exists m, pick_best l (Some b) s = Some m.
Proof.
  induction l as [|x l IH]; intros b s; simpl; [now exists b|].
  destruct (gtb (score x) s); apply IH.
Qed.

Lemma backfill_keeps (b m : med) :
  name (backfill b m) = name b /\ confidence (backfill b m) = confidence b.
Proof.
  unfold backfill.
  repeat match goal with
         | |- context [if ?c then _ else _] => destruct c
         end; simpl; auto.
Qed.

Lemma fold_backfill_keeps (l : list med) :
  forall b,
    name (fold_left backfill l b) = name b /\
    confidence (fold_left backfill l b) = confidence b.
Proof.
  induction l as [|x l IH]; intros b; simpl; [auto|].
  destruct (IH (backfill b x)) as [Hn Hc].
  destruct (backfill_keeps b x) as [Hn' Hc'].
  rewrite Hn, Hc. auto.
Qed.

Lemma reduce_group_from (g : list med) (b : med) :
  reduce_group g = Ok b ->
  exists m, In m g /\ name b = name m /\ confidence b = confidence m.
Proof.
  unfold reduce_group. destruct (pick_best g None (-1)%Q) as [m|] eqn:E;
    [|discriminate].
  intros H. inversion H; subst.
  destruct (pick_best_in _ _ _ _ E) as [Hin | Habs]; [|discriminate].
  exists m. split; [exact Hin|]. apply fold_backfill_keeps.
Qed.

Lemma merge_groups_from (Q : med -> Prop) (values : list (list med)) :
  forall merged M,
    merge_groups values merged = Ok M ->
    Forall (Forall Q) values ->
    Forall (fun r => exists m, Q m /\ name r = name m
                               /\ confidence r = confidence m) merged ->
    Forall (fun r => exists m, Q m /\ name r = name m
                               /\ confidence r = confidence m) M /\
    List.length M <= List.length merged + List.length values.
Proof.
  induction values as [|g tl IH]; intros merged M H HV HM; simpl in H.
  - inversion H; subst. split; [exact HM | lia].
  - inversion HV as [|? ? Hg Htl]; subst.
    destruct g as [|x g].
    + destruct (IH _ _ H Htl HM) as [HF HL]. split; [exact HF | simpl; lia].
    + destruct (reduce_group (x :: g)) as [b|e] eqn:E; simpl in H;
        [|discriminate].
      destruct (reduce_group_from _ _ E) as [m [Hin [Hn Hc]]].
      assert (HM' : Forall (fun r => exists m, Q m /\ name r = name m
                                     /\ confidence r = confidence m)
                      (merged ++ [b])%list).
      { apply Forall_app. split; [exact HM|]. constructor; [|constructor].
        exists m. split; [|auto]. rewrite Forall_forall in Hg. now apply Hg. }
      destruct (IH _ _ H Htl HM') as [HF HL]. split; [exact HF|].
      rewrite length_app in HL. simpl in *. lia.
Qed.

(** What [merge_medications] returns: no more records than candidates,
    each with the name and the confidence of a candidate that passed the
    name test. *)
Lemma merge_medications_from (L M : list med) :
  merge_medications L = Ok M ->
  Forall (stems_from L) M /\ List.length M <= List.length L.
Proof.
  unfold merge_medications. intros H.
  pose proof (fold_group_step_length L []) as Hlen.
  assert (HQ : Forall (fun m => In m L /\ invalid_name (strip (name m)) = false)
                 (members (fold_left group_step L []))).
  { apply fold_group_step_members; [constructor|].
    apply Forall_forall. intros m Hin Hv. auto. }
  unfold members in HQ. apply Forall_concat in HQ.
  destruct (merge_groups_from _ _ _ _ H HQ (Forall_nil _)) as [HF HL].
  split.
  - revert HF. apply Forall_impl. intros r [m [[Hin Hv] [Hn Hc]]].
    exists m. auto.
  - rewrite length_map in HL. simpl in *. lia.
Qed.

(** *** When the merger returns *)

Lemma inject_nonneg (z : Z) : (0 <= z)%Z -> (0 <= inject_Z z)%Q.
Proof. intros H. unfold Qle. simpl. lia. Qed.

Lemma field_scores_nonneg (m : med) :
  (0 <= dosage_score (dosage m) + frequency_score (frequency m)
        + duration_score (duration m))%Z.
Proof.
  unfold dosage_score, frequency_score, duration_score.
  repeat match goal with
         | |- context [if ?c then _ else _] => destruct c
         end; lia.
Qed.

Lemma score_above_start (m : med) :
  nonneg_confidence m -> gtb (score m) (-1)%Q = true.
Proof.
  unfold nonneg_confidence, gtb, score. intros Hc.
  apply negb_true_iff. destruct (Qle_bool _ _) eqn:E; [|reflexivity].
  apply Qle_bool_iff in E.
  pose proof (inject_nonneg _ (field_scores_nonneg m)). lra.
Qed.

Lemma reduce_group_returns (x : med) (g : list med) :
  nonneg_confidence x -> exists b, reduce_group (x :: g) = Ok b.
Proof.
  intros Hx. unfold reduce_group. simpl.
  rewrite (score_above_start x Hx).
  destruct (pick_best_some g x (score x)) as [m ->]. eauto.
Qed.

Lemma merge_groups_returns (values : list (list med)) :
  forall merged,
    Forall (Forall nonneg_confidence) values ->
    exists M, merge_groups values merged = Ok M.
Proof.
  induction values as [|g tl IH]; intros merged HV; simpl; [eauto|].
  inversion HV as [|? ? Hg Htl]; subst.
  destruct g as [|x g]; [now apply IH|].
  inversion Hg; subst.
  destruct (reduce_group_returns x g) as [b ->]; auto.
  simpl. now apply IH.
Qed.

Lemma merge_medications_returns (L : list med) :
  Forall nonneg_confidence L -> exists M, merge_medications L = Ok M.
Proof.
  intros HL. unfold merge_medications. apply merge_groups_returns.
  apply Forall_concat. fold (members (fold_left group_step L [])).
  apply fold_group_step_members; [constructor|].
  revert HL. apply Forall_impl. auto.
Qed.

End MergeFacts.

(* ================================================================== *)
(** ** Merging a merged list again *)
(* ================================================================== *)

Module RemergeFacts.

Import AIProcessor Notions StrFacts CharFacts MergeFacts.

Lemma find_group_key_none (keys : list string) (k : string) :
  forallb (fun k' => negb (related k' k)) keys = true ->
  find_group_key keys k = None.
Proof.
  induction keys as [|k' tl IH]; simpl; [reflexivity|].
  rewrite andb_true_iff, negb_true_iff. unfold related at 1.
  intros [Hk Htl]. rewrite Hk. auto.
Qed.

Lemma dict_set_fresh {V : Type} (d : dict V) (k : string) (v : V) :
  forallb (fun k' => negb (String.eqb k' k)) (map fst d) = true ->
  dict_set d k v = (d ++ [(k, v)])%list.
Proof.
  induction d as [|[k' v'] tl IH]; simpl; [reflexivity|].
  rewrite andb_true_iff, negb_true_iff. intros [Hk Htl].
  rewrite Hk, IH; auto.
Qed.

Lemma group_append_last (groups : dict (list med)) (k : string)
    (l : list med) (m : med) :
  forallb (fun k' => negb (String.eqb k' k)) (map fst groups) = true ->
  group_append (groups ++ [(k, l)])%list k m
  = (groups ++ [(k, (l ++ [m])%list)])%list.
Proof.
  induction groups as [|[k' l'] tl IH]; simpl.
  - now rewrite String.eqb_refl.
  - rewrite andb_true_iff, negb_true_iff. intros [Hk Htl].
    rewrite Hk, IH; auto.
Qed.

Lemma unrelated_distinct (keys : list string) (k : string) :
  forallb (fun k' => negb (related k' k)) keys = true ->
  forallb (fun k' => negb (String.eqb k' k)) keys = true.
Proof.
  rewrite !forallb_forall. intros H x Hx. specialize (H x Hx).
  unfold related in H. rewrite negb_true_iff in *.
  apply orb_false_elim in H. destruct H as [H _].
  apply orb_false_elim in H. now destruct H.
Qed.

(** A candidate with a name unrelated to every key opens a group of its
    own, after the others. *)
Lemma group_step_new (groups : dict (list med)) (m : med) :
  invalid_name (strip (name m)) = false ->
  forallb (fun k' => negb (related k' (key m))) (map fst groups) = true ->
  group_step groups m = (groups ++ [(key m, [m])])%list.
Proof.
  intros Hv Hk. unfold group_step. rewrite Hv. fold (key m).
  rewrite (find_group_key_none _ _ Hk).
  pose proof (unrelated_distinct _ _ Hk) as Hd.
  rewrite (dict_set_fresh _ _ _ Hd). now apply group_append_last.
Qed.

Lemma fold_group_step_singletons (M : list med) :
  forall groups,
    Forall (fun m => invalid_name (strip (name m)) = false) M ->
    forallb (fun k' => forallb (fun k => negb (related k' k)) (map key M))
      (map fst groups) = true ->
    pairwise_unrelated (map key M) = true ->
    fold_left group_step M groups
    = (groups ++ map (fun m => (key m, [m])) M)%list.
Proof.
  induction M as [|m M IH]; intros groups HV HG HP; simpl.
  - now rewrite app_nil_r.
  - inversion HV as [|? ? Hm HM]; subst.
    simpl in HP. apply andb_true_iff in HP. destruct HP as [Hm' HP].
    assert (Hk : forallb (fun k' => negb (related k' (key m)))
                   (map fst groups) = true).
    { rewrite forallb_forall in *. intros x Hx. specialize (HG x Hx).
      simpl in HG. now apply andb_true_iff in HG. }
    rewrite (group_step_new _ _ Hm Hk), IH; auto.
    + now rewrite <- app_assoc.
    + rewrite map_app, forallb_app. apply andb_true_iff. split.
      * rewrite forallb_forall in *. intros x Hx. specialize (HG x Hx).
        simpl in HG. now apply andb_true_iff in HG.
      * simpl. now rewrite Hm'.
Qed.

Lemma opt_eqb_refl {A : Type} (eqb : A -> A -> bool) (o : option A) :
  (forall x, eqb x x = true) -> opt_eqb eqb o o = true.
Proof. intros H. destruct o; simpl; auto. Qed.

Lemma med_eqb_refl (m : med) : med_eqb m m = true.
Proof.
  unfold med_eqb.
  rewrite !String.eqb_refl, !opt_eqb_refl;
    auto using String.eqb_refl, Qeq_bool_refl.
Qed.

(** A group of one record that scores above the start is reduced to
    that record. *)
Lemma reduce_group_single (r : med) :
  gtb (score r) (-1)%Q = true -> reduce_group [r] = Ok r.
Proof.
  intros H. unfold reduce_group. simpl. rewrite H. simpl.
  unfold backfill. now rewrite med_eqb_refl.
Qed.

Lemma merge_groups_singletons (M : list med) :
  forall merged,
    Forall (fun r => gtb (score r) (-1)%Q = true) M ->
    merge_groups (map (fun r => [r]) M) merged = Ok (merged ++ M)%list.
Proof.
  induction M as [|r M IH]; intros merged HM; simpl.
  - now rewrite app_nil_r.
  - inversion HM; subst.
    change (match reduce_group [r] with
            | Ok a => merge_groups (map (fun r => [r]) M) (merged ++ [a])%list
            | Raise e => Raise e
            end = Ok (merged ++ r :: M)%list).
    rewrite reduce_group_single; auto. rewrite IH; auto.
    now rewrite <- app_assoc.
Qed.

(** A list of records that pass the name test, score above the start
    and have pairwise unrelated names is returned as it is. *)
Lemma merge_medications_fixed (M : list med) :
  Forall (fun m => invalid_name (strip (name m)) = false) M ->
  Forall (fun r => gtb (score r) (-1)%Q = true) M ->
  pairwise_unrelated (map key M) = true ->
  merge_medications M = Ok M.
Proof.
  intros HV HS HP. unfold merge_medications.
  rewrite (fold_group_step_singletons M [] HV eq_refl HP). simpl.
  rewrite map_map. simpl. now rewrite merge_groups_singletons.
Qed.

End RemergeFacts.

(* ================================================================== *)
(** ** The extractors *)
(* ================================================================== *)

Module ExtractFacts.

Import AIProcessor Notions StrFacts CharFacts ReFacts CleanFacts MergeFacts.

Lemma find_from_eqb (sub s : string) :
  forall i, (0 <= i)%Z ->
    (find_from i sub s =? -1)%Z = negb (contains sub s).
Proof.
  induction s as [|c s IH]; intros i Hi.
  - cbn [find_from contains]. rewrite orb_false_r.
    destruct (prefix sub ""); simpl; [apply Z.eqb_neq; lia | reflexivity].
  - cbn [find_from contains].
    destruct (prefix sub (String c s)); simpl; [apply Z.eqb_neq; lia|].
    apply IH. lia.
Qed.

Lemma find_missing (s sub : string) :
  (find s sub =? -1)%Z = negb (contains sub s).
Proof. unfold find. now apply find_from_eqb. Qed.

Lemma groups_members_in_text (r : Re.regex) (text : string) (x : Re.mtch)
    (g : string) :
  In (Some g) (Re.groups r text x) -> contains g text = true.
Proof.
  unfold Re.groups. intros H. apply in_map_iff in H.
  destruct H as [n [Hg _]]. eapply group_in_text; eauto.
Qed.

Lemma first_dosage_returns (pats : list Re.regex) (s : string) :
  exists o, first_dosage pats s = Ok o.
Proof.
  induction pats as [|r pats IH]; cbn [first_dosage]; [eauto|].
  destruct (Re.findall true r s) as [|f tl] eqn:E; [exact IH|].
  destruct f as [str|l]; [eauto|].
  destruct l as [|a [|b l]]; eauto.
  exfalso. unfold Re.findall in E.
  destruct (Re.finditer true r s) as [|x xs]; [discriminate|].
  cbn [map] in E. inversion E as [[Hx Hxs]].
  apply found_of_tuple in Hx. simpl in Hx. lia.
Qed.

Section WithFuzzy.
Variable fm : option (string -> string -> bool).

(** *** A mention that occurs in the text is located without the
    fuzzy fallback *)

Lemma extract_dosage_located (text mention : string) :
  contains (lower mention) (lower text) = true ->
  exists d, extract_dosage_near_medication fm text mention = Ok d.
Proof.
  intros H. unfold extract_dosage_near_medication.
  rewrite find_missing, H. cbn [negb bind].
  destruct (first_dosage_returns dosage_patterns
              (window text (find (lower text) (lower mention)) 50 150))
    as [o ->].
  cbn [bind]. destruct o; [eauto|].
  destruct (first_common_number _); eauto.
Qed.

Lemma extract_frequency_located (text mention : string) :
  contains (lower mention) (lower text) = true ->
  exists f, extract_frequency_near_medication fm text mention = Ok f.
Proof.
  intros H. unfold extract_frequency_near_medication.
  rewrite find_missing, H. cbn [negb bind].
  destruct (first_timing _ _); [eauto|].
  destruct (first_frequency _ _); [eauto|].
  destruct (generic_timing _); eauto.
Qed.

(** *** The lexicon extractor *)

Lemma try_variations_returns (text med_name : string)
    (found variations : list string) :
  exists o, try_variations fm text (lower text) med_name found variations
            = Ok o.
Proof.
  induction variations as [|v tl IH]; cbn [try_variations]; [eauto|].
  destruct (contains v (lower text)) eqn:Hv; cbn [andb]; [|exact IH].
  destruct (negb (mem med_name found)); [|exact IH].
  assert (Hl : contains (lower v) (lower text) = true).
  { rewrite <- (lower_idem text). now apply contains_lower. }
  destruct (extract_dosage_located text v Hl) as [d ->].
  destruct (extract_frequency_located text v Hl) as [f ->].
  cbn [bind]. eauto.
Qed.

Lemma rule_based_loop_returns (text : string) (db : dict (list string)) :
  forall meds found,
    exists M, rule_based_loop fm text (lower text) db meds found = Ok M.
Proof.
  induction db as [|[k vs] db IH]; intros meds found; cbn [rule_based_loop];
    [eauto|].
  destruct (try_variations_returns text k found vs) as [o ->].
  cbn [bind]. destruct o; apply IH.
Qed.

Lemma rule_based_extraction_returns (text : string) :
  exists M, rule_based_extraction fm text = Ok M.
Proof. apply rule_based_loop_returns. Qed.

Lemma try_variations_no_pair (text text_lower med_name : string)
    (found variations : list string) :
  forallb (letter_pair false) variations = true ->
  letter_pair false text_lower = false ->
  try_variations fm text text_lower med_name found variations = Ok None.
Proof.
  intros Hv Ht. induction variations as [|v tl IH]; cbn [try_variations];
    [reflexivity|].
  cbn [forallb] in Hv. apply andb_true_iff in Hv. destruct Hv as [Hv Htl].
  destruct (contains v text_lower) eqn:E.
  - now rewrite (letter_pair_contains _ _ E Hv) in Ht.
  - cbn [andb]. now apply IH.
Qed.

Lemma rule_based_loop_no_pair (text text_lower : string)
    (db : dict (list string)) :
  forallb (fun kv => forallb (letter_pair false) (snd kv)) db = true ->
  letter_pair false text_lower = false ->
  forall meds found,
    rule_based_loop fm text text_lower db meds found = Ok meds.
Proof.
  intros Hdb Ht. induction db as [|[k vs] db IH]; intros meds found;
    cbn [rule_based_loop]; [reflexivity|].
  cbn [forallb snd] in Hdb. apply andb_true_iff in Hdb.
  destruct Hdb as [Hvs Hdb].
  rewrite try_variations_no_pair; auto.
  cbn [bind]. now apply IH.
Qed.

Lemma rule_based_extraction_no_pair (text : string) :
  letter_pair false text = false -> rule_based_extraction fm text = Ok [].
Proof.
  intros H. unfold rule_based_extraction.
  apply rule_based_loop_no_pair; [reflexivity|].
  now rewrite letter_pair_lower.
Qed.

(** *** The pattern extractor *)

Lemma name_and_dosage_reads (text : string) (x : Re.mtch)
    (groups : list (option string)) :
  List.length groups <> 0 -> List.length groups <> 2 ->
  exists o d, name_and_dosage text x groups = Ok (o, d) /\
              forall g, o = Some g -> In (Some g) groups.
Proof.
  intros H0 H2. unfold name_and_dosage.
  destruct groups as [|a [|b [|c [|d tl]]]]; cbn [List.length] in *;
    try lia; cbn; eexists; eexists; (split; [reflexivity|]);
    intros g ->; cbn; auto.
Qed.

Lemma handle_match_keeps (text : string) (pattern : Re.regex) (x : Re.mtch)
    (state : list med * list string) :
  readable pattern = true ->
  Forall (named_from text) (fst state) ->
  exists state', handle_match fm text pattern x state = Ok state' /\
                 Forall (named_from text) (fst state').
Proof.
  intros Hr HF. destruct state as [meds found]. unfold handle_match.
  unfold readable in Hr. apply andb_true_iff in Hr.
  rewrite !negb_true_iff, !Nat.eqb_neq in Hr. destruct Hr as [H0 H2].
  destruct (name_and_dosage_reads text x (Re.groups pattern text x))
    as [o [d [-> Hin]]]; rewrite ?groups_length; auto.
  cbn [bind fst snd]. destruct o as [med_name|]; [|eauto].
  destruct (_ || _ || _); [eauto|].
  destruct (mem _ found); [eauto|].
  assert (Hc : contains med_name text = true).
  { eapply groups_members_in_text. now apply Hin. }
  destruct (extract_frequency_located text med_name (contains_lower _ _ Hc))
    as [f ->].
  cbn [bind]. eexists. split; [reflexivity|]. cbn [fst].
  apply Forall_app. split; [exact HF|]. constructor; [|constructor].
  exists med_name. auto.
Qed.

Lemma matches_loop_keeps (text : string) (pattern : Re.regex)
    (matches : list Re.mtch) :
  readable pattern = true ->
  forall state,
    Forall (named_from text) (fst state) ->
    exists state', matches_loop fm text pattern matches state = Ok state' /\
                   Forall (named_from text) (fst state').
Proof.
  intros Hr. induction matches as [|x tl IH]; intros state HF;
    cbn [matches_loop]; [eauto|].
  destruct (handle_match_keeps text pattern x state Hr HF) as [s1 [-> H1]].
  cbn [bind]. now apply IH.
Qed.

Lemma patterns_loop_keeps (text : string) (pats : list Re.regex) :
  forallb readable pats = true ->
  forall state,
    Forall (named_from text) (fst state) ->
    exists state', patterns_loop fm text pats state = Ok state' /\
                   Forall (named_from text) (fst state').
Proof.
  induction pats as [|r pats IH]; intros Hr state HF; cbn [patterns_loop];
    [eauto|].
  cbn [forallb] in Hr. apply andb_true_iff in Hr. destruct Hr as [Hr Hrs].
  destruct (matches_loop_keeps text r (Re.finditer true r text) Hr state HF)
    as [s1 [-> H1]].
  cbn [bind]. now apply IH.
Qed.

Lemma pattern_based_extraction_named (text : string) :
  exists M, pattern_based_extraction fm text = Ok M /\
            Forall (named_from text) M.
Proof.
  unfold pattern_based_extraction.
  destruct (patterns_loop_keeps text patterns eq_refl ([], []) (Forall_nil _))
    as [s [-> H]].
  cbn [bind]. eauto.
Qed.

Lemma patterns_loop_no_pair (text : string) (pats : list Re.regex) :
  forallb must_pair pats = true -> letter_pair false text = false ->
  forall state, patterns_loop fm text pats state = Ok state.
Proof.
  intros Hm Ht. induction pats as [|r pats IH]; intros state;
    cbn [patterns_loop]; [reflexivity|].
  cbn [forallb] in Hm. apply andb_true_iff in Hm. destruct Hm as [Hr Hrs].
  rewrite finditer_no_pair; auto. cbn [matches_loop bind]. now apply IH.
Qed.

Lemma pattern_based_extraction_no_pair (text : string) :
  letter_pair false text = false -> pattern_based_extraction fm text = Ok [].
Proof.
  intros H. unfold pattern_based_extraction.
  rewrite patterns_loop_no_pair; auto.
Qed.

(** *** The pipeline *)

(** A text in which no two letters stand side by side yields nothing. *)
Lemma extract_medications_no_pair (text : string) :
  letter_pair false text = false -> extract_medications fm text = Ok [].
Proof.
  intros H. unfold extract_medications.
  rewrite rule_based_extraction_no_pair, pattern_based_extraction_no_pair
    by now rewrite letter_pair_clean_text.
  reflexivity.
Qed.

Lemma rule_candidate_confidence (text text_lower med_name : string)
    (found variations : list string) (m : med) :
  try_variations fm text text_lower med_name found variations = Ok (Some m) ->
  nonneg_confidence m.
Proof.
  induction variations as [|v tl IH]; cbn [try_variations]; [discriminate|].
  destruct (_ && _); [|exact IH].
  destruct (extract_dosage_near_medication fm text v); [|discriminate].
  destruct (extract_frequency_near_medication fm text v); [|discriminate].
  cbn [bind]. intros H. inversion H. unfold nonneg_confidence, confidence_of.
  cbn. unfold Qle. simpl. lia.
Qed.

Lemma rule_based_loop_confidence (text text_lower : string)
    (db : dict (list string)) :
  forall meds found M,
    Forall nonneg_confidence meds ->
    rule_based_loop fm text text_lower db meds found = Ok M ->
    Forall nonneg_confidence M.
Proof.
  induction db as [|[k vs] db IH]; intros meds found M HF;
    cbn [rule_based_loop].
  - intros H. now inversion H; subst.
  - destruct (try_variations fm text text_lower k found vs) as [o|e] eqn:E;
      [|discriminate].
    cbn [bind]. destruct o as [m|]; [|now apply IH].
    apply IH. apply Forall_app. split; [exact HF|].
    constructor; [|constructor]. eapply rule_candidate_confidence; eauto.
Qed.

Lemma handle_match_confidence (text : string) (pattern : Re.regex)
    (x : Re.mtch) (state state' : list med * list string) :
  Forall nonneg_confidence (fst state) ->
  handle_match fm text pattern x state = Ok state' ->
  Forall nonneg_confidence (fst state').
Proof.
  destruct state as [meds found]. unfold handle_match. intros HF.
  destruct (name_and_dosage _ _ _) as [[o d]|e]; [|discriminate].
  cbn [bind fst snd].
  destruct o as [med_name|]; [|now intros H; inversion H; subst].
  destruct (_ || _ || _); [now intros H; inversion H; subst|].
  destruct (mem _ found); [now intros H; inversion H; subst|].
  destruct (extract_frequency_near_medication fm text med_name);
    [|discriminate].
  cbn [bind]. intros H. inversion H; subst. cbn [fst].
  apply Forall_app. split; [exact HF|]. constructor; [|constructor].
  unfold nonneg_confidence, confidence_of. cbn. unfold Qle. simpl. lia.
Qed.

Lemma matches_loop_confidence (text : string) (pattern : Re.regex)
    (matches : list Re.mtch) :
  forall state state',
    Forall nonneg_confidence (fst state) ->
    matches_loop fm text pattern matches state = Ok state' ->
    Forall nonneg_confidence (fst state').
Proof.
  induction matches as [|x tl IH]; intros state state' HF;
    cbn [matches_loop].
  - intros H. now inversion H; subst.
  - destruct (handle_match fm text pattern x state) as [s1|e] eqn:E;
      [|discriminate].
    cbn [bind]. apply IH. eapply handle_match_confidence; eauto.
Qed.

Lemma patterns_loop_confidence (text : string) (pats : list Re.regex) :
  forall state state',
    Forall nonneg_confidence (fst state) ->
    patterns_loop fm text pats state = Ok state' ->
    Forall nonneg_confidence (fst state').
Proof.
  induction pats as [|r pats IH]; intros state state' HF;
    cbn [patterns_loop].
  - intros H. now inversion H; subst.
  - destruct (matches_loop fm text r _ state) as [s1|e] eqn:E;
      [|discriminate].
    cbn [bind]. apply IH. eapply matches_loop_confidence; eauto.
Qed.

(** The pipeline returns for every text, and what it returns stems from
    candidates that passed the name test of the merger. *)
Lemma extract_medications_returns (text : string) :
  exists M, extract_medications fm text = Ok M /\
            Forall (fun r => acceptable_name (name r) = true) M.
Proof.
  unfold extract_medications.
  destruct (rule_based_extraction_returns (clean_text text)) as [R HR].
  destruct (pattern_based_extraction_named (clean_text text)) as [P [HP _]].
  rewrite HR, HP. cbn [bind].
  assert (HC : Forall nonneg_confidence (R ++ P)%list).
  { apply Forall_app. split.
    - unfold rule_based_extraction in HR.
      eapply rule_based_loop_confidence; [|exact HR]. constructor.
    - unfold pattern_based_extraction in HP.
      destruct (patterns_loop fm (clean_text text) patterns ([], []))
        as [s|e] eqn:E; [|discriminate].
      cbn [bind] in HP. inversion HP; subst.
      eapply patterns_loop_confidence; [|exact E]. constructor. }
  destruct (merge_medications_returns _ HC) as [M HM].
  exists M. split; [exact HM|].
  destruct (merge_medications_from _ _ HM) as [HF _].
  revert HF. apply Forall_impl. intros r [m [_ [Hv [Hn _]]]].
  rewrite Hn. now apply passes_filter_acceptable.
Qed.

End WithFuzzy.

End ExtractFacts.

(* ================================================================== *)
(** ** The cleaner of the recogniser *)
(* ================================================================== *)

Module RecogniserFacts.

Import Notions StrFacts CharFacts ReFacts CleanFacts.

Lemma match_at_lone (a : ascii) (p : nat) (pv : option ascii) (s : string) :
  is_word a = true ->
  Re.match_at false (Re.Seq Re.Bound (Re.Seq (Re.Lit a) Re.Bound)) p pv s
  = match s with
    | String c s' =>
        if Ascii.eqb c a && negb (Re.word_opt pv) && negb (starts_word s')
        then Some (Re.mkMatch p (S p) []) else None
    | EmptyString => None
    end.
Proof.
  intros Ha. unfold Re.match_at. cbn [Re.run]. unfold Re.at_boundary, Re.eat.
  cbn [Re.rest Re.prev Re.pos Re.caps].
  destruct s as [|c s'].
  - cbn [Re.next_char Re.word_opt]. rewrite xorb_false_r.
    now destruct (Re.word_opt pv).
  - cbn [Re.next_char Re.word_opt]. unfold Re.lit_matches.
    rewrite (Ascii.eqb_sym a c).
    destruct (Ascii.eqb c a) eqn:E.
    + apply Ascii.eqb_eq in E. subst c. rewrite Ha.
      destruct (Re.word_opt pv); cbn [xorb negb andb]; [reflexivity|].
      cbn [Re.rest Re.prev Re.pos Re.caps Re.word_opt].
      rewrite Ha. destruct s' as [|d s'']; cbn [Re.next_char Re.word_opt starts_word].
      * reflexivity.
      * now destruct (is_word d).
    + cbn [andb]. now destruct (xorb (Re.word_opt pv) (is_word c)).
Qed.

Lemma sub_lone (a b : ascii) (s : string) :
  is_word a = true ->
  forall p pv,
    Re.sub_go false (Re.Seq Re.Bound (Re.Seq (Re.Lit a) Re.Bound))
      (String b "") 0 p pv s
    = replace_lone a b (Re.word_opt pv) s.
Proof.
  intros Ha. induction s as [|c s IH]; intros p pv.
  - cbn [Re.sub_go replace_lone]. now rewrite match_at_lone.
  - cbn [Re.sub_go replace_lone]. rewrite match_at_lone by exact Ha.
    destruct (Ascii.eqb c a && negb (Re.word_opt pv) && negb (starts_word s)).
    + cbn [Re.m_end]. assert (Hlt : (p <? S p)%nat = true)
        by (apply Nat.ltb_lt; lia).
      rewrite Hlt. replace (S p - p - 1) with 0 by lia.
      rewrite IH. reflexivity.
    + now rewrite IH.
Qed.

(** The cleaner of the recogniser is the cleaner of the extractor
    followed by the two replacements of single characters. *)
Lemma recogniser_clean_text_steps (raw : string) :
  PrescriptionOCR.clean_text raw
  = replace_lone "l" "I" false
      (replace_lone "0" "O" false (AIProcessor.clean_text raw)).
Proof.
  unfold PrescriptionOCR.clean_text, AIProcessor.clean_text, Re.sub.
  cbv zeta.
  change (Re.compile "\b0\b")
    with (Re.Seq Re.Bound (Re.Seq (Re.Lit "0") Re.Bound)).
  change (Re.compile "\bl\b")
    with (Re.Seq Re.Bound (Re.Seq (Re.Lit "l") Re.Bound)).
  rewrite (sub_lone "l" "I" _ eq_refl), (sub_lone "0" "O" _ eq_refl).
  reflexivity.
Qed.





End RecogniserFacts.

(* ================================================================== *)
(** ** The claims *)
(* ================================================================== *)

Module Claims.

Import AIProcessor Notions StrFacts CharFacts ReFacts CleanFacts MergeFacts
  RemergeFacts ExtractFacts RecogniserFacts.

(** *** The worked example *)

Lemma augmentin_cleaned : clean_text augmentin_text = augmentin_text.
Proof. vm_compute. reflexivity. Qed.

Lemma augmentin_by_lexicon :
  rule_based_extraction self_fuzzy_match augmentin_text
  = Ok [augmentin_record (8 # 10) "rule_based"].
Proof. vm_compute. reflexivity. Qed.

Lemma augmentin_by_pattern :
  pattern_based_extraction self_fuzzy_match augmentin_text
  = Ok [augmentin_record (7 # 10) "pattern_based"].
Proof. vm_compute. reflexivity. Qed.

Lemma augmentin_merged :
  merge_medications [augmentin_record (8 # 10) "rule_based";
                     augmentin_record (7 # 10) "pattern_based"]
  = Ok [augmentin_record (8 # 10) "rule_based"].
Proof. vm_compute. reflexivity. Qed.

(** C1. On the text "Tab. Augmentin 625mg 1-0-1 x 5 days" the pipeline
    returns one record: name "Augmentin", dosage "625 mg", frequency
    "twice daily (morning & night)", duration "5 days". *)
Theorem augmentin_prescription_record :
  extract_medications_any self_fuzzy_match (PyStr augmentin_text)
  = Ok [mkMed "Augmentin" "625 mg" "twice daily (morning & night)" "5 days"
          (Some "Take 1 dose in the morning and 1 dose at night")
          (Some (8 # 10)%Q) (Some "rule_based")].
Proof.
  unfold extract_medications_any, clean_text_any. cbn [bind].
  rewrite augmentin_cleaned, augmentin_by_lexicon, augmentin_by_pattern.
  cbn [bind app]. exact augmentin_merged.
Qed.

(** *** Merging twice *)

(** C5, as stated, fails: the merge of "Amox", "Amoxicillin" and
    "Cillin" keeps "Amoxicillin" for the group opened by "Amox" and
    "Cillin" apart; merged again, "Cillin" joins the group that
    "Amoxicillin" now opens, and one record is left. *)
Lemma merge_twice_differs :
  merge_medications [amox; amoxicillin; cillin] = Ok [amoxicillin; cillin] /\
  merge_medications [amoxicillin; cillin] = Ok [amoxicillin].
Proof. split; vm_compute; reflexivity. Qed.

(** C5, amended. Merging the output of a merge again returns the same
    list whenever no two names of that output, trimmed and lower-cased,
    are equal or contain one another (candidates with ASCII fields and
    confidences that are not negative). *)
Theorem remerge_of_unrelated_names_is_identity (L M : list med) :
  forallb ascii_candidate L = true ->
  Forall nonneg_confidence L ->
  merge_medications L = Ok M ->
  pairwise_unrelated (map key M) = true ->
  merge_medications M = Ok M.
Proof.
  intros _ HC HM HP.
  destruct (merge_medications_from L M HM) as [HF _].
  apply merge_medications_fixed; [| |exact HP].
  - revert HF. apply Forall_impl. intros r [m [_ [Hv [Hn _]]]].
    now rewrite Hn.
  - rewrite Forall_forall in *. intros r Hr.
    destruct (HF r Hr) as [m [Hin [_ [_ Hc]]]].
    apply score_above_start. unfold nonneg_confidence, confidence_of.
    rewrite Hc. exact (HC m Hin).
Qed.

Lemma remerge_of_unrelated_names_witness :
  merge_medications [augmentin_record (8 # 10) "rule_based"; cillin]
  = Ok [augmentin_record (8 # 10) "rule_based"; cillin].
Proof.
  apply (remerge_of_unrelated_names_is_identity
           [augmentin_record (8 # 10) "rule_based";
            augmentin_record (7 # 10) "pattern_based"; cillin]).
  - vm_compute. reflexivity.
  - repeat constructor; unfold nonneg_confidence, Qle; simpl; lia.
  - vm_compute. reflexivity.
  - vm_compute. reflexivity.
Defined.

(** *** Inputs that are not text, and text without letters *)

(** C6, as stated, fails: [None], a number or [bytes] make the cleaner
    and the pipeline raise, and a string of letters that names no
    medication can still yield a candidate. *)
Lemma extraction_of_non_strings_raises :
  clean_text_any PyNone = Raise AttributeError /\
  clean_text_any (PyInt 5) = Raise AttributeError /\
  clean_text_any (PyBytes "") = Raise TypeError /\
  extract_medications_any self_fuzzy_match PyNone = Raise AttributeError /\
  extract_medications_any self_fuzzy_match (PyStr "qzx 7 g")
  = Ok [mkMed "Qzx" "7 g" "daily" "7 days" (Some "daily") (Some (7 # 10)%Q)
          (Some "pattern_based")].
Proof. repeat split; vm_compute; reflexivity. Qed.

(** C6, amended. On the empty string and on every ASCII string in which
    no two letters stand side by side (so on every string of digits and
    symbols) the cleaner returns a string and the pipeline returns the
    empty list, and neither raises. *)
Theorem extraction_of_garbage_is_empty
    (fm : option (string -> string -> bool)) (text : string) :
  ascii_text text = true ->
  letter_pair false text = false ->
  clean_text_any (PyStr "") = Ok "" /\
  clean_text_any (PyStr text) = Ok (clean_text text) /\
  letter_pair false (clean_text text) = false /\
  extract_medications_any fm (PyStr "") = Ok [] /\
  extract_medications_any fm (PyStr text) = Ok [].
Proof.
  intros _ H.
  assert (E : forall t, letter_pair false t = false ->
                        extract_medications_any fm (PyStr t) = Ok []).
  { intros t Ht. unfold extract_medications_any, clean_text_any. cbn [bind].
    now apply (extract_medications_no_pair fm t). }
  split; [vm_compute; reflexivity|].
  split; [reflexivity|].
  split; [now rewrite letter_pair_clean_text|].
  split; [now apply E | now apply E].
Qed.

Lemma extraction_of_garbage_witness :
  clean_text_any (PyStr "") = Ok "" /\
  clean_text_any (PyStr "x#@!q 12 %$ g") = Ok (clean_text "x#@!q 12 %$ g") /\
  letter_pair false (clean_text "x#@!q 12 %$ g") = false /\
  extract_medications_any self_fuzzy_match (PyStr "") = Ok [] /\
  extract_medications_any self_fuzzy_match (PyStr "x#@!q 12 %$ g") = Ok [].
Proof.
  apply (extraction_of_garbage_is_empty self_fuzzy_match "x#@!q 12 %$ g");
    vm_compute; reflexivity.
Defined.

(** *** Placeholder names *)

Lemma lower_title_go (s : string) :
  forall b, lower (title_go b s) = lower s.
Proof.
  unfold lower. induction s as [|c s IH]; intros b; simpl; [reflexivity|].
  rewrite IH. f_equal.
  destruct (is_alpha c); [destruct b|]; auto using lower_char_idem,
    lower_upper_char.
Qed.

Lemma titled_placeholder_in_text (text g : string) :
  contains g text = true -> title g = "Unknown Medication" ->
  contains "unknown medication" (lower text) = true.
Proof.
  intros Hc Ht. apply contains_lower in Hc.
  unfold title in Ht. rewrite <- (lower_title_go g false), Ht in Hc.
  exact Hc.
Qed.

(** No pattern of the list has two groups, so the branch of the loop
    body that scans forward for a name, and falls back on "Unknown
    Medication", is not taken: for every ASCII text the pattern
    extractor returns, the name of each candidate is the title-cased
    form of a piece of the text, and a candidate has the name "Unknown
    Medication" only if the text spells it. *)
Lemma pattern_candidates_are_named_from_the_text
    (fm : option (string -> string -> bool)) (text : string) :
  ascii_text text = true ->
  forallb (fun r => negb (Re.ngroups r =? 2)%nat) patterns = true /\
  exists M,
    pattern_based_extraction fm text = Ok M /\
    Forall (fun c =>
              named_from text c /\
              (name c = "Unknown Medication" ->
               contains "unknown medication" (lower text) = true)) M.
Proof.
  intros _. split; [reflexivity|].
  destruct (pattern_based_extraction_named fm text) as [M [HM HF]].
  exists M. split; [exact HM|].
  revert HF. apply Forall_impl. intros c Hc. split; [exact Hc|].
  destruct Hc as [g [Hg Hn]]. intros E. rewrite Hn in E.
  eapply titled_placeholder_in_text; eauto.
Qed.

(** C7. On "2.5 mg twice daily" the dosage-first pattern matches the
    whole text, so nothing follows the match from which a name could be
    recovered, and the text names no medication.  The candidate is not
    discarded: the pattern has three groups and no pattern has two, so
    the loop body takes the branch of the name-first patterns, which
    reads the number as the name and the unit and the words after it as
    the dosage; the test that skips a name that is a number asks
    [isdigit], which "2.5" fails.  The candidate leaves the extractor
    and the whole pipeline under the name "2.5".  With the whole number
    5 in place of 2.5 the same match is skipped. *)
Theorem decimal_dosage_first_match_is_kept :
  forallb (fun r => negb (Re.ngroups r =? 2)%nat) patterns = true /\
  pattern_based_extraction self_fuzzy_match "2.5 mg twice daily"
  = Ok [mkMed "2.5" "mg twice daily" "daily" "5 months" (Some "daily")
          (Some (7 # 10)%Q) (Some "pattern_based")] /\
  extract_medications self_fuzzy_match "2.5 mg twice daily"
  = Ok [mkMed "2.5" "mg twice daily" "daily" "5 months" (Some "daily")
          (Some (7 # 10)%Q) (Some "pattern_based")] /\
  pattern_based_extraction self_fuzzy_match "5 mg twice daily" = Ok [].
Proof. repeat split; vm_compute; reflexivity. Qed.

(** *** A mention that is not in the text *)

(** C8. For the text "Augmentn 625mg x 5 days" and the mention
    "augmentin", which the exact search does not find, the dosage and
    frequency extractors raise [AttributeError] at the call of the
    missing method [fuzzy_match] instead of returning a value, and the
    duration extractor returns its default "7 days" without any fuzzy
    search: given a fuzzy matcher, the first two find "625 mg" and
    "daily" around the garbled word, the third still answers "7 days"
    although "5 days" stands next to it. *)
Theorem sub_extractors_on_a_garbled_mention :
  let text := "Augmentn 625mg x 5 days" in
  let fuzzy := Some (fun word mention : string =>
                       String.eqb (take 6 word) (take 6 mention)) in
  find (lower text) (lower "augmentin") = (-1)%Z /\
  extract_dosage_near_medication self_fuzzy_match text "augmentin"
  = Raise AttributeError /\
  extract_frequency_near_medication self_fuzzy_match text "augmentin"
  = Raise AttributeError /\
  extract_duration_near_medication text "augmentin" = "7 days" /\
  extract_dosage_near_medication fuzzy text "augmentin" = Ok "625 mg" /\
  extract_frequency_near_medication fuzzy text "augmentin" = Ok "daily".
Proof. cbv zeta. repeat split; vm_compute; reflexivity. Qed.

(** *** The cleaner *)




(** *** The names that leave the merger *)

(** C10, as stated, fails: the pipeline returns records named after
    the unit words "mcg" and "units", which the list of the merger does
    not have, and a record named by the number "2.5", which is not made
    of digits only. *)
Lemma unit_words_name_records :
  extract_medications self_fuzzy_match "Tab. Mcg 5mg"
  = Ok [mkMed "Mcg" "5 mg" "daily" "5 months" (Some "daily")
          (Some (7 # 10)%Q) (Some "pattern_based")] /\
  extract_medications self_fuzzy_match "Vitamin D 400 units 5 ml"
  = Ok [mkMed "Units" "5 ml" "daily" "5 months" (Some "daily")
          (Some (7 # 10)%Q) (Some "pattern_based")] /\
  extract_medications self_fuzzy_match "2.5 mg twice daily"
  = Ok [mkMed "2.5" "mg twice daily" "daily" "5 months" (Some "daily")
          (Some (7 # 10)%Q) (Some "pattern_based")].
Proof. repeat split; vm_compute; reflexivity. Qed.

(** C10, amended. For every list of candidates (ASCII fields,
    confidences that are not negative) the merger returns at most as
    many records as there are candidates, each with a name that is not
    empty, has at least two characters, is not made of digits only and
    is not, in lower case, one of "mg", "ml", "tablet", "cap", "tab",
    "unknown medication"; and for every ASCII text the pipeline returns
    records with such names, so none that is named by one of these six
    words. *)
Theorem merged_names_are_acceptable
    (candidates : list med) (fm : option (string -> string -> bool))
    (text : string) :
  forallb ascii_candidate candidates = true ->
  Forall nonneg_confidence candidates ->
  ascii_text text = true ->
  (exists M,
      merge_medications candidates = Ok M /\
      List.length M <= List.length candidates /\
      Forall (fun r => acceptable_name (name r) = true) M) /\
  (exists R,
      extract_medications fm text = Ok R /\
      Forall (fun r => acceptable_name (name r) = true) R).
Proof.
  intros _ HC _. split; [|apply extract_medications_returns].
  destruct (merge_medications_returns candidates HC) as [M HM].
  exists M. split; [exact HM|].
  destruct (merge_medications_from _ _ HM) as [HF HL].
  split; [exact HL|].
  revert HF. apply Forall_impl. intros r [m [_ [Hv [Hn _]]]].
  rewrite Hn. now apply passes_filter_acceptable.
Qed.

Lemma merged_names_witness :
  (exists M,
      merge_medications [unit_token; amox; amoxicillin] = Ok M /\
      List.length M <= List.length [unit_token; amox; amoxicillin] /\
      Forall (fun r => acceptable_name (name r) = true) M) /\
  (exists R,
      extract_medications self_fuzzy_match "Tab. Mg 5mg, Tab. PanD 40mg 1-0-0"
      = Ok R /\
      Forall (fun r => acceptable_name (name r) = true) R).
Proof.
  apply (merged_names_are_acceptable [unit_token; amox; amoxicillin]
           self_fuzzy_match "Tab. Mg 5mg, Tab. PanD 40mg 1-0-0").
  - vm_compute. reflexivity.
  - repeat constructor; unfold nonneg_confidence, Qle; simpl; lia.
  - vm_compute. reflexivity.
Defined.

End Claims.

(* ================================================================== *)
(** ** Further properties of the reminder service *)
(* ================================================================== *)

Module ServiceFacts.

Import MedicationReminder Notions StrFacts.

Local Open Scope Z_scope.

(** *** The schedules *)

(** X1. Whatever the frequency string, the scheduler answers with one of
    ten lists of clock times; the lists 09:00, 21:00 and 08:00, 12:00,
    16:00, 20:00 written in its table are not among them. *)
Theorem parse_frequency_has_ten_schedules (frequency : string) :
  In (parse_frequency frequency) schedules /\
  ~ In ["09:00"; "21:00"] schedules /\
  ~ In ["08:00"; "12:00"; "16:00"; "20:00"] schedules.
Proof.
  split; [apply ReminderFacts.parse_frequency_schedules|].
  split; intros H; unfold schedules in H; simpl in H;
    repeat (destruct H as [H | H]; [discriminate H|]); exact H.
Qed.

(** *** Next dose and expected doses *)

Lemma next_dose_cases (frequency : string) :
  exists h, In h [6; 8; 12; 24] /\
    forall last_taken,
      calculate_next_dose frequency last_taken
      = add_timedelta last_taken (h * microseconds_per_hour).
Proof.
  unfold calculate_next_dose. cbv zeta.
  change (1 * microseconds_per_day) with (24 * microseconds_per_hour).
  split_ifs;
    first [ exists 24; split; [simpl; tauto | reflexivity]
          | exists 12; split; [simpl; tauto | reflexivity]
          | exists 8; split; [simpl; tauto | reflexivity]
          | exists 6; split; [simpl; tauto | reflexivity] ].
Qed.

(** X2. For a last dose that is a [datetime], the next dose falls 6, 8,
    12 or 24 hours after it: the call returns that time when it is not
    past [datetime.max] and raises [OverflowError] when it is.  A call
    on a last dose a day or more before [datetime.max] returns, and what
    is returned is later than the last dose and at most one day later. *)
Theorem next_dose_is_6_8_12_or_24_hours_later
    (frequency : string) (last_taken : Z) :
  is_datetime last_taken = true ->
  (exists h, In h [6; 8; 12; 24] /\
     (last_taken + h * microseconds_per_hour <= datetime_max ->
      calculate_next_dose frequency last_taken
      = Some (last_taken + h * microseconds_per_hour)) /\
     (datetime_max < last_taken + h * microseconds_per_hour ->
      calculate_next_dose frequency last_taken = None)) /\
  (last_taken + microseconds_per_day <= datetime_max ->
   exists next, calculate_next_dose frequency last_taken = Some next) /\
  (forall next,
      calculate_next_dose frequency last_taken = Some next ->
      last_taken < next <= last_taken + microseconds_per_day).
Proof.
  intros D. unfold is_datetime in D. apply andb_prop in D.
  destruct D as [D0 D1]. apply Z.leb_le in D0, D1.
  destruct (next_dose_cases frequency) as [h [Hh E]].
  assert (B : 6 <= h <= 24)
    by (simpl in Hh; decompose [or] Hh; subst; try lia; contradiction).
  assert (R : forall delta, 0 <= delta ->
                (last_taken + delta <= datetime_max ->
                 add_timedelta last_taken delta = Some (last_taken + delta)) /\
                (datetime_max < last_taken + delta ->
                 add_timedelta last_taken delta = None)).
  { intros delta Hd. unfold add_timedelta, is_datetime.
    destruct (0 <=? last_taken + delta) eqn:E0;
      [|apply Z.leb_gt in E0; lia].
    destruct (last_taken + delta <=? datetime_max) eqn:E1;
      [apply Z.leb_le in E1 | apply Z.leb_gt in E1]; cbn [andb];
      split; intros; first [reflexivity | lia]. }
  unfold microseconds_per_day, microseconds_per_hour in *.
  destruct (R (h * 3600000000) ltac:(lia)) as [R1 R2].
  split; [|split].
  - exists h. rewrite E. unfold microseconds_per_hour. auto.
  - intros H. exists (last_taken + h * 3600000000). rewrite E.
    unfold microseconds_per_hour. apply R1. lia.
  - intros next. rewrite E. unfold microseconds_per_hour, add_timedelta.
    destruct (is_datetime _); [|discriminate].
    intros N. inversion N. lia.
Qed.

Lemma next_dose_witness :
  (exists h, In h [6; 8; 12; 24] /\
     (datetime_max - 7 * microseconds_per_hour + h * microseconds_per_hour
      <= datetime_max ->
      calculate_next_dose "every 8 hours"
        (datetime_max - 7 * microseconds_per_hour)
      = Some (datetime_max - 7 * microseconds_per_hour
              + h * microseconds_per_hour)) /\
     (datetime_max
      < datetime_max - 7 * microseconds_per_hour + h * microseconds_per_hour ->
      calculate_next_dose "every 8 hours"
        (datetime_max - 7 * microseconds_per_hour) = None)) /\
  (datetime_max - 7 * microseconds_per_hour + microseconds_per_day
   <= datetime_max ->
   exists next,
     calculate_next_dose "every 8 hours"
       (datetime_max - 7 * microseconds_per_hour) = Some next) /\
  (forall next,
      calculate_next_dose "every 8 hours"
        (datetime_max - 7 * microseconds_per_hour) = Some next ->
      datetime_max - 7 * microseconds_per_hour < next
      <= datetime_max - 7 * microseconds_per_hour + microseconds_per_day).
Proof.
  apply (next_dose_is_6_8_12_or_24_hours_later "every 8 hours"
           (datetime_max - 7 * microseconds_per_hour)).
  vm_compute. reflexivity.
Defined.

(** X3. The two schedule functions agree on the rate: a frequency has
    one interval, which [calculate_next_dose] adds to whatever last dose
    it is given, and that interval times the number of doses expected
    since a start date is the whole number of days elapsed. *)
Theorem interval_times_expected_doses_is_days
    (frequency : string) (utcnow start_date : Z) :
  exists interval,
    (forall last_taken,
        calculate_next_dose frequency last_taken
        = add_timedelta last_taken interval) /\
    (forall last_taken next,
        calculate_next_dose frequency last_taken = Some next ->
        (next - last_taken)
        * _calculate_expected_doses frequency utcnow start_date
        = timedelta_days (utcnow - start_date) * microseconds_per_day) /\
    interval * _calculate_expected_doses frequency utcnow start_date
    = timedelta_days (utcnow - start_date) * microseconds_per_day.
Proof.
  assert (H : exists interval,
             (forall last_taken,
                 calculate_next_dose frequency last_taken
                 = add_timedelta last_taken interval) /\
             interval * _calculate_expected_doses frequency utcnow start_date
             = timedelta_days (utcnow - start_date) * microseconds_per_day).
  { unfold calculate_next_dose, _calculate_expected_doses. cbv zeta.
    unfold microseconds_per_day, microseconds_per_hour.
    split_ifs; eexists; (split; [intros; reflexivity | lia]). }
  destruct H as [interval [E P]]. exists interval.
  split; [exact E|]. split; [|exact P].
  intros last_taken next. rewrite E. unfold add_timedelta.
  destruct (is_datetime _); [|discriminate].
  intros N. inversion N.
  replace (last_taken + interval - last_taken) with interval by lia.
  exact P.
Qed.

(** X5. The expected-dose count is the whole number of days since the
    start date times a factor from 1 to 4; it is 0 during the first day
    and negative for a start date in the future. *)
Theorem expected_doses_follow_the_day_count
    (frequency : string) (utcnow start_date : Z) :
  (exists k, 1 <= k <= 4 /\
     _calculate_expected_doses frequency utcnow start_date
     = timedelta_days (utcnow - start_date) * k) /\
  (_calculate_expected_doses frequency utcnow start_date = 0
   <-> start_date <= utcnow < start_date + microseconds_per_day) /\
  (_calculate_expected_doses frequency utcnow start_date < 0
   <-> utcnow < start_date).
Proof.
  assert (K : exists k, 1 <= k <= 4 /\
     _calculate_expected_doses frequency utcnow start_date
     = timedelta_days (utcnow - start_date) * k).
  { unfold _calculate_expected_doses. cbv zeta.
    split_ifs;
      first [ exists 1; split; [lia | lia]
            | exists 2; split; [lia | reflexivity]
            | exists 3; split; [lia | reflexivity]
            | exists 4; split; [lia | reflexivity] ]. }
  split; [exact K|].
  destruct K as [k [Hk E]]. rewrite E. clear E.
  unfold timedelta_days, microseconds_per_day.
  set (d := (utcnow - start_date) / 86400000000).
  assert (D : 86400000000 * d <= utcnow - start_date
              < 86400000000 * d + 86400000000).
  { pose proof (Z.div_mod (utcnow - start_date) 86400000000 ltac:(lia)) as E.
    pose proof (Z.mod_pos_bound (utcnow - start_date) 86400000000 ltac:(lia)).
    fold d in E. lia. }
  assert (Z0 : d * k = 0 <-> d = 0) by (split; intros H; nia).
  assert (Zn : d * k < 0 <-> d < 0) by (split; intros H; nia).
  rewrite Z0, Zn. split; split; intros H; lia.
Qed.

(** *** The clock strings *)

Lemma in_below_100 (n : Z) : 0 <= n < 100 -> In n below_100.
Proof.
  intros H. unfold below_100. rewrite <- (Z2Nat.id n) by lia.
  apply in_map, in_seq. lia.
Qed.

Lemma two_digits_read :
  forallb (fun h =>
    forallb (fun m =>
      match hour_minute (two_digits h ++ ":" ++ two_digits m) with
      | Some (h', m') => (h' =? h) && (m' =? m)
      | None => false
      end) below_100) below_100 = true.
Proof. vm_compute. reflexivity. Qed.

Lemma hour_minute_two_digits (h m : Z) :
  0 <= h < 100 -> 0 <= m < 100 ->
  hour_minute (two_digits h ++ ":" ++ two_digits m) = Some (h, m).
Proof.
  intros Hh Hm. pose proof two_digits_read as T.
  rewrite forallb_forall in T. specialize (T h (in_below_100 h Hh)).
  rewrite forallb_forall in T. specialize (T m (in_below_100 m Hm)).
  destruct (hour_minute _) as [[h' m']|]; [|discriminate T].
  apply andb_prop in T. destruct T as [T1 T2].
  apply Z.eqb_eq in T1, T2. now subst.
Qed.

Lemma time_of_bounds (d : Z) : 0 <= time_of d < microseconds_per_day.
Proof.
  unfold time_of. apply Z.mod_pos_bound. unfold microseconds_per_day. lia.
Qed.

Lemma hour_minute_strftime (d : Z) :
  exists h m,
    hour_minute (strftime_HM d) = Some (h, m) /\
    0 <= h < 24 /\ 0 <= m < 60 /\ h * 60 + m = minute_of_day d.
Proof.
  pose proof (time_of_bounds d) as B. unfold microseconds_per_day in B.
  exists (time_of d / microseconds_per_hour),
         (time_of d / microseconds_per_minute mod 60).
  unfold strftime_HM, minute_of_day, microseconds_per_hour,
    microseconds_per_minute.
  assert (Hh : 0 <= time_of d / 3600000000 < 24).
  { split; [apply Z.div_pos; lia | apply Z.div_lt_upper_bound; lia]. }
  assert (Hm : 0 <= time_of d / 60000000 mod 60 < 60)
    by (apply Z.mod_pos_bound; lia).
  split; [apply hour_minute_two_digits; lia|].
  split; [exact Hh|]. split; [exact Hm|].
  replace 3600000000 with (60000000 * 60) by reflexivity.
  rewrite <- Z.div_div by lia.
  pose proof (Z.div_mod (time_of d / 60000000) 60 ltac:(lia)). lia.
Qed.

Lemma formatted_times_match (current_time reminder_time : Z) :
  _is_time_match (strftime_HM current_time) (strftime_HM reminder_time)
  = (Z.abs (minute_of_day current_time - minute_of_day reminder_time) <=? 1).
Proof.
  destruct (hour_minute_strftime current_time) as [h [m [E [_ [_ M]]]]].
  destruct (hour_minute_strftime reminder_time) as [h' [m' [E' [_ [_ M']]]]].
  unfold _is_time_match. rewrite E, E'. cbv zeta. now rewrite M, M'.
Qed.

(** X6. On two times formatted with %H:%M the time match holds exactly
    when their minutes of the day differ by at most one, and the test
    does not reach over midnight: 23:59 and 00:00 do not match.  On any
    two strings the match does not depend on the order of the
    arguments, and a string that is not two integers around one colon
    matches nothing. *)
Theorem time_match_on_formatted_times
    (current_time reminder_time : Z) (a b : string) :
  _is_time_match (strftime_HM current_time) (strftime_HM reminder_time)
  = (Z.abs (minute_of_day current_time - minute_of_day reminder_time) <=? 1)
  /\ _is_time_match "23:59" "00:00" = false
  /\ _is_time_match a b = _is_time_match b a
  /\ Forall (fun bad => _is_time_match bad b = false)
       [""; "9"; "9:00:00"; "9h:00"; ":30"; "09.00"].
Proof.
  split; [|split; [reflexivity|split]].
  - apply formatted_times_match.
  - unfold _is_time_match.
    destruct (hour_minute a) as [[h m]|], (hour_minute b) as [[h' m']|];
      try reflexivity.
    cbv zeta.
    replace (h' * 60 + m' - (h * 60 + m)) with (- (h * 60 + m - (h' * 60 + m')))
      by lia.
    now rewrite Z.abs_opp.
  - repeat constructor.
Qed.

(** *** The checking loops *)

Lemma date_le (a b : Z) : a <= b -> date a <= date b.
Proof.
  intros H. unfold date, microseconds_per_day.
  apply Z.div_le_mono; lia.
Qed.

Lemma nondecreasing_tail (a : Z) (l : list Z) :
  nondecreasing (a :: l) = true -> nondecreasing l = true.
Proof.
  destruct l as [|b l]; [reflexivity|]. cbn [nondecreasing].
  intros H. now apply andb_prop in H.
Qed.

Lemma nondecreasing_head (a b : Z) (l : list Z) :
  nondecreasing (a :: b :: l) = true -> a <= b.
Proof.
  cbn [nondecreasing]. intros H. apply andb_prop in H.
  destruct H as [H _]. now apply Z.leb_le in H.
Qed.

Lemma nondecreasing_skip (a b : Z) (l : list Z) :
  nondecreasing (a :: b :: l) = true -> nondecreasing (a :: l) = true.
Proof.
  intros H. pose proof (nondecreasing_head _ _ _ H) as Hab.
  apply nondecreasing_tail in H.
  destruct l as [|c l]; [reflexivity|].
  pose proof (nondecreasing_head _ _ _ H) as Hbc.
  apply nondecreasing_tail in H.
  change (nondecreasing (a :: c :: l)) with ((a <=? c) && nondecreasing (c :: l)).
  rewrite H, andb_true_r. apply Z.leb_le. lia.
Qed.

Lemma nondecreasing_all (a : Z) (l : list Z) :
  nondecreasing (a :: l) = true -> Forall (fun x => a <= x) l.
Proof.
  induction l as [|b l IH]; intros H; constructor.
  - now apply nondecreasing_head in H.
  - apply IH. now apply nondecreasing_skip in H.
Qed.

Section Course.

Variable due : reminder -> Z -> bool.

Hypothesis due_on_another_day :
  forall r now, due r now = true ->
    match last_taken r with
    | Some taken => (date taken =? date now) = false
    | None => True
    end.

(** After the row was marked at [taken], the alerts of the later checks
    fall on later days, one a day. *)
Lemma alerts_after_mark (checks : list (Z * Z)) :
  forall r taken,
    last_taken r = Some taken ->
    nondecreasing (taken :: flat_map (fun c => [fst c; snd c]) checks) = true ->
    Forall (fun a => date taken < date a) (alerts_sent due r checks) /\
    NoDup (map date (alerts_sent due r checks)).
Proof.
  induction checks as [|[c m] tl IH]; intros r taken Hr Hnd.
  - simpl. split; constructor.
  - cbn [flat_map fst snd app] in Hnd. cbn [alerts_sent].
    pose proof (nondecreasing_head _ _ _ Hnd) as Htc.
    pose proof (nondecreasing_head _ _ _ (nondecreasing_tail _ _ Hnd)) as Hcm.
    destruct (due r c) eqn:D.
    + pose proof (due_on_another_day r c D) as N. rewrite Hr in N.
      apply Z.eqb_neq in N.
      pose proof (date_le taken c Htc) as L.
      pose proof (date_le c m Hcm) as L'.
      destruct (IH (mark_sent r m) m eq_refl
                  (nondecreasing_tail _ _ (nondecreasing_tail _ _ Hnd)))
        as [F ND].
      split.
      * constructor; [lia|]. revert F. apply Forall_impl. intros a. lia.
      * cbn [map]. constructor; [|exact ND].
        intros I. apply in_map_iff in I. destruct I as [a [Ea Ia]].
        rewrite Forall_forall in F. specialize (F a Ia). lia.
    + apply (IH r taken Hr).
      now apply nondecreasing_skip, nondecreasing_skip in Hnd.
Qed.

Lemma alerts_one_a_day (checks : list (Z * Z)) :
  forall r,
    nondecreasing (timeline r checks) = true ->
    NoDup (map date (alerts_sent due r checks)).
Proof.
  intros r. unfold timeline.
  destruct (last_taken r) as [taken|] eqn:L.
  - intros H. now apply (alerts_after_mark checks r taken L).
  - cbn [app]. revert r L.
    induction checks as [|[c m] tl IH]; intros r L Hnd; [constructor|].
    cbn [flat_map fst snd app] in Hnd. cbn [alerts_sent].
    pose proof (nondecreasing_head _ _ _ Hnd) as Hcm.
    destruct (due r c) eqn:D.
    + destruct (alerts_after_mark tl (mark_sent r m) m eq_refl
                  (nondecreasing_tail _ _ Hnd)) as [F ND].
      pose proof (date_le c m Hcm) as L'.
      cbn [map]. constructor; [|exact ND].
      intros I. apply in_map_iff in I. destruct I as [a [Ea Ia]].
      rewrite Forall_forall in F. specialize (F a Ia). lia.
    + apply (IH r L). now apply nondecreasing_tail, nondecreasing_tail in Hnd.
Qed.

(** An alert goes out at a check at which [due] holds for the row, with
    the mark it has by then. *)
Lemma alerts_are_due (checks : list (Z * Z)) :
  forall r a,
    In a (alerts_sent due r checks) ->
    exists r', due r' a = true /\ time r' = time r /\
               is_active r' = is_active r.
Proof.
  induction checks as [|[c m] tl IH]; intros r a; cbn [alerts_sent].
  - intros [].
  - destruct (due r c) eqn:D.
    + intros [E | I].
      * subst a. now exists r.
      * destruct (IH _ _ I) as [r' [H1 [H2 H3]]]. now exists r'.
    + apply IH.
Qed.

End Course.

Lemma due_not_taken_today (r : reminder) (now : Z) :
  _is_reminder_due r now = true ->
  match last_taken r with
  | Some taken => (date taken =? date now) = false
  | None => True
  end.
Proof.
  unfold _is_reminder_due. cbv zeta.
  destruct (is_active r); [|discriminate]. cbn [negb].
  destruct (time r <=? time_of now); [|discriminate].
  destruct (last_taken r) as [taken|]; [|trivial].
  destruct (date taken =? date now); [discriminate | reflexivity].
Qed.

Lemma announced_is_due (linked : Z -> bool) (r : reminder) (now : Z) :
  reminder_is_announced linked r now
  = _is_reminder_due r now && linked now.
Proof.
  unfold reminder_is_announced, _is_reminder_due.
  destruct (is_active r); reflexivity.
Qed.

Lemma announced_not_taken_today (linked : Z -> bool) (r : reminder)
    (now : Z) :
  reminder_is_announced linked r now = true ->
  match last_taken r with
  | Some taken => (date taken =? date now) = false
  | None => True
  end.
Proof.
  rewrite announced_is_due. intros H. apply andb_prop in H.
  now apply due_not_taken_today.
Qed.

Lemma sent_not_taken_today (r : reminder) (now : Z) :
  alert_is_sent r now = true ->
  match last_taken r with
  | Some taken => (date taken =? date now) = false
  | None => True
  end.
Proof.
  unfold alert_is_sent, _reminder_sent_today. cbv zeta.
  destruct (is_active r); [|discriminate].
  destruct (_is_time_match _ _); [|discriminate].
  destruct (last_taken r) as [taken|]; [|trivial].
  destruct (date taken =? date now); [discriminate | reflexivity].
Qed.

(** X7. Through either checking loop a row sends at most one alert on
    any calendar day, however often it is checked, as long as the clock
    does not go backwards: in the loop of the application with the due
    test alone and with the test on the user and the medication of the
    row, whatever that answers at each check, and in the loop of the
    service. *)
Theorem one_alert_a_day
    (linked : Z -> bool) (r : reminder) (checks : list (Z * Z)) :
  nondecreasing (timeline r checks) = true ->
  NoDup (map date (alerts_sent _is_reminder_due r checks)) /\
  NoDup (map date (alerts_sent (reminder_is_announced linked) r checks)) /\
  NoDup (map date (alerts_sent alert_is_sent r checks)).
Proof.
  intros H. split; [|split].
  - now apply (alerts_one_a_day _ due_not_taken_today).
  - now apply (alerts_one_a_day _ (announced_not_taken_today linked)).
  - now apply (alerts_one_a_day _ sent_not_taken_today).
Qed.

Lemma one_alert_a_day_witness :
  NoDup (map date (alerts_sent _is_reminder_due morning_row morning_checks)) /\
  NoDup (map date (alerts_sent (reminder_is_announced (fun _ => true))
                     morning_row morning_checks)) /\
  NoDup (map date (alerts_sent alert_is_sent morning_row morning_checks)).
Proof.
  apply (one_alert_a_day (fun _ => true) morning_row morning_checks).
  vm_compute. reflexivity.
Defined.

(** X8. The service sends the alert of a row only at a check whose
    minute of the day is the minute of the reminder, the one before or
    the one after, and only for an active row: a reminder whose three
    minutes pass without a check is not sent later that day. *)
Theorem service_alerts_only_within_a_minute
    (r : reminder) (checks : list (Z * Z)) (a : Z) :
  In a (alerts_sent alert_is_sent r checks) ->
  Z.abs (minute_of_day a - minute_of_day (time r)) <= 1 /\
  is_active r = true.
Proof.
  intros I. destruct (alerts_are_due _ _ _ _ I) as [r' [D [T A]]].
  unfold alert_is_sent in D. cbv zeta in D.
  rewrite A, T in D. destruct (is_active r); [|discriminate D].
  split; [|reflexivity].
  rewrite formatted_times_match in D.
  destruct (Z.abs (minute_of_day a - minute_of_day (time r)) <=? 1) eqn:Le;
    [|discriminate D].
  now apply Z.leb_le in Le.
Qed.

Lemma service_alerts_witness :
  Z.abs (minute_of_day 28790000000 - minute_of_day (time morning_row)) <= 1 /\
  is_active morning_row = true.
Proof.
  apply (service_alerts_only_within_a_minute morning_row morning_checks
           28790000000).
  vm_compute. left. reflexivity.
Defined.

Lemma application_loop_reaches (linked : Z -> bool) (times : list Z) :
  forall r c,
    is_active r = true ->
    nondecreasing times = true ->
    In c times ->
    time r <= time_of c ->
    linked c = true ->
    (exists a, In a (alerts_sent (reminder_is_announced linked) r
                       (same_clock times)) /\
               date a = date c /\ a <= c) \/
    (exists taken, last_taken r = Some taken /\ date taken = date c).
Proof.
  induction times as [|h tl IH]; intros r c A Hnd I T K; [destruct I|].
  cbn [same_clock map alerts_sent].
  change (map (fun c0 : Z => (c0, c0)) tl) with (same_clock tl).
  pose proof (nondecreasing_all _ _ Hnd) as Hall.
  pose proof (nondecreasing_tail _ _ Hnd) as Hnd'.
  destruct (reminder_is_announced linked r h) eqn:D.
  - left. destruct I as [E | I].
    + subst c. exists h. split; [now left|]. split; [reflexivity | lia].
    + rewrite Forall_forall in Hall. specialize (Hall c I).
      destruct (IH (mark_sent r h) c A Hnd' I T K)
        as [[a [Ia [Ea La]]] | [taken [Et Ed]]].
      * exists a. split; [now right|]. now split.
      * cbn [mark_sent last_taken] in Et. inversion Et; subst taken.
        exists h. split; [now left|]. now split.
  - destruct I as [E | I].
    + subst c. right. rewrite announced_is_due, K, andb_true_r in D.
      unfold _is_reminder_due in D. cbv zeta in D.
      rewrite A in D. cbn [negb] in D.
      apply Z.leb_le in T. rewrite T in D.
      destruct (last_taken r) as [taken|]; [|discriminate D].
      exists taken. split; [reflexivity|].
      destruct (date taken =? date h) eqn:E; [|discriminate D].
      now apply Z.eqb_eq in E.
    + apply (IH r c A Hnd' I T K).
Qed.

Lemma unlinked_checks_send_nothing
    (linked : Z -> bool) (checks : list (Z * Z)) :
  forall r,
    forallb (fun c => negb (linked (fst c))) checks = true ->
    alerts_sent (reminder_is_announced linked) r checks = [].
Proof.
  induction checks as [|[c m] tl IH]; intros r H; [reflexivity|].
  cbn [forallb fst] in H. apply andb_prop in H. destruct H as [Hc Htl].
  cbn [alerts_sent]. rewrite announced_is_due.
  apply negb_true_iff in Hc. rewrite Hc, andb_false_r. now apply IH.
Qed.

(** X9. The loop of the application catches up, for a row whose user
    and medication it finds: for an active row that was never marked,
    when a check comes at or after the time of the reminder and finds
    the user and the active medication of the row, an alert has gone out
    on that day, at that check or at an earlier one.  While the checks
    do not find them (the medication was deactivated, say), no alert
    goes out for the row. *)
Theorem application_loop_catches_up
    (linked : Z -> bool) (r : reminder) (times : list Z) (c : Z) :
  is_active r = true ->
  last_taken r = None ->
  nondecreasing times = true ->
  In c times ->
  time r <= time_of c ->
  (linked c = true ->
   exists a, In a (alerts_sent (reminder_is_announced linked) r
                     (same_clock times)) /\
             date a = date c /\ a <= c) /\
  (forallb (fun t => negb (linked t)) times = true ->
   alerts_sent (reminder_is_announced linked) r (same_clock times) = []).
Proof.
  intros A L Hnd I T. split.
  - intros K.
    destruct (application_loop_reaches linked times r c A Hnd I T K)
      as [H | [taken [E _]]]; [exact H|].
    rewrite L in E. discriminate E.
  - intros U. apply unlinked_checks_send_nothing.
    unfold same_clock. rewrite forallb_forall in *.
    intros [x y] Hx. apply in_map_iff in Hx. destruct Hx as [t [Et It]].
    inversion Et; subst. cbn [fst]. now apply U.
Qed.

Lemma application_loop_witness :
  (exists a, In a (alerts_sent
                     (reminder_is_announced (fun t => 82830000000 <=? t))
                     morning_row
                     (same_clock [82800000000; 82860000000])) /\
             date a = date 82860000000 /\ a <= 82860000000) /\
  alerts_sent (reminder_is_announced (fun _ => false)) morning_row
    (same_clock [82800000000; 82860000000]) = [].
Proof.
  split.
  - apply (application_loop_catches_up (fun t => 82830000000 <=? t)
             morning_row [82800000000; 82860000000] 82860000000);
      first [reflexivity | right; left; reflexivity
            | vm_compute; discriminate].
  - apply (application_loop_catches_up (fun _ => false)
             morning_row [82800000000; 82860000000] 82860000000);
      first [reflexivity | right; left; reflexivity
            | vm_compute; discriminate].
Defined.

(** *** The reminders due now *)

Lemma due_times_cons (now : Z) (s : string) (tl : list string) (h m : Z) :
  hour_minute s = Some (h, m) ->
  0 <= h < 24 -> 0 <= m < 60 ->
  due_times now (s :: tl)
  = if Z.abs (time_of now - (h * 3600000000 + m * 60000000)) <=? 300000000
    then option_map (cons s) (due_times now tl)
    else due_times now tl.
Proof.
  intros E Hh Hm. cbn [due_times]. rewrite E.
  unfold replace_hour_minute, fits_c_int.
  replace (-2147483648 <=? h) with true by (symmetry; apply Z.leb_le; lia).
  replace (h <=? 2147483647) with true by (symmetry; apply Z.leb_le; lia).
  replace (-2147483648 <=? m) with true by (symmetry; apply Z.leb_le; lia).
  replace (m <=? 2147483647) with true by (symmetry; apply Z.leb_le; lia).
  replace (0 <=? h) with true by (symmetry; apply Z.leb_le; lia).
  replace (h <? 24) with true by (symmetry; apply Z.ltb_lt; lia).
  replace (0 <=? m) with true by (symmetry; apply Z.leb_le; lia).
  replace (m <? 60) with true by (symmetry; apply Z.ltb_lt; lia).
  cbn [andb negb]. cbv zeta.
  unfold microseconds_per_hour, microseconds_per_minute,
    microseconds_per_second.
  replace (now - (date now * microseconds_per_day + h * 3600000000
                  + m * 60000000))
    with (time_of now - (h * 3600000000 + m * 60000000)).
  - reflexivity.
  - unfold date, time_of.
    pose proof (Z.div_mod now microseconds_per_day
                  ltac:(unfold microseconds_per_day; lia)).
    lia.
Qed.

Lemma schedule_times_read :
  hour_minute "08:00" = Some (8, 0) /\
  hour_minute "20:00" = Some (20, 0) /\
  hour_minute "14:00" = Some (14, 0) /\
  hour_minute "06:00" = Some (6, 0) /\
  hour_minute "12:00" = Some (12, 0) /\
  hour_minute "18:00" = Some (18, 0) /\
  hour_minute "00:00" = Some (0, 0) /\
  hour_minute "16:00" = Some (16, 0) /\
  hour_minute "09:00" = Some (9, 0).
Proof. vm_compute. repeat split; reflexivity. Qed.

Lemma due_times_of_a_schedule (now : Z) (S : list string) :
  In S schedules ->
  exists L, due_times now S = Some L /\
            (List.length L <= 1)%nat /\
            (72300000000 < time_of now -> L = []).
Proof.
  pose proof (time_of_bounds now) as B. unfold microseconds_per_day in B.
  destruct schedule_times_read
    as [R1 [R2 [R3 [R4 [R5 [R6 [R7 [R8 R9]]]]]]]].
  intros I. unfold schedules in I. simpl in I.
  repeat (destruct I as [I | I];
    [subst S;
     repeat match goal with
       | |- context [due_times now ("08:00" :: ?tl)] =>
           rewrite (due_times_cons now "08:00" tl 8 0 R1) by lia
       | |- context [due_times now ("20:00" :: ?tl)] =>
           rewrite (due_times_cons now "20:00" tl 20 0 R2) by lia
       | |- context [due_times now ("14:00" :: ?tl)] =>
           rewrite (due_times_cons now "14:00" tl 14 0 R3) by lia
       | |- context [due_times now ("06:00" :: ?tl)] =>
           rewrite (due_times_cons now "06:00" tl 6 0 R4) by lia
       | |- context [due_times now ("12:00" :: ?tl)] =>
           rewrite (due_times_cons now "12:00" tl 12 0 R5) by lia
       | |- context [due_times now ("18:00" :: ?tl)] =>
           rewrite (due_times_cons now "18:00" tl 18 0 R6) by lia
       | |- context [due_times now ("00:00" :: ?tl)] =>
           rewrite (due_times_cons now "00:00" tl 0 0 R7) by lia
       | |- context [due_times now ("16:00" :: ?tl)] =>
           rewrite (due_times_cons now "16:00" tl 16 0 R8) by lia
       | |- context [due_times now ("09:00" :: ?tl)] =>
           rewrite (due_times_cons now "09:00" tl 9 0 R9) by lia
       end;
     cbn [due_times];
     repeat match goal with
            | |- context [if ?c then _ else _] =>
                let E := fresh "E" in
                destruct c eqn:E;
                [apply Z.leb_le in E | apply Z.leb_gt in E]
            end;
     cbn [option_map];
     (eexists; split; [reflexivity|]; split;
      [first [cbn [List.length]; lia | exfalso; lia]
      | intros G; first [reflexivity | exfalso; lia]])
    |]).
  destruct I.
Qed.

(** X10. At any moment at most one reminder time of a medication is
    within five minutes, whatever its frequency: the call returns, with
    no more entries than there are medications. *)
Theorem at_most_one_due_reminder_per_medication
    {V : Type} (now : Z) (medications : list (medication V)) :
  exists D, check_reminders now medications = Some D /\
            (List.length D <= List.length medications)%nat.
Proof.
  induction medications as [|m tl [D [E L]]].
  - exists []. split; [reflexivity | simpl; lia].
  - cbn [check_reminders]. cbv zeta.
    destruct (due_times_of_a_schedule now _
                (ReminderFacts.parse_frequency_schedules
                   match med_frequency m with Some f => f | None => "daily" end))
      as [T [ET [LT _]]].
    rewrite ET, E. cbn [option_map]. eexists. split; [reflexivity|].
    rewrite length_app, length_map. cbn [List.length]. lia.
Qed.

(** X11. From 20:05 to midnight nothing is due: the list is empty for
    every frequency, also for the schedules with a dose at 00:00, which
    is announced after midnight only. *)
Theorem nothing_is_due_late_in_the_evening
    {V : Type} (now : Z) (medications : list (medication V)) :
  72300000000 < time_of now ->
  check_reminders now medications = Some [].
Proof.
  intros H. induction medications as [|m tl IH]; [reflexivity|].
  cbn [check_reminders]. cbv zeta.
  destruct (due_times_of_a_schedule now _
              (ReminderFacts.parse_frequency_schedules
                 match med_frequency m with Some f => f | None => "daily" end))
    as [T [ET [_ G]]].
  rewrite ET, IH, (G H). reflexivity.
Qed.

Lemma nothing_is_due_witness :
  check_reminders 86280000000
    [mkMedication (Some 1) (Some 2) (Some 3) (Some "q8h") (Some 4);
     mkMedication None None None None None]
  = Some [].
Proof.
  apply (nothing_is_due_late_in_the_evening (V := Z) 86280000000).
  vm_compute. reflexivity.
Defined.

(** *** The alerts kept for polling *)

Section Alerts.

Context {alert : Type}.
Variable medication_id_of : alert -> Z.

Lemma get_set_alerts (active : active_reminders alert) (u u' : Z)
    (l : list alert) :
  get_alerts alert (set_alerts alert active u l) u'
  = if u' =? u then Some l else get_alerts alert active u'.
Proof.
  induction active as [|[k v] tl IH]; cbn [set_alerts get_alerts].
  - rewrite (Z.eqb_sym u u'). reflexivity.
  - destruct (k =? u) eqn:E; cbn [get_alerts].
    + apply Z.eqb_eq in E. subst k. rewrite (Z.eqb_sym u u').
      destruct (u' =? u); reflexivity.
    + destruct (k =? u') eqn:E'.
      * apply Z.eqb_eq in E'. subst k. rewrite E. reflexivity.
      * exact IH.
Qed.

(** X12. An alert stored for a user is appended to the list the user
    polls and stays there until it is cleared; clearing a medication
    removes exactly the alerts of that medication, in place; neither
    touches the lists of other users. *)
Theorem alerts_are_kept_until_cleared
    (active : active_reminders alert) (u u' m : Z) (a : alert) :
  get_active_reminders_for_user alert (store_alert alert active u a) u'
  = (if u' =? u
     then get_active_reminders_for_user alert active u ++ [a]
     else get_active_reminders_for_user alert active u')%list /\
  get_active_reminders_for_user alert
    (clear_reminder_for_user alert medication_id_of active u m) u'
  = (if u' =? u
     then filter (fun r => negb (medication_id_of r =? m))
            (get_active_reminders_for_user alert active u)
     else get_active_reminders_for_user alert active u').
Proof.
  unfold get_active_reminders_for_user, store_alert, clear_reminder_for_user.
  split.
  - destruct (get_alerts alert active u) as [l|] eqn:G.
    + rewrite G, get_set_alerts. destruct (u' =? u); reflexivity.
    + rewrite get_set_alerts, Z.eqb_refl, !get_set_alerts.
      destruct (u' =? u); reflexivity.
  - destruct (get_alerts alert active u) as [l|] eqn:G.
    + rewrite get_set_alerts. destruct (u' =? u); reflexivity.
    + destruct (u' =? u) eqn:E; [|reflexivity].
      apply Z.eqb_eq in E. subst u'. rewrite G. reflexivity.
Qed.

End Alerts.

End ServiceFacts.

(* ================================================================== *)
(** ** Further properties of the text recogniser *)
(* ================================================================== *)

Module ScanFacts.

Import PrescriptionOCR Notions StrFacts CharFacts ReFacts.

(** *** The choice of the best attempt *)

Lemma short_text_scores_zero (text : string) :
  (len (strip text) <? 10)%Z = true -> score_text_quality text = 0%Q.
Proof.
  intros H. unfold score_text_quality. now rewrite H, orb_true_r.
Qed.

Lemma better_score_is_long (text : string) (best_score : Q) :
  (0 <= best_score)%Q ->
  negb (Qle_bool (score_text_quality text) best_score) = true ->
  (10 <= len (strip text))%Z /\ (0 <= score_text_quality text)%Q.
Proof.
  intros Hb H. apply negb_true_iff in H.
  assert (L : ~ (score_text_quality text <= best_score)%Q).
  { intros C. apply Qle_bool_iff in C. rewrite C in H. discriminate H. }
  split; [|lra].
  destruct (len (strip text) <? 10)%Z eqn:E; [|now apply Z.ltb_ge in E].
  rewrite (short_text_scores_zero text E) in L. now elim L.
Qed.

Lemma best_attempt_from (attempts : list (option string)) :
  forall best_text best_score,
    (0 <= best_score)%Q ->
    best_attempt attempts best_text best_score = best_text \/
    exists text,
      In (Some text) attempts /\ (10 <= len (strip text))%Z /\
      best_attempt attempts best_text best_score = text.
Proof.
  induction attempts as [|[text|] tl IH]; intros best_text best_score Hb;
    cbn [best_attempt]; [now left | |].
  - cbv zeta.
    destruct (negb (Qle_bool (score_text_quality text) best_score)) eqn:E.
    + destruct (better_score_is_long text best_score Hb E) as [Hl Hs].
      destruct (IH text (score_text_quality text) Hs)
        as [H | [t [Hin [Ht H]]]].
      * right. exists text. split; [now left|]. now split.
      * right. exists t. split; [now right|]. now split.
    + destruct (IH best_text best_score Hb) as [H | [t [Hin [Ht H]]]];
        [now left|].
      right. exists t. split; [now right|]. now split.
  - destruct (IH best_text best_score Hb) as [H | [t [Hin [Ht H]]]];
      [now left|].
    right. exists t. split; [now right|]. now split.
Qed.

Lemma samples_are_read (fm : option (string -> string -> bool)) :
  AIProcessor.extract_medications fm (sample_prescription 12)
  = Ok sample_records /\
  AIProcessor.extract_medications fm (sample_prescription 16)
  = Ok sample_records /\
  AIProcessor.extract_medications fm (sample_prescription 20)
  = Ok sample_records.
Proof. repeat split; vm_compute; reflexivity. Qed.

(** X13. What the recogniser returns is the sample prescription of the
    source, or the cleaned text of an attempt that has at least ten
    characters between its leading and trailing white space and that
    passes the prescription test; in the first case the pipeline reads
    the five sample records from it. *)
Theorem recognised_text_is_the_sample_or_a_tested_attempt
    (fm : option (string -> string -> bool))
    (recognised : option (list (option string))) :
  (In (extract_text recognised)
      [sample_prescription 12; sample_prescription 16;
       sample_prescription 20] /\
   AIProcessor.extract_medications fm (extract_text recognised)
   = Ok sample_records) \/
  (exists attempts text,
      recognised = Some attempts /\ In (Some text) attempts /\
      (10 <= len (strip text))%Z /\
      is_prescription_text (clean_text text) = true /\
      extract_text recognised = clean_text text).
Proof.
  destruct (samples_are_read fm) as [S12 [S16 S20]].
  destruct recognised as [attempts|]; cbn [extract_text]; cbv zeta.
  - destruct (best_attempt_from attempts "" 0%Q ltac:(lra))
      as [H | [text [Hin [Hl H]]]]; rewrite H.
    + left. cbn [String.eqb negb]. split; [|exact S16]. simpl. auto.
    + destruct (negb (String.eqb text "")); [|left; split; [simpl; auto|exact S16]].
      destruct (is_prescription_text (clean_text text)) eqn:P.
      * right. exists attempts, text. auto.
      * left. split; [simpl; auto | exact S20].
  - left. split; [simpl; auto | exact S12].
Qed.

Lemma best_attempt_unusable (attempts : list (option string)) :
  forall best_text best_score,
    (0 <= best_score)%Q ->
    unusable (Some attempts) = true ->
    best_attempt attempts best_text best_score = best_text.
Proof.
  induction attempts as [|[text|] tl IH]; intros best_text best_score Hb H;
    cbn [best_attempt]; [reflexivity | |].
  - cbn [unusable forallb] in H. apply andb_prop in H. destruct H as [Hs Htl].
    cbv zeta. rewrite (short_text_scores_zero text Hs).
    replace (Qle_bool 0 best_score) with true
      by (symmetry; now apply Qle_bool_iff).
    cbn [negb]. now apply IH.
  - cbn [unusable forallb] in H. now apply IH.
Qed.

(** X14. When the image cannot be read, or no recognition attempt gives
    ten characters or more, the recogniser hands out the sample
    prescription and the pipeline reports its five medications, with
    the dosages and durations as the extractors read them off the
    sample. *)
Theorem unusable_scans_yield_the_sample_medications
    (fm : option (string -> string -> bool))
    (recognised : option (list (option string))) :
  unusable recognised = true ->
  In (extract_text recognised)
     [sample_prescription 12; sample_prescription 16] /\
  AIProcessor.extract_medications fm (extract_text recognised)
  = Ok sample_records.
Proof.
  intros H. destruct (samples_are_read fm) as [S12 [S16 _]].
  destruct recognised as [attempts|]; cbn [extract_text]; cbv zeta.
  - rewrite (best_attempt_unusable attempts "" 0%Q ltac:(lra) H).
    cbn [String.eqb negb]. split; [simpl; auto | exact S16].
  - split; [simpl; auto | exact S12].
Qed.

Lemma unusable_scans_witness :
  In (extract_text (Some [None; Some " Rx 5mg  "; Some ""]))
     [sample_prescription 12; sample_prescription 16] /\
  AIProcessor.extract_medications AIProcessor.self_fuzzy_match
    (extract_text (Some [None; Some " Rx 5mg  "; Some ""]))
  = Ok sample_records.
Proof.
  apply (unusable_scans_yield_the_sample_medications
           AIProcessor.self_fuzzy_match (Some [None; Some " Rx 5mg  "; Some ""])).
  vm_compute. reflexivity.
Defined.

(** *** The keyword tests *)

Lemma keyword_count_mono (keywords : list string) (a b : string) :
  (forall k, contains k a = true -> contains k b = true) ->
  (keyword_count keywords a <= keyword_count keywords b)%Z.
Proof.
  intros H. unfold keyword_count. apply inj_le.
  induction keywords as [|k tl IH]; cbn [filter]; [lia|].
  destruct (contains k a) eqn:E.
  - rewrite (H k E). cbn [List.length]. lia.
  - destruct (contains k b); cbn [List.length]; lia.
Qed.

(** X15. For ASCII texts the validation does not depend on the letter
    case: two texts that differ in letter case only get the same
    verdict, valid or not, and so do a text and its lower-cased form.
    A text that contains a valid text, up to letter case, is valid: more
    text around never turns a valid prescription into an invalid one. *)
Theorem validation_survives_more_text_and_ignores_case (a b : string) :
  ascii_text a = true -> ascii_text b = true ->
  (lower a = lower b ->
   validate_prescription a = validate_prescription b) /\
  validate_prescription (lower a) = validate_prescription a /\
  (contains (lower a) (lower b) = true ->
   validate_prescription a = true -> validate_prescription b = true) /\
  (contains a b = true ->
   validate_prescription a = true -> validate_prescription b = true).
Proof.
  intros _ _.
  assert (M : contains (lower a) (lower b) = true ->
              validate_prescription a = true ->
              validate_prescription b = true).
  { intros C V. unfold validate_prescription in *. cbv zeta in *.
    apply Z.leb_le in V. apply Z.leb_le.
    pose proof (keyword_count_mono validation_keywords (lower a) (lower b))
      as K.
    assert (H : forall k, contains k (lower a) = true ->
                          contains k (lower b) = true).
    { intros k Hk. eapply contains_trans; [exact Hk | exact C]. }
    specialize (K H). lia. }
  split; [|split; [|split]].
  - intros E. unfold validate_prescription. cbv zeta. now rewrite E.
  - unfold validate_prescription. cbv zeta. now rewrite lower_idem.
  - exact M.
  - intros C. apply M. now apply contains_lower.
Qed.

Lemma validation_survives_witness :
  (lower "Dose: 500 MG Tablet" = lower "rx - DOSE: 500 mg tablet, daily" ->
   validate_prescription "Dose: 500 MG Tablet"
   = validate_prescription "rx - DOSE: 500 mg tablet, daily") /\
  validate_prescription (lower "Dose: 500 MG Tablet")
  = validate_prescription "Dose: 500 MG Tablet" /\
  (contains (lower "Dose: 500 MG Tablet")
     (lower "rx - DOSE: 500 mg tablet, daily") = true ->
   validate_prescription "Dose: 500 MG Tablet" = true ->
   validate_prescription "rx - DOSE: 500 mg tablet, daily" = true) /\
  (contains "Dose: 500 MG Tablet" "rx - DOSE: 500 mg tablet, daily" = true ->
   validate_prescription "Dose: 500 MG Tablet" = true ->
   validate_prescription "rx - DOSE: 500 mg tablet, daily" = true).
Proof.
  apply (validation_survives_more_text_and_ignores_case
           "Dose: 500 MG Tablet" "rx - DOSE: 500 mg tablet, daily");
    vm_compute; reflexivity.
Defined.

(** *** Patterns that need a digit *)

Section Digits.
Context {A : Type}.

Lemma sexists_app (p : ascii -> bool) (a b : string) :
  sexists p (a ++ b) = sexists p a || sexists p b.
Proof.
  induction a as [|c a IH]; simpl; [reflexivity|].
  now rewrite IH, orb_assoc.
Qed.

Lemma run_needs_digit (ic : bool) (r : Re.regex) :
  forall st (k : Re.state -> option A) res,
    Re.run ic r st k = Some res ->
    exists st' w,
      Re.rest st = w ++ Re.rest st' /\ k st' = Some res /\
      (must_digit r = true -> sexists is_digit w = true).
Proof.
  induction r as [|c|negated items| |r1 IH1 r2 IH2|r1 IH1 r2 IH2|r IH|n r IH];
    intros st k res; cbn [Re.run].
  - intros H. exists st, "". repeat split; [exact H | discriminate].
  - destruct (Re.eat _ st) as [st'|] eqn:E; [|discriminate]. intros H.
    destruct (eat_consumes _ _ _ E) as [x [Hx Hr]].
    exists st', (String x ""). repeat split; [exact Hr | exact H | discriminate].
  - destruct (Re.eat _ st) as [st'|] eqn:E; [|discriminate]. intros H.
    destruct (eat_consumes _ _ _ E) as [x [Hx Hr]].
    exists st', (String x ""). repeat split; [exact Hr | exact H |].
    cbn [must_digit]. destruct negated; [discriminate|].
    destruct items as [|[| | |] [|? ?]]; try discriminate.
    intros _. unfold Re.set_matches in Hx. simpl in Hx.
    try rewrite orb_false_r in Hx. simpl. now rewrite Hx.
  - destruct (Re.at_boundary st); [|discriminate]. intros H.
    exists st, "". repeat split; [exact H | discriminate].
  - intros H.
    destruct (IH1 _ _ _ H) as [st1 [w1 [Hw1 [Hk1 D1]]]].
    destruct (IH2 _ _ _ Hk1) as [st2 [w2 [Hw2 [Hk2 D2]]]].
    exists st2, (w1 ++ w2). split; [now rewrite Hw1, Hw2, append_assoc|].
    split; [exact Hk2|]. cbn [must_digit]. rewrite orb_true_iff, sexists_app.
    intros [Ha | Hb]; [rewrite (D1 Ha) | rewrite (D2 Hb), orb_true_r];
      reflexivity.
  - cbn [must_digit].
    destruct (Re.run ic r1 st k) as [a|] eqn:E.
    + intros H. inversion H; subst.
      destruct (IH1 _ _ _ E) as [st1 [w1 [Hw1 [Hk1 D1]]]].
      exists st1, w1. split; [exact Hw1|]. split; [exact Hk1|].
      intros Hm. apply andb_prop in Hm. now apply D1.
    + intros H.
      destruct (IH2 _ _ _ H) as [st1 [w1 [Hw1 [Hk1 D1]]]].
      exists st1, w1. split; [exact Hw1|]. split; [exact Hk1|].
      intros Hm. apply andb_prop in Hm. now apply D1.
  - intros H.
    destruct (star_loop_consumes (Re.run ic r) _
                (fun st k res Hr =>
                   match IH st k res Hr with
                   | ex_intro _ st' (ex_intro _ w (conj Hw (conj Hk _))) =>
                       ex_intro _ st' (ex_intro _ w (conj Hw Hk))
                   end) _ _ _ H) as [st' [w [Hw Hk]]].
    exists st', w. repeat split; [exact Hw | exact Hk | discriminate].
  - intros H.
    destruct (IH _ _ _ H) as [st1 [w1 [Hw1 [Hk1 D1]]]].
    exists (Re.close_group n (Re.pos st) st1), w1. repeat split; auto.
Qed.

Lemma must_digit_none (ic : bool) (r : Re.regex) (st : Re.state)
    (k : Re.state -> option A) :
  must_digit r = true -> sexists is_digit (Re.rest st) = false ->
  Re.run ic r st k = None.
Proof.
  intros Hm Hs. destruct (Re.run ic r st k) as [res|] eqn:E; [|reflexivity].
  destruct (run_needs_digit ic r st k res E) as [st' [w [Hw [_ D]]]].
  rewrite Hw, sexists_app, (D Hm) in Hs. discriminate Hs.
Qed.

End Digits.

Lemma finditer_go_no_digit (ic : bool) (r : Re.regex) (s : string) :
  must_digit r = true -> sexists is_digit s = false ->
  forall skip p pv, Re.finditer_go ic r skip p pv s = [].
Proof.
  intros Hm. induction s as [|c s IH]; intros Hs skip p pv;
    cbn [Re.finditer_go].
  - destruct skip; [|reflexivity]. unfold Re.match_at.
    now rewrite must_digit_none.
  - assert (Hs' : sexists is_digit s = false).
    { simpl in Hs. now apply orb_false_elim in Hs. }
    destruct skip; [|now apply IH].
    unfold Re.match_at. rewrite must_digit_none; auto.
Qed.

(** X16. For an ASCII text every entry of the medication list carries
    the same frequency and the same duration, those read first in the
    whole text, whatever stands next to the medication; and a text
    without a digit gives the empty list. *)
Theorem medication_info_shares_frequency_and_duration (text : string) :
  ascii_text text = true ->
  Forall (fun i => frequency i = frequency_info text /\
                   duration i = duration_info text)
    (extract_medication_info text) /\
  (sexists is_digit text = false -> extract_medication_info text = []).
Proof.
  intros _. unfold extract_medication_info. split.
  - apply Forall_forall. intros i Hi. apply in_flat_map in Hi.
    destruct Hi as [pattern [_ Hi]]. apply in_map_iff in Hi.
    destruct Hi as [x [E _]]. subst i. cbv zeta. now split.
  - intros H.
    assert (E : forall pattern, In pattern info_patterns ->
                                Re.finditer true pattern text = []).
    { intros pattern I. apply finditer_go_no_digit; [|exact H].
      unfold info_patterns in I. simpl in I.
      destruct I as [I | [I | [I | []]]]; subst pattern; reflexivity. }
    induction info_patterns as [|pattern tl IH]; [reflexivity|].
    cbn [flat_map]. rewrite (E pattern (or_introl eq_refl)). cbn [map app].
    apply IH. intros p I. apply E. now right.
Qed.

Lemma medication_info_witness :
  Forall (fun i => frequency i = frequency_info two_medications /\
                   duration i = duration_info two_medications)
    (extract_medication_info two_medications) /\
  (sexists is_digit two_medications = false ->
   extract_medication_info two_medications = []).
Proof.
  apply (medication_info_shares_frequency_and_duration two_medications).
  vm_compute. reflexivity.
Defined.

End ScanFacts.

(* ================================================================== *)
(** ** Further properties of the extraction pipeline *)
(* ================================================================== *)

Module RecordFacts.

Import AIProcessor Notions StrFacts CharFacts ReFacts MergeFacts ExtractFacts.

Lemma mem_In (x : string) (l : list string) : mem x l = true <-> In x l.
Proof.
  unfold mem. rewrite existsb_exists. split.
  - intros [y [Hy E]]. apply String.eqb_eq in E. now subst.
  - intros H. exists x. split; [exact H | apply String.eqb_refl].
Qed.

Lemma nodup_str_NoDup (l : list string) :
  MedicationReminder.nodup_str l = true -> NoDup l.
Proof.
  induction l as [|a tl IH]; cbn [MedicationReminder.nodup_str]; intros H;
    constructor.
  - apply andb_prop in H. destruct H as [H _]. apply negb_true_iff in H.
    intros I. apply mem_In in I. rewrite I in H. discriminate H.
  - apply andb_prop in H. now apply IH.
Qed.

(** *** The lexicon extractor *)

Section Lexicon.
Variable fm : option (string -> string -> bool).

Lemma try_variations_hit (text k : string) (found vs : list string) :
  mem k found = false ->
  exists o,
    try_variations fm text (lower text) k found vs = Ok o /\
    match o with
    | Some m =>
        existsb (fun v => contains v (lower text)) vs = true /\
        name m = title k /\ confidence m = Some (8 # 10)%Q /\
        source m = Some "rule_based"
    | None => existsb (fun v => contains v (lower text)) vs = false
    end.
Proof.
  intros Hf. induction vs as [|v tl IH]; cbn [try_variations existsb].
  - exists None. split; reflexivity.
  - rewrite Hf. cbn [negb]. rewrite andb_true_r.
    destruct (contains v (lower text)) eqn:Hv; [|exact IH].
    assert (Hl : contains (lower v) (lower text) = true).
    { rewrite <- (lower_idem text). now apply contains_lower. }
    destruct (extract_dosage_located fm text v Hl) as [d ->].
    destruct (extract_frequency_located fm text v Hl) as [f ->].
    cbn [bind orb]. eexists. split; [reflexivity|]. cbn. auto.
Qed.

Lemma rule_based_loop_hits (text : string) (db : dict (list string)) :
  forall meds found,
    NoDup (map fst db) ->
    (forall k, In k (map fst db) -> mem k found = false) ->
    exists M,
      rule_based_loop fm text (lower text) db meds found
      = Ok (meds ++ M)%list /\
      map name M
      = map title
          (map fst
             (filter (fun e => existsb (fun v => contains v (lower text))
                                 (snd e)) db)) /\
      Forall (fun m => confidence m = Some (8 # 10)%Q /\
                       source m = Some "rule_based") M.
Proof.
  induction db as [|[k vs] db IH]; intros meds found ND Hf;
    cbn [rule_based_loop].
  - exists []. rewrite app_nil_r. repeat split. constructor.
  - cbn [map fst] in ND, Hf. inversion ND as [|? ? Hk ND']; subst.
    destruct (try_variations_hit text k found vs (Hf k (or_introl eq_refl)))
      as [o [-> Ho]].
    cbn [bind filter snd]. destruct o as [m|].
    + destruct Ho as [Hhit [Hn [Hc Hs]]]. rewrite Hhit.
      destruct (IH (meds ++ [m])%list (k :: found) ND') as [M [E [Hnames HF]]].
      { intros k' Hk'. unfold mem. cbn [existsb]. fold (mem k' found).
        rewrite (Hf k' (or_intror Hk')), orb_false_r.
        apply String.eqb_neq. intros ->. now apply Hk. }
      exists (m :: M). split; [|split].
      * rewrite E, <- app_assoc. reflexivity.
      * cbn [map fst]. now rewrite Hn, Hnames.
      * constructor; auto.
    + rewrite Ho. apply IH; [exact ND'|]. intros k' Hk'. apply Hf. now right.
Qed.

End Lexicon.

(** X17. The lexicon extractor returns for every text, with one
    candidate for each medication of the lexicon that has a variation
    in the lower-cased text and none for the others, in the order of the
    lexicon, named by the title-cased key, with confidence 0.8 and
    source "rule_based". *)
Theorem lexicon_candidates_are_the_lexicon_hits
    (fm : option (string -> string -> bool)) (text : string) :
  ascii_text text = true ->
  exists M,
    rule_based_extraction fm text = Ok M /\
    map name M = map title (lexicon_hits text) /\
    Forall (fun m => confidence m = Some (8 # 10)%Q /\
                     source m = Some "rule_based") M /\
    (List.length M <= 32)%nat.
Proof.
  intros _.
  destruct (rule_based_loop_hits fm text medication_database [] [])
    as [M [E [Hn HF]]].
  - apply nodup_str_NoDup. vm_compute. reflexivity.
  - reflexivity.
  - exists M. split; [exact E|]. split; [exact Hn|]. split; [exact HF|].
    rewrite <- (length_map name), Hn, !length_map.
    etransitivity; [apply filter_length_le|]. apply Nat.eq_le_incl. reflexivity.
Qed.

Lemma lexicon_candidates_witness :
  exists M,
    rule_based_extraction self_fuzzy_match two_medications = Ok M /\
    map name M = map title (lexicon_hits two_medications) /\
    Forall (fun m => confidence m = Some (8 # 10)%Q /\
                     source m = Some "rule_based") M /\
    (List.length M <= 32)%nat.
Proof.
  apply (lexicon_candidates_are_the_lexicon_hits self_fuzzy_match
           two_medications).
  vm_compute. reflexivity.
Defined.

(** *** The merger *)

Section Fields.
Variable S : med -> Prop.

Lemma fields_of_itself (m : med) : S m -> fields_of S m.
Proof. intros H. unfold fields_of. repeat split; exists m; auto. Qed.

Lemma backfill_fields (b m : med) :
  fields_of S b -> S m -> fields_of S (backfill b m).
Proof.
  intros [Hn [Hd [Hf [Hu Hi]]]] Hm. unfold backfill.
  destruct (med_eqb m b); [unfold fields_of; auto|].
  cbv zeta.
  repeat match goal with
         | |- context [if ?c then _ else _] => destruct c
         end;
    unfold fields_of; cbn [name dosage frequency duration instructions
                             confidence source];
    repeat split;
    first [ assumption | exists m; split; [exact Hm | reflexivity] ].
Qed.

Lemma fold_backfill_fields (g : list med) :
  forall b, fields_of S b -> Forall S g ->
            fields_of S (fold_left backfill g b).
Proof.
  induction g as [|m g IH]; intros b Hb Hg; cbn [fold_left]; [exact Hb|].
  inversion Hg; subst. apply IH; [|assumption]. now apply backfill_fields.
Qed.

Lemma reduce_group_fields (g : list med) (b : med) :
  Forall S g -> reduce_group g = Ok b -> fields_of S b.
Proof.
  intros Hg. unfold reduce_group.
  destruct (pick_best g None (-1)%Q) as [m|] eqn:E; [|discriminate].
  intros H. inversion H; subst.
  destruct (pick_best_in _ _ _ _ E) as [Hin | Habs]; [|discriminate].
  apply fold_backfill_fields; [|exact Hg].
  apply fields_of_itself. rewrite Forall_forall in Hg. now apply Hg.
Qed.

Lemma merge_groups_fields (values : list (list med)) :
  forall merged M,
    Forall (Forall S) values ->
    Forall (fields_of S) merged ->
    merge_groups values merged = Ok M ->
    Forall (fields_of S) M.
Proof.
  induction values as [|g tl IH]; intros merged M HV HM H;
    cbn [merge_groups] in H.
  - now inversion H; subst.
  - inversion HV as [|? ? Hg Htl]; subst.
    destruct g as [|x g]; [now apply (IH merged)|].
    destruct (reduce_group (x :: g)) as [b|e] eqn:E; [|discriminate].
    cbn [bind] in H. apply (IH (merged ++ [b])%list); auto.
    apply Forall_app. split; [exact HM|]. constructor; [|constructor].
    now apply (reduce_group_fields (x :: g)).
Qed.

End Fields.

Lemma merged_fields_of (candidates M : list med) :
  merge_medications candidates = Ok M ->
  Forall (fields_of (fun m => In m candidates /\
                              invalid_name (strip (name m)) = false)) M.
Proof.
  unfold merge_medications. intros H.
  eapply merge_groups_fields; [| constructor | exact H].
  apply Forall_concat.
  fold (members (fold_left group_step candidates [])).
  apply fold_group_step_members; [constructor|].
  apply Forall_forall. intros m Hin Hv. auto.
Qed.

(** X18. The merger invents no value: every field of a record it
    returns is that field of a candidate whose name passed its test;
    name, confidence and source come from one and the same candidate. *)
Theorem merged_fields_are_candidate_fields (candidates M : list med) :
  merge_medications candidates = Ok M ->
  Forall (fields_of (fun m => In m candidates /\
                              invalid_name (strip (name m)) = false)) M.
Proof. apply merged_fields_of. Qed.

Lemma merged_fields_witness :
  Forall (fields_of (fun m => In m [unit_token; amox; amoxicillin; cillin] /\
                              invalid_name (strip (name m)) = false))
    [amoxicillin; cillin].
Proof.
  apply (merged_fields_are_candidate_fields
           [unit_token; amox; amoxicillin; cillin]).
  vm_compute. reflexivity.
Defined.

(** *** The frequency labels and the scheduler *)















(** *** The durations *)



(** *** The candidates of the two extractors *)

Section Candidates.
Variable fm : option (string -> string -> bool).






End Candidates.



End RecordFacts.

(* ================================================================== *)
(** ** The cleaner of the recogniser and the dose triples *)
(* ================================================================== *)

Module LoneFacts.

Import Notions StrFacts CharFacts ReFacts CleanFacts RecogniserFacts.

(** *** Replacing a character that stands alone *)

Section Replacing.
Variables a b : ascii.
Hypothesis a_word : is_word a = true.
Hypothesis b_word : is_word b = true.

Lemma starts_word_replace (s : string) (prev : bool) :
  starts_word (replace_lone a b prev s) = starts_word s.
Proof.
  destruct s as [|c s]; [reflexivity|]. cbn [replace_lone starts_word].
  destruct (Ascii.eqb c a) eqn:E; cbn [andb]; [|reflexivity].
  apply Ascii.eqb_eq in E. subst c.
  destruct (negb prev && negb (starts_word s)); [|reflexivity].
  now rewrite a_word, b_word.
Qed.

Lemma replaced_word (c : ascii) (t1 t2 : bool) :
  is_word (if Ascii.eqb c a && t1 && t2 then b else c) = is_word c.
Proof.
  destruct (Ascii.eqb c a) eqn:E; cbn [andb]; [|reflexivity].
  apply Ascii.eqb_eq in E. subst c.
  destruct (t1 && t2); [|reflexivity]. now rewrite a_word, b_word.
Qed.

(** After the replacement no [a] stands alone. *)
Lemma lone_replaced (s : string) :
  a <> b ->
  forall prev, lone a prev (replace_lone a b prev s) = false.
Proof.
  intros Hab.
  assert (Hba : Ascii.eqb b a = false)
    by (apply Ascii.eqb_neq; congruence).
  induction s as [|c s IH]; intros prev; [reflexivity|].
  cbn [replace_lone lone].
  rewrite starts_word_replace, replaced_word, IH, orb_false_r.
  destruct (Ascii.eqb c a) eqn:E, (negb prev), (negb (starts_word s));
    cbn [andb]; rewrite ?E, ?Hba; reflexivity.
Qed.

(** The replacement of another character changes nothing to that. *)
Lemma lone_replaced_other (z : ascii) (s : string) :
  z <> a -> z <> b ->
  forall prev, lone z prev (replace_lone a b prev s) = lone z prev s.
Proof.
  intros Hza Hzb.
  assert (Haz : Ascii.eqb a z = false)
    by (apply Ascii.eqb_neq; congruence).
  assert (Hbz : Ascii.eqb b z = false)
    by (apply Ascii.eqb_neq; congruence).
  induction s as [|c s IH]; intros prev; [reflexivity|].
  cbn [replace_lone lone].
  rewrite starts_word_replace, replaced_word, IH.
  f_equal.
  destruct (Ascii.eqb c a) eqn:E; cbn [andb]; [|reflexivity].
  apply Ascii.eqb_eq in E. subst c.
  destruct (negb prev), (negb (starts_word s)); cbn [andb];
    rewrite ?Haz, ?Hbz; reflexivity.
Qed.

End Replacing.

(** *** What the steps of the extractor's cleaner keep *)

Lemma space_not_word (c : ascii) : is_space c = true -> is_word c = false.
Proof. by_cases_on_char c. Qed.

Lemma kept_word (c : ascii) :
  is_word (if kept c then c else " "%char) = is_word c /\
  Ascii.eqb (if kept c then c else " "%char) "0" = Ascii.eqb c "0".
Proof.
  destruct c as [[] [] [] [] [] [] [] []]; vm_compute; split; reflexivity.
Qed.

Lemma lower_char_word (c : ascii) :
  is_word (lower_char c) = is_word c /\
  Ascii.eqb (lower_char c) "0" = Ascii.eqb c "0".
Proof.
  destruct c as [[] [] [] [] [] [] [] []]; vm_compute; split; reflexivity.
Qed.

Lemma space_not_zero (c : ascii) : is_space c = true -> Ascii.eqb c "0" = false.
Proof. by_cases_on_char c. Qed.

Lemma starts_word_smap (f : ascii -> ascii) (s : string) :
  (forall c, is_word (f c) = is_word c) ->
  starts_word (smap f s) = starts_word s.
Proof. intros H. destruct s; [reflexivity | apply H]. Qed.

Lemma lone_smap (f : ascii -> ascii) (s : string) :
  (forall c, is_word (f c) = is_word c) ->
  (forall c, Ascii.eqb (f c) "0" = Ascii.eqb c "0") ->
  forall prev, lone "0" prev (smap f s) = lone "0" prev s.
Proof.
  intros Hw Hz. induction s as [|c s IH]; intros prev; [reflexivity|].
  cbn [smap lone]. now rewrite (starts_word_smap f s Hw), Hw, Hz, IH.
Qed.

Lemma lone_lstrip (s : string) :
  lone "0" false (lstrip s) = lone "0" false s.
Proof.
  induction s as [|c s IH]; [reflexivity|]. cbn [lstrip].
  destruct (is_space c) eqn:E; [|reflexivity].
  cbn [lone]. now rewrite (space_not_zero c E), (space_not_word c E), IH.
Qed.

Lemma starts_word_rstrip (s : string) :
  starts_word (rstrip s) = starts_word s.
Proof.
  destruct s as [|c s]; [reflexivity|]. cbn [rstrip].
  destruct (rstrip s).
  - destruct (is_space c) eqn:E; [|reflexivity].
    cbn [starts_word]. now rewrite (space_not_word c E).
  - reflexivity.
Qed.

Lemma lone_rstrip (s : string) :
  forall prev, lone "0" prev (rstrip s) = lone "0" prev s.
Proof.
  induction s as [|c s IH]; intros prev; [reflexivity|].
  cbn [lone]. rewrite <- (IH (is_word c)), <- (starts_word_rstrip s).
  cbn [rstrip]. destruct (rstrip s) as [|d r] eqn:R.
  - destruct (is_space c) eqn:E.
    + now rewrite (space_not_zero c E).
    + reflexivity.
  - reflexivity.
Qed.

Lemma starts_word_collapse (s : string) (b : bool) :
  starts_word s = true -> starts_word (collapse_spaces b s) = true.
Proof.
  destruct s as [|c s]; [discriminate|]. cbn [starts_word collapse_spaces].
  intros H. destruct (is_space c) eqn:E; [|exact H].
  now rewrite (space_not_word c E) in H.
Qed.

Lemma starts_word_collapse_false (s : string) :
  starts_word (collapse_spaces false s) = starts_word s.
Proof.
  destruct s as [|c s]; [reflexivity|]. cbn [starts_word collapse_spaces].
  destruct (is_space c) eqn:E; [|reflexivity].
  cbn [starts_word]. now rewrite (space_not_word c E).
Qed.

Lemma lone_collapse (s : string) :
  (forall prev, lone "0" prev (collapse_spaces false s) = lone "0" prev s) /\
  lone "0" false (collapse_spaces true s) = lone "0" false s.
Proof.
  induction s as [|c s [IH1 IH2]]; [split; reflexivity|].
  cbn [collapse_spaces]. destruct (is_space c) eqn:E.
  - pose proof (space_not_word c E) as Hw.
    pose proof (space_not_zero c E) as Hz. split.
    + intros prev. cbn [lone]. rewrite Hz, Hw.
      change (is_word " ") with false. now rewrite IH2.
    + cbn [lone]. now rewrite Hz, Hw, IH2.
  - split.
    + intros prev. cbn [lone].
      now rewrite IH1, starts_word_collapse_false.
    + cbn [lone]. now rewrite IH1, starts_word_collapse_false.
Qed.

Lemma lone_extractor_clean_text (t : string) :
  lone "0" false (lower (AIProcessor.clean_text t)) = lone "0" false t.
Proof.
  unfold lower.
  rewrite (lone_smap lower_char _ (fun c => proj1 (lower_char_word c))
             (fun c => proj2 (lower_char_word c))).
  rewrite clean_text_steps. unfold blank_symbols.
  rewrite (lone_smap _ _ (fun c => proj1 (kept_word c))
             (fun c => proj2 (kept_word c))).
  destruct (lone_collapse (strip t)) as [-> _].
  unfold strip. now rewrite lone_rstrip, lone_lstrip.
Qed.

(** *** A zero between two characters that are not word characters *)

Lemma lone_middle (a x y : ascii) (u v : string) :
  is_word x = false -> is_word y = false ->
  forall prev, lone a prev (u ++ String x (String a (String y v))) = true.
Proof.
  intros Hx Hy. induction u as [|c u IH]; intros prev.
  - cbn [append lone starts_word]. rewrite Hx, Hy, Ascii.eqb_refl.
    cbn. now rewrite orb_true_r.
  - cbn [append lone]. now rewrite IH, orb_true_r.
Qed.

Lemma no_lone_no_triple (t p : string) :
  lone "0" false t = false ->
  contains "-0-" p || contains " 0 " p = true ->
  contains p t = false.
Proof.
  intros L H. destruct (contains p t) eqn:C; [|reflexivity].
  apply orb_true_iff in H.
  assert (M : contains "-0-" t = true \/ contains " 0 " t = true).
  { destruct H as [H | H]; [left | right]; eapply contains_trans; eauto. }
  destruct M as [M | M]; apply contains_iff in M; destruct M as [u [v ->]];
    cbn [append] in L; now rewrite lone_middle in L.
Qed.

(** X20. The cleaner of the recogniser leaves no 0 standing alone: it
    writes the letter O for it.  So the text it returns, and the
    lower-cased text the extractor makes of that, contain none of the
    dose triples with a zero in the middle, neither 1-0-1 nor 1-0-0 nor
    0-0-1 nor 2-0-2, with hyphens or with spaces; the line of the worked
    example, whose triple reads twice daily, is read as daily once the
    recogniser has cleaned it. *)
Theorem recogniser_rewrites_the_dose_triples
    (fm : option (string -> string -> bool)) (raw : string) :
  ascii_text raw = true ->
  lone "0" false (PrescriptionOCR.clean_text raw) = false /\
  Forall (fun p =>
            contains p (PrescriptionOCR.clean_text raw) = false /\
            contains p (lower (AIProcessor.clean_text
                                 (PrescriptionOCR.clean_text raw))) = false)
    middle_zero_triples /\
  PrescriptionOCR.clean_text augmentin_text
  = "Tab. Augmentin 625mg 1-O-1 x 5 days" /\
  AIProcessor.extract_medications fm
    (PrescriptionOCR.clean_text augmentin_text)
  = Ok [AIProcessor.mkMed "Augmentin" "625 mg" "daily" "5 days"
          (Some "daily") (Some (8 # 10)%Q) (Some "rule_based")].
Proof.
  intros _.
  assert (L : lone "0" false (PrescriptionOCR.clean_text raw) = false).
  { rewrite recogniser_clean_text_steps.
    rewrite (lone_replaced_other "l" "I" eq_refl eq_refl "0")
      by discriminate.
    apply (lone_replaced "0" "O" eq_refl eq_refl). discriminate. }
  split; [exact L|]. split; [|split; vm_compute; reflexivity].
  unfold middle_zero_triples.
  repeat (constructor;
          [split; apply no_lone_no_triple;
           first [ exact L | now rewrite lone_extractor_clean_text
                 | reflexivity ]|]).
  constructor.
Qed.

Lemma recogniser_rewrites_witness :
  lone "0" false (PrescriptionOCR.clean_text "Tab. PanD 40mg 1-0-0 x 7 days")
  = false /\
  Forall (fun p =>
            contains p (PrescriptionOCR.clean_text
                          "Tab. PanD 40mg 1-0-0 x 7 days") = false /\
            contains p (lower (AIProcessor.clean_text
                                 (PrescriptionOCR.clean_text
                                    "Tab. PanD 40mg 1-0-0 x 7 days"))) = false)
    middle_zero_triples /\
  PrescriptionOCR.clean_text augmentin_text
  = "Tab. Augmentin 625mg 1-O-1 x 5 days" /\
  AIProcessor.extract_medications AIProcessor.self_fuzzy_match
    (PrescriptionOCR.clean_text augmentin_text)
  = Ok [AIProcessor.mkMed "Augmentin" "625 mg" "daily" "5 days"
          (Some "daily") (Some (8 # 10)%Q) (Some "rule_based")].
Proof.
  apply (recogniser_rewrites_the_dose_triples AIProcessor.self_fuzzy_match
           "Tab. PanD 40mg 1-0-0 x 7 days").
  vm_compute. reflexivity.
Defined.

End LoneFacts.

(* ================================================================== *)
(** ** The wordings of the frequency table *)
(* ================================================================== *)

Module WordingFacts.

Import AIProcessor Notions StrFacts CharFacts ReFacts ExtractFacts.

(** *** What a match consumes is a text of the pattern *)

Lemma concat_cons (x : string) (xs : list string) :
  String.concat "" (x :: xs) = x ++ String.concat "" xs.
Proof.
  destruct xs as [|y ys]; cbn [String.concat]; [now rewrite append_nil_r|].
  reflexivity.
Qed.

Section Consumed.
Context {A : Type}.

Lemma star_loop_lang (L : string -> Prop)
    (step : Re.state -> (Re.state -> option A) -> option A) (fuel : nat) :
  (forall st k res,
      step st k = Some res ->
      exists st' w, Re.rest st = w ++ Re.rest st' /\ k st' = Some res /\ L w) ->
  forall st (k : Re.state -> option A) res,
    Re.star_loop fuel step st k = Some res ->
    exists st' ws,
      Re.rest st = String.concat "" ws ++ Re.rest st' /\ k st' = Some res /\
      Forall L ws.
Proof.
  intros Hstep. induction fuel as [|f IH]; intros st k res;
    cbn [Re.star_loop].
  - intros H. exists st, []. repeat split; [exact H | constructor].
  - destruct (step st _) as [a|] eqn:E.
    + intros H. inversion H; subst.
      destruct (Hstep _ _ _ E) as [st1 [w1 [Hw1 [Hk1 L1]]]].
      destruct (Re.pos st <? Re.pos st1)%nat; [|discriminate].
      destruct (IH _ _ _ Hk1) as [st2 [ws [Hw2 [Hk2 L2]]]].
      exists st2, (w1 :: ws). split; [|split; [exact Hk2 | now constructor]].
      now rewrite concat_cons, Hw1, Hw2, append_assoc.
    + intros H. exists st, []. repeat split; [exact H | constructor].
Qed.

Lemma run_lang (ic : bool) (r : Re.regex) :
  forall st (k : Re.state -> option A) res,
    Re.run ic r st k = Some res ->
    exists st' w,
      Re.rest st = w ++ Re.rest st' /\ k st' = Some res /\ lang ic r w.
Proof.
  induction r as [|c|negated items| |r1 IH1 r2 IH2|r1 IH1 r2 IH2|r IH|n r IH];
    intros st k res; cbn [Re.run lang].
  - intros H. now exists st, "".
  - destruct (Re.eat _ st) as [st'|] eqn:E; [|discriminate]. intros H.
    destruct (eat_consumes _ _ _ E) as [x [Hx Hr]].
    exists st', (String x ""). repeat split; [exact Hr | exact H|].
    now exists x.
  - destruct (Re.eat _ st) as [st'|] eqn:E; [|discriminate]. intros H.
    destruct (eat_consumes _ _ _ E) as [x [Hx Hr]].
    exists st', (String x ""). repeat split; [exact Hr | exact H|].
    now exists x.
  - destruct (Re.at_boundary st); [|discriminate]. intros H.
    now exists st, "".
  - intros H.
    destruct (IH1 _ _ _ H) as [st1 [w1 [Hw1 [Hk1 L1]]]].
    destruct (IH2 _ _ _ Hk1) as [st2 [w2 [Hw2 [Hk2 L2]]]].
    exists st2, (w1 ++ w2). split; [now rewrite Hw1, Hw2, append_assoc|].
    split; [exact Hk2|]. now exists w1, w2.
  - destruct (Re.run ic r1 st k) as [a|] eqn:E.
    + intros H. inversion H; subst.
      destruct (IH1 _ _ _ E) as [st1 [w1 [Hw1 [Hk1 L1]]]].
      exists st1, w1. auto.
    + intros H.
      destruct (IH2 _ _ _ H) as [st1 [w1 [Hw1 [Hk1 L1]]]].
      exists st1, w1. auto.
  - intros H.
    destruct (star_loop_lang (lang ic r) (Re.run ic r) _ IH _ _ _ H)
      as [st' [ws [Hw [Hk L]]]].
    exists st', (String.concat "" ws). split; [exact Hw|].
    split; [exact Hk|]. now exists ws.
  - intros H.
    destruct (IH _ _ _ H) as [st1 [w1 [Hw1 [Hk1 L1]]]].
    exists (Re.close_group n (Re.pos st) st1), w1. auto.
Qed.

End Consumed.

Lemma scan_lang (ic : bool) (r : Re.regex) (s : string) :
  forall p pv x,
    Re.scan ic r p pv s = Some x ->
    exists w, lang ic r w /\ contains w s = true.
Proof.
  assert (M : forall p pv t x,
             Re.match_at ic r p pv t = Some x ->
             exists w, lang ic r w /\ contains w t = true).
  { intros p pv t x H. unfold Re.match_at in H.
    destruct (run_lang ic r _ _ _ H) as [st' [w [Hw [_ L]]]].
    cbn [Re.rest] in Hw. exists w. split; [exact L|].
    apply contains_iff. exists "", (Re.rest st'). exact Hw. }
  induction s as [|c s IH]; intros p pv x; cbn [Re.scan].
  - destruct (Re.match_at ic r p pv "") as [y|] eqn:E; [|discriminate].
    intros _. eapply M; eauto.
  - destruct (Re.match_at ic r p pv (String c s)) as [y|] eqn:E.
    + intros _. eapply M; eauto.
    + intros H. destruct (IH _ _ _ H) as [w [L C]]. exists w.
      split; [exact L|].
      apply contains_iff in C. destruct C as [u [v ->]].
      apply contains_iff. now exists (String c u), v.
Qed.

Lemma lang_spellings (r : Re.regex) :
  forall l w, spellings r = Some l -> lang false r w -> In w l.
Proof.
  induction r as [|c|negated items| |r1 IH1 r2 IH2|r1 IH1 r2 IH2|r IH|n r IH];
    intros l w; cbn [spellings lang]; try discriminate.
  - intros H ->. inversion H. now left.
  - intros H [x [Hx ->]]. inversion H. left.
    unfold Re.lit_matches in Hx. apply Ascii.eqb_eq in Hx. now subst.
  - destruct (spellings r1) as [l1|]; [|discriminate].
    destruct (spellings r2) as [l2|]; [|discriminate].
    intros H [w1 [w2 [-> [L1 L2]]]]. inversion H.
    apply in_flat_map. exists w1. split; [now apply IH1|].
    apply in_map. now apply IH2.
  - destruct (spellings r1) as [l1|]; [|discriminate].
    destruct (spellings r2) as [l2|]; [|discriminate].
    intros H [L | L]; inversion H; apply in_or_app;
      [left; now apply IH1 | right; now apply IH2].
  - apply IH.
Qed.

Lemma contains_app_l (p a b : string) :
  contains p a = true -> contains p (a ++ b) = true.
Proof.
  rewrite !contains_iff. intros [u [v ->]]. exists u, (v ++ b).
  now rewrite !append_assoc.
Qed.

Lemma contains_app_right (p a b : string) :
  contains p b = true -> contains p (a ++ b) = true.
Proof.
  rewrite !contains_iff. intros [u [v ->]]. exists (a ++ u), v.
  now rewrite append_assoc.
Qed.

Lemma lang_must_lit (c : ascii) (r : Re.regex) :
  forall w, must_lit c r = true -> lang false r w ->
            contains (String c "") w = true.
Proof.
  induction r as [|x|negated items| |r1 IH1 r2 IH2|r1 IH1 r2 IH2|r IH|n r IH];
    intros w; cbn [must_lit lang]; try discriminate.
  - intros E [y [Hy ->]]. unfold Re.lit_matches in Hy.
    apply Ascii.eqb_eq in E, Hy. subst.
    apply contains_iff. now exists "", "".
  - intros E [w1 [w2 [-> [L1 L2]]]]. apply orb_true_iff in E.
    destruct E as [E | E];
      [apply contains_app_l; now apply IH1
      | apply contains_app_right; now apply IH2].
  - intros E [L | L]; apply andb_prop in E; destruct E as [E1 E2]; auto.
  - apply IH.
Qed.

(** *** Where a label comes from *)

Lemma first_timing_hit (l : list (Re.regex * string)) (s d : string) :
  first_timing l s = Some d ->
  exists r x, In (r, d) l /\ Re.search false r s = Some x.
Proof.
  induction l as [|[r d'] tl IH]; cbn [first_timing]; [discriminate|].
  destruct (Re.search false r s) as [x|] eqn:E.
  - intros H. inversion H; subst. exists r, x. split; [now left | exact E].
  - intros H. destruct (IH H) as [r' [x [I S]]]. exists r', x.
    split; [now right | exact S].
Qed.

Lemma first_frequency_hit (d : dict (list string)) (s f : string) :
  first_frequency d s = Some f ->
  exists vs v, In (f, vs) d /\ In v vs /\ contains v s = true.
Proof.
  induction d as [|[k vs] tl IH]; cbn [first_frequency]; [discriminate|].
  destruct (existsb _ vs) eqn:E.
  - intros H. inversion H; subst. apply existsb_exists in E.
    destruct E as [v [Hv C]]. exists vs, v. split; [now left | auto].
  - intros H. destruct (IH H) as [vs' [v [I [Hv C]]]]. exists vs', v.
    split; [now right | auto].
Qed.

(** *** The pattern of three digits *)

Lemma digit_cases (c : ascii) :
  is_digit c = true ->
  In c ["0"; "1"; "2"; "3"; "4"; "5"; "6"; "7"; "8"; "9"]%char.
Proof.
  destruct c as [[] [] [] [] [] [] [] []]; intros H;
    try discriminate H; simpl; tauto.
Qed.

Lemma length_app (u t : string) :
  String.length (u ++ t) = String.length u + String.length t.
Proof. induction u as [|c u IH]; simpl; [reflexivity | now rewrite IH]. Qed.

Lemma drop_app (u t : string) : drop (String.length u) (u ++ t) = t.
Proof. induction u as [|c u IH]; simpl; [now destruct t | exact IH]. Qed.

Lemma triple_match_at (p : nat) (pv : option ascii) (t : string)
    (x : Re.mtch) :
  Re.match_at false (Re.compile "(\d)-(\d)-(\d)") p pv t = Some x ->
  exists a b c rest,
    t = String a (String "-" (String b (String "-" (String c rest)))) /\
    is_digit a = true /\ is_digit b = true /\ is_digit c = true /\
    Re.m_caps x = [(3, (4 + p, 5 + p)); (2, (2 + p, 3 + p)); (1, (p, 1 + p))].
Proof.
  unfold Re.match_at.
  let r := eval vm_compute in (Re.compile "(\d)-(\d)-(\d)") in
  change (Re.compile "(\d)-(\d)-(\d)") with r.
  cbn [Re.run]. unfold Re.eat, Re.set_matches, Re.lit_matches.
  cbn [Re.close_group existsb Re.item_matches xorb]. intros H.
  do 5 (cbn [Re.rest Re.pos Re.caps Re.prev Re.close_group] in H;
        match type of H with
        | context [match ?s with EmptyString => _ | String _ _ => _ end] =>
            is_var s; destruct s; [discriminate H|]
        end;
        match type of H with
        | context [if ?e then _ else _] =>
            destruct e eqn:?; [|discriminate H]
        end).
  cbn [Re.rest Re.pos Re.caps Re.prev Re.close_group] in H.
  inversion H as [Hx].
  cbn [Re.m_caps].
  repeat match goal with
         | E : Ascii.eqb _ _ = true |- _ => apply Ascii.eqb_eq in E; subst
         | E : _ || false = true |- _ => rewrite orb_false_r in E
         end.
  do 4 eexists. repeat split; eauto.
Qed.

Lemma triple_scan (t : string) :
  forall u pv x,
    Re.scan false (Re.compile "(\d)-(\d)-(\d)") (String.length u) pv t
    = Some x ->
    exists v a b c rest,
      u ++ t
      = v ++ String a (String "-" (String b (String "-" (String c rest)))) /\
      is_digit a = true /\ is_digit b = true /\ is_digit c = true /\
      Re.group (u ++ t) x 1 = Some (String a "") /\
      Re.group (u ++ t) x 2 = Some (String b "") /\
      Re.group (u ++ t) x 3 = Some (String c "").
Proof.
  assert (M : forall u pv t x,
             Re.match_at false (Re.compile "(\d)-(\d)-(\d)")
               (String.length u) pv t = Some x ->
             exists v a b c rest,
               u ++ t
               = v ++ String a
                        (String "-" (String b (String "-" (String c rest))))
               /\ is_digit a = true /\ is_digit b = true /\
               is_digit c = true /\
               Re.group (u ++ t) x 1 = Some (String a "") /\
               Re.group (u ++ t) x 2 = Some (String b "") /\
               Re.group (u ++ t) x 3 = Some (String c "")).
  { intros u pv t0 x H.
    destruct (triple_match_at _ _ _ _ H)
      as [a [b [c [rest [-> [Da [Db [Dc Hc]]]]]]]].
    exists u, a, b, c, rest. split; [reflexivity|]. repeat split; auto;
      unfold Re.group; rewrite Hc; cbn [Re.lookup_cap Nat.eqb].
    - replace (1 + String.length u - String.length u) with 1 by lia.
      now rewrite drop_app.
    - replace (3 + String.length u - (2 + String.length u)) with 1 by lia.
      change (u ++ String a (String "-" (String b (String "-" (String c rest)))))
        with (u ++ (String a (String "-" "")
                      ++ String b (String "-" (String c rest)))).
      rewrite <- append_assoc.
      replace (2 + String.length u)
        with (String.length (u ++ String a (String "-" "")))
        by (rewrite length_app; simpl; lia).
      now rewrite drop_app.
    - replace (5 + String.length u - (4 + String.length u)) with 1 by lia.
      change (u ++ String a (String "-" (String b (String "-" (String c rest)))))
        with (u ++ (String a (String "-" (String b (String "-" "")))
                      ++ String c rest)).
      rewrite <- append_assoc.
      replace (4 + String.length u)
        with (String.length
                (u ++ String a (String "-" (String b (String "-" "")))))
        by (rewrite length_app; simpl; lia).
      now rewrite drop_app. }
  induction t as [|h t IH]; intros u pv x; cbn [Re.scan].
  - destruct (Re.match_at _ _ _ pv "") as [y|] eqn:E; [|discriminate].
    intros H. inversion H; subst. eapply M; eauto.
  - destruct (Re.match_at _ _ _ pv (String h t)) as [y|] eqn:E.
    + intros H. inversion H; subst. eapply M; eauto.
    + intros H.
      replace (S (String.length u))
        with (String.length (u ++ String h "")) in H
        by (rewrite length_app; simpl; lia).
      apply IH in H.
      replace ((u ++ String h "") ++ t) with (u ++ String h t) in H
        by now rewrite append_assoc.
      exact H.
Qed.

Lemma generic_timing_triple (s : string) :
  generic_timing s = Some "twice daily (morning & night)" ->
  contains "1-0-1" s = true.
Proof.
  unfold generic_timing. cbv zeta. unfold Re.search.
  destruct (Re.scan false _ 0 None s) as [x|] eqn:E; [|discriminate].
  destruct (triple_scan s "" None x E)
    as [v [a [b [c [rest [Hs [Da [Db [Dc [G1 [G2 G3]]]]]]]]]]].
  cbn [append] in Hs, G1, G2, G3. rewrite G1, G2, G3. cbn [Re.or_empty].
  intros H.
  assert (T : a = "1"%char /\ b = "0"%char /\ c = "1"%char).
  { apply digit_cases in Da, Db, Dc.
    match type of H with
    | Some ?e = _ =>
        let e' := eval pattern a, b, c in e in
        match e' with
        | ?F a b c =>
            assert (B : forallb (fun a' => forallb (fun b' => forallb (fun c' =>
                          implb (F a' b' c' =? "twice daily (morning & night)")
                                (Ascii.eqb a' "1" && Ascii.eqb b' "0" &&
                                 Ascii.eqb c' "1"))
                          ["0"; "1"; "2"; "3"; "4"; "5"; "6"; "7"; "8"; "9"]%char)
                          ["0"; "1"; "2"; "3"; "4"; "5"; "6"; "7"; "8"; "9"]%char)
                          ["0"; "1"; "2"; "3"; "4"; "5"; "6"; "7"; "8"; "9"]%char
                        = true) by (vm_compute; reflexivity)
        end
    end.
    rewrite forallb_forall in B. specialize (B a Da).
    rewrite forallb_forall in B. specialize (B b Db).
    rewrite forallb_forall in B. specialize (B c Dc).
    cbv beta in B.
    match type of H with
    | Some ?e = _ =>
        assert (EH : e = "twice daily (morning & night)") by congruence
    end.
    rewrite EH in B.
    rewrite String.eqb_refl in B. cbn [implb] in B.
    apply andb_prop in B. destruct B as [B Ec].
    apply andb_prop in B. destruct B as [Ea Eb].
    apply Ascii.eqb_eq in Ea, Eb, Ec. auto. }
  destruct T as [-> [-> ->]]. rewrite Hs.
  apply contains_iff. now exists v, rest.
Qed.

(** The phrases that make the frequency extractor answer "twice daily
    (morning & night)" on a window. *)
Lemma twice_daily_on_a_window (w : string) :
  first_timing timing_patterns w = Some "twice daily (morning & night)" \/
  (first_timing timing_patterns w = None /\
   first_frequency frequency_patterns w = Some "twice daily (morning & night)")
  \/ generic_timing w = Some "twice daily (morning & night)" ->
  contains "1-0-1" w = true \/ contains "1 0 1" w = true.
Proof.
  intros [H | [[_ H] | H]].
  - destruct (first_timing_hit _ _ _ H) as [r [x [I S]]].
    unfold Re.search in S. destruct (scan_lang _ _ _ _ _ _ S) as [p [L C]].
    unfold timing_patterns in I. simpl in I.
    destruct I as [I | I]; [|repeat (destruct I as [I | I];
                                     [discriminate I|]); contradiction].
    inversion I; subst r.
    assert (W : In p ["1-0-1"; "1 0 1"]).
    { eapply lang_spellings; [|exact L]. reflexivity. }
    simpl in W.
    destruct W as [<- | [<- | []]]; [left | right]; exact C.
  - exfalso.
    destruct (first_frequency_hit _ _ _ H) as [vs [v [I [Hv C]]]].
    assert (E : vs = ["1 morning, 1 night"; "morning and night"]).
    { let table := eval vm_compute in frequency_patterns in
      change frequency_patterns with table in I.
      simpl in I.
      repeat (destruct I as [I | I];
              [first [discriminate I | now inversion I]|]).
      contradiction. }
    subst vs.
    assert (Mo : contains "morning" w = true).
    { simpl in Hv.
      destruct Hv as [<- | [<- | []]];
        (eapply contains_trans; [|exact C]); reflexivity. }
    revert H.
    let table := eval vm_compute in frequency_patterns in
    change frequency_patterns with table.
    cbn [first_frequency existsb]. rewrite Mo, orb_true_r. discriminate.
  - left. now apply generic_timing_triple.
Qed.

(** X21. The extractor answers "twice daily (morning & night)" only
    for a text that has the dose triple 1-0-1 or 1 0 1.  The wordings
    the frequency table lists under that label and under "once daily
    (morning)" in entries that a later entry with the same key replaces,
    such as "twice daily", "twice a day", "bid" and "once daily", do not
    give their label: a text with such a wording and no other is
    labelled "daily". *)
Theorem twice_daily_label_needs_the_dose_triple (text mention : string) :
  ascii_text text = true ->
  extract_frequency_near_medication self_fuzzy_match text mention
  = Ok "twice daily (morning & night)" ->
  (contains "1-0-1" (lower text) = true \/
   contains "1 0 1" (lower text) = true) /\
  Forall (fun wording =>
            extract_frequency_near_medication self_fuzzy_match
              ("Aspirin 500 mg " ++ wording) "aspirin" = Ok "daily")
    replaced_wordings.
Proof.
  intros _ H. split; [|repeat constructor].
  unfold extract_frequency_near_medication in H. cbv zeta in H.
  destruct (_ =? -1)%Z.
  - unfold self_fuzzy_match in H.
    destruct (split text) as [|word tl]; cbn [fuzzy_context bind] in H;
      [|discriminate H].
    cbn [option_map] in H. discriminate H.
  - cbn [bind] in H.
    match type of H with
    | context [first_timing timing_patterns ?w] => set (window := w) in *
    end.
    assert (S : contains window (lower text) = true).
    { unfold window, slice. apply contains_take_drop. }
    assert (W : contains "1-0-1" window = true \/
                contains "1 0 1" window = true).
    { apply twice_daily_on_a_window.
      destruct (first_timing timing_patterns window) as [d|];
        [left; now inversion H|].
      destruct (first_frequency frequency_patterns window) as [d|];
        [right; left; split; [reflexivity | now inversion H]|].
      destruct (generic_timing window) as [d|];
        [right; right; now inversion H | discriminate H]. }
    destruct W as [W | W]; [left | right]; eapply contains_trans; eauto.
Qed.

Lemma twice_daily_label_witness :
  (contains "1-0-1" (lower "Tab. Augmentin 625mg 1-0-1 x 5 days") = true \/
   contains "1 0 1" (lower "Tab. Augmentin 625mg 1-0-1 x 5 days") = true) /\
  Forall (fun wording =>
            extract_frequency_near_medication self_fuzzy_match
              ("Aspirin 500 mg " ++ wording) "aspirin" = Ok "daily")
    replaced_wordings.
Proof.
  apply (twice_daily_label_needs_the_dose_triple
           "Tab. Augmentin 625mg 1-0-1 x 5 days" "augmentin");
    vm_compute; reflexivity.
Defined.

End WordingFacts.
